(** * Date normalisation and yard-stock aggregation of the dealer dashboard

    Shallow embedding of
    - [parseDateValue] and [parseDuration] of src/pages/CampervanSchedule.jsx;
    - [daysSinceISO], [startOfWeekMonday], [addDays], [parseDateValue],
      [normalizeType], [computeStockTrend] and the per-dealer yard aggregates of
      src/unnamed/part_000.

    The JavaScript [Date] object is modelled after the ECMAScript
    specification: a time value is an integer number of milliseconds since
    1970-01-01T00:00:00Z, or NaN ([None]).  The calendar of a time value
    (YearFromTime, MonthFromTime, DateFromTime, WeekDay) is computed with the
    proleptic Gregorian day-number algorithm below.  Local time uses a
    constant UTC offset [tz] (milliseconds); free-form string parsing by the
    [Date] constructor is implementation-defined and is a parameter
    [dateParse]. *)

From Stdlib Require Import ZArith String Ascii List Bool Lia.
From Stdlib Require Import Floats.
From Stdlib Require Import Uint63.
From Stdlib Require Import DecimalString.
From Stdlib Require Import Permutation.
Import ListNotations.

Open Scope Z_scope.

(** ** Calendar arithmetic *)

Definition msPerDay : Z := 86400000.

(** Day number (days since 1970-01-01) of the proleptic Gregorian date
    [y]-[m]-[d], month 1..12. *)
Definition days_from_civil (y m d : Z) : Z :=
  let y' := if m <=? 2 then y - 1 else y in
  let era := y' / 400 in
  let yoe := y' - era * 400 in
  let mp := (m + 9) mod 12 in
  let doy := (153 * mp + 2) / 5 + d - 1 in
  let doe := yoe * 365 + yoe / 4 - yoe / 100 + doy in
  era * 146097 + doe - 719468.

(** Inverse: (year, month 1..12, day 1..31) of a day number. *)
Definition civil_from_days (z : Z) : Z * Z * Z :=
  let z' := z + 719468 in
  let era := z' / 146097 in
  let doe := z' - era * 146097 in
  let yoe := (doe - doe / 1460 + doe / 36524 - doe / 146096) / 365 in
  let y := yoe + era * 400 in
  let doy := doe - (365 * yoe + yoe / 4 - yoe / 100) in
  let mp := (5 * doy + 2) / 153 in
  let d := doy - (153 * mp + 2) / 5 + 1 in
  let m := if mp <? 10 then mp + 3 else mp - 9 in
  (y + (if m <=? 2 then 1 else 0), m, d).

Definition is_leap (y : Z) : bool :=
  ((y mod 4 =? 0) && negb (y mod 100 =? 0)) || (y mod 400 =? 0).

Definition days_in_month (y m : Z) : Z :=
  if m =? 2 then (if is_leap y then 29 else 28)
  else if (m =? 4) || (m =? 6) || (m =? 9) || (m =? 11) then 30
  else 31.

Definition valid_ymd (y m d : Z) : bool :=
  (1 <=? m) && (m <=? 12) && (1 <=? d) && (d <=? days_in_month y m).

(** Bounded quantification over an integer interval, evaluated by [vm_compute]. *)
Fixpoint forall_Z (f : Z -> bool) (lo : Z) (n : nat) : bool :=
  match n with
  | O => true
  | S n' => f lo && forall_Z f (lo + 1) n'
  end.

(** The intermediate quantities of the two conversions: year of era of a
    day of era, first day of era of a year of era (years start on 1 March),
    its length, month (0 = March) of a day of year and its first day. *)
Definition yoe_of (doe : Z) : Z := (doe - doe / 1460 + doe / 36524 - doe / 146096) / 365.
Definition ystart (yoe : Z) : Z := 365 * yoe + yoe / 4 - yoe / 100.
Definition ylen (yoe : Z) : Z := if is_leap (yoe + 1) then 366 else 365.
Definition mp_of (doy : Z) : Z := (5 * doy + 2) / 153.
Definition mstart (mp : Z) : Z := (153 * mp + 2) / 5.
Definition month_of (mp : Z) : Z := if mp <? 10 then mp + 3 else mp - 9.

Definition ymd_days (p : Z * Z * Z) : Z := let '(y, m, d) := p in days_from_civil y m d.

(** ** ECMAScript time values *)

(** MakeDay(year, month, date) with a 0-based month that may be out of
    range: the month and date roll over into the neighbouring months. *)
Definition MakeDay (year month date : Z) : Z :=
  let ym := year + month / 12 in
  let mn := month mod 12 in
  days_from_civil ym (mn + 1) 1 + date - 1.

Definition TimeClip (t : Z) : option Z :=
  if Z.abs t <=? 8640000000000000 then Some t else None.

Definition Day (t : Z) : Z := t / msPerDay.
Definition TimeWithinDay (t : Z) : Z := t mod msPerDay.
Definition WeekDay (t : Z) : Z := (Day t + 4) mod 7.
Definition YearFromTime (t : Z) : Z := let '(y, _, _) := civil_from_days (Day t) in y.
(** 0-based month, as [getMonth]. *)
Definition MonthFromTime (t : Z) : Z := let '(_, m, _) := civil_from_days (Day t) in m - 1.
Definition DateFromTime (t : Z) : Z := let '(_, _, d) := civil_from_days (Day t) in d.

(** Two-digit years passed to the [Date(y, m, d)] constructor mean 19yy. *)
Definition MakeFullYear (y : Z) : Z :=
  if (0 <=? y) && (y <=? 99) then 1900 + y else y.

(** ** The built-in [Date] object, in a time zone with constant offset [tz]
    (a zone without daylight saving or other offset changes) *)

Module JSDate.
Section WithZone.
Variable tz : Z.

Definition LocalTime (t : Z) : Z := t + tz.
Definition UTC (t : Z) : Z := t - tz.

(** [new Date(year, month, date)]: local midnight; NaN arguments give NaN. *)
Definition newDate3 (year month date : option Z) : option Z :=
  match year, month, date with
  | Some y, Some m, Some d => TimeClip (UTC (MakeDay (MakeFullYear y) m d * msPerDay))
  | _, _, _ => None
  end.

Definition getDay (t : option Z) : option Z :=
  option_map (fun t => WeekDay (LocalTime t)) t.
Definition getDate (t : option Z) : option Z :=
  option_map (fun t => DateFromTime (LocalTime t)) t.
Definition getMonth (t : option Z) : option Z :=
  option_map (fun t => MonthFromTime (LocalTime t)) t.
Definition getFullYear (t : option Z) : option Z :=
  option_map (fun t => YearFromTime (LocalTime t)) t.

(** [d.setDate(dt)]: same year, month and time of day, day-of-month [dt]. *)
Definition setDate (d : option Z) (dt : option Z) : option Z :=
  match d, dt with
  | Some t, Some dt =>
      let lt := LocalTime t in
      TimeClip (UTC (MakeDay (YearFromTime lt) (MonthFromTime lt) dt * msPerDay
                     + TimeWithinDay lt))
  | _, _ => None
  end.

(** [d.setHours(0, 0, 0, 0)] *)
Definition setHours0 (d : option Z) : option Z :=
  match d with
  | Some t => TimeClip (UTC (Day (LocalTime t) * msPerDay))
  | None => None
  end.

(** The (year, month 1..12, day) a [Date] shows in local time. *)
Definition calendarOf (d : option Z) : option (Z * Z * Z) :=
  option_map (fun t => civil_from_days (Day (LocalTime t))) d.

End WithZone.
End JSDate.

(** ** JavaScript values and string built-ins *)

(** The values that reach the date and type helpers: [null]/[undefined],
    integral numbers, strings and [Date] objects (by their time value). *)
Inductive jsval :=
| JNull
| JNum (z : Z)
| JStr (s : string)
| JDate (tv : option Z).

(** [!value] is false *)
Definition truthy (v : jsval) : bool :=
  match v with
  | JNull => false
  | JNum z => negb (z =? 0)
  | JStr s => negb (String.eqb s "")
  | JDate _ => true
  end.

Module JSString.

(** WhiteSpace and LineTerminator code units below 256. *)
Definition is_ws (c : ascii) : bool :=
  let n := nat_of_ascii c in
  ((9 <=? n) && (n <=? 13))%nat || (n =? 32)%nat || (n =? 160)%nat.

Fixpoint trim_start (s : string) : string :=
  match s with
  | EmptyString => EmptyString
  | String c s' => if is_ws c then trim_start s' else s
  end.

Fixpoint rev_str (s : string) : string :=
  match s with
  | EmptyString => EmptyString
  | String c s' => rev_str s' ++ String c EmptyString
  end.

Definition trim (s : string) : string := rev_str (trim_start (rev_str (trim_start s))).

Definition lower_char (c : ascii) : ascii :=
  let n := nat_of_ascii c in
  if ((65 <=? n) && (n <=? 90))%nat then ascii_of_nat (n + 32) else c.

(** [toLowerCase] on the ASCII letters; other code units are kept. *)
Fixpoint toLowerCase (s : string) : string :=
  match s with
  | EmptyString => EmptyString
  | String c s' => String (lower_char c) (toLowerCase s')
  end.

Definition is_digit (c : ascii) : bool :=
  let n := nat_of_ascii c in ((48 <=? n) && (n <=? 57))%nat.

Definition digit_val (c : ascii) : Z := Z.of_nat (nat_of_ascii c) - 48.

Fixpoint all_digits_aux (s : string) : bool :=
  match s with
  | EmptyString => true
  | String c s' => is_digit c && all_digits_aux s'
  end.

(** [/^\d+$/.test(s)] *)
Definition all_digits (s : string) : bool :=
  negb (String.eqb s "") && all_digits_aux s.

Fixpoint digits_acc (acc : Z) (s : string) : Z :=
  match s with
  | EmptyString => acc
  | String c s' => digits_acc (acc * 10 + digit_val c) s'
  end.

(** [Number(s)] for a string of decimal digits. *)
Definition digits_value (s : string) : Z := digits_acc 0 s.

(** Anchored regular expressions built from [\d] and literal characters. *)
Inductive pat := PD | PC (c : ascii).

Fixpoint matches (p : list pat) (s : string) : bool :=
  match p, s with
  | [], EmptyString => true
  | PD :: p', String c s' => is_digit c && matches p' s'
  | PC a :: p', String c s' => Ascii.eqb a c && matches p' s'
  | _, _ => false
  end.

Definition D4 := [PD; PD; PD; PD].
Definition D2 := [PD; PD].
(** [/^\d{4}-\d{2}-\d{2}$/] *)
Definition iso_pat := D4 ++ [PC "-"%char] ++ D2 ++ [PC "-"%char] ++ D2.
(** [/^\d{2}-\d{2}-\d{4}$/] *)
Definition dash_pat := D2 ++ [PC "-"%char] ++ D2 ++ [PC "-"%char] ++ D4.
(** [/^\d{2}\.\d{2}\.\d{4}$/] *)
Definition dot_pat := D2 ++ [PC "."%char] ++ D2 ++ [PC "."%char] ++ D4.

(** [s.split(sep)] for a one-character separator. *)
Fixpoint split (sep : ascii) (s : string) : list string :=
  match s with
  | EmptyString => [EmptyString]
  | String c s' =>
      if Ascii.eqb c sep then EmptyString :: split sep s'
      else match split sep s' with
           | [] => [String c EmptyString]
           | w :: ws => String c w :: ws
           end
  end.

Fixpoint digit_prefix (s : string) : string :=
  match s with
  | String c s' => if is_digit c then String c (digit_prefix s') else EmptyString
  | EmptyString => EmptyString
  end.

(** [parseInt(s, 10)]; [None] is NaN. *)
Definition parseInt (s : string) : option Z :=
  let s1 := trim_start s in
  let '(sign, s2) :=
    match s1 with
    | String c s' => if Ascii.eqb c "-"%char then (-1, s')
                     else if Ascii.eqb c "+"%char then (1, s') else (1, s1)
    | EmptyString => (1, s1)
    end in
  let ds := digit_prefix s2 in
  if String.eqb ds "" then None else Some (sign * digits_value ds).

(** [String(n)] for an integral number. *)
Definition Z_to_string (z : Z) : string := NilEmpty.string_of_int (Z.to_int z).

Fixpoint includes_prefix (p s : string) : bool :=
  match p, s with
  | EmptyString, _ => true
  | String a p', String c s' => Ascii.eqb a c && includes_prefix p' s'
  | _, _ => false
  end.

(** [s.includes(p)] *)
Fixpoint includes (s p : string) : bool :=
  includes_prefix p s ||
  match s with
  | EmptyString => false
  | String _ s' => includes s' p
  end.

(** [s.slice(-n)]: the last [n] code units (all of [s] when shorter). *)
Definition slice_last (n : nat) (s : string) : string :=
  substring (String.length s - n) n s.

End JSString.

(** ** src/pages/CampervanSchedule.jsx *)

Module Campervan.
Import JSDate JSString.
Section WithEngine.
Variable tz : Z.
(** [new Date(s)] on a string outside the ISO date-time format the
    language fixes: implementation-defined. *)
Variable dateParse : string -> option Z.

Definition DAY_MS : Z := 24 * 60 * 60 * 1000.

(** [new Date(`${s}T00:00:00`)] for [s] matching [/^\d{4}-\d{2}-\d{2}$/]:
    a date-time string without offset is local time; a string whose month
    or day is out of range is not an instance of the format and is left
    to the engine. *)
Definition isoLocalMidnight (s : string) : option Z :=
  let y := digits_value (substring 0 4 s) in
  let m := digits_value (substring 5 2 s) in
  let d := digits_value (substring 8 2 s) in
  if valid_ymd y m d
  then TimeClip (UTC tz (MakeDay y (m - 1) d * msPerDay))
  else dateParse (s ++ "T00:00:00").

(** [new Date(year, month - 1, day)] on the fields of a YYYYMMDD number. *)
Definition compactDate (v : Z) : option Z :=
  let year := v / 10000 in
  let month := (v mod 10000) / 100 in
  let day := v mod 100 in
  newDate3 tz (Some year) (Some (month - 1)) (Some day).

(** [new Date(excelEpoch.getTime() + value * DAY_MS)] *)
Definition serialDate (v : Z) : option Z :=
  match newDate3 tz (Some 1899) (Some 11) (Some 30) with
  | Some excelEpoch => TimeClip (excelEpoch + v * DAY_MS)
  | None => None
  end.

(** The [DD-MM-YYYY] and [DD.MM.YYYY] branches:
    [const [day, month, year] = s.split(sep).map(parseInt)]. *)
Definition dayFirstDate (sep : ascii) (s : string) : option Z :=
  match map parseInt (split sep s) with
  | [day; month; year] => newDate3 tz year (option_map (fun m => m - 1) month) day
  | _ => None
  end.

Definition parseDateValue (value : jsval) : option Z :=
  if negb (truthy value) then None else
  match value with
  | JNull => None
  | JDate tv => tv
  | JNum v =>
      if 100000000000 <? v then TimeClip v
      else if (19000101 <=? v) && (v <=? 21001231) then compactDate v
      else if (30000 <=? v) && (v <=? 80000) then serialDate v
      else TimeClip v
  | JStr raw =>
      let stringValue := trim raw in
      if String.eqb stringValue "" then None
      else if String.eqb (toLowerCase stringValue) "dd/mm/yyyy" then None
      else if all_digits stringValue then
        let timestamp := digits_value stringValue in
        if (19000101 <=? timestamp) && (timestamp <=? 21001231) then compactDate timestamp
        else if (30000 <=? timestamp) && (timestamp <=? 80000) then serialDate timestamp
        else TimeClip timestamp
      else if matches iso_pat stringValue then isoLocalMidnight stringValue
      else if matches dash_pat stringValue then dayFirstDate "-"%char stringValue
      else if matches dot_pat stringValue then dayFirstDate "."%char stringValue
      else
        match map parseInt (split "/"%char stringValue) with
        | [Some first; Some second; Some third] =>
            newDate3 tz (Some third) (Some (second - 1)) (Some first)
        | _ => dateParse stringValue
        end
  end.

(** [Math.round(x / DAY_MS)] for an integral [x]: round half towards
    +infinity (the quotient is computed exactly). *)
Definition roundDays (x : Z) : Z := (x + DAY_MS / 2) / DAY_MS.

(** The result of [parseDuration]: [''] or a number of days. *)
Inductive duration := DEmpty | DDays (n : Z).

Definition parseDuration (startValue endValue : jsval) : duration :=
  if negb (truthy startValue) || negb (truthy endValue) then DEmpty else
  match parseDateValue startValue, parseDateValue endValue with
  | Some start, Some end_ =>
      let diff := roundDays (end_ - start) in
      if 0 <=? diff then DDays diff else DEmpty
  | _, _ => DEmpty
  end.

End WithEngine.
End Campervan.

(** ** src/unnamed/part_000 (dealer overview page) *)

Module Snowy.
Import JSDate JSString.
Section WithEngine.
Variable tz : Z.
Variable dateParse : string -> option Z.
(** [String(d)] of a [Date]: implementation-defined text. *)
Variable dateToString : option Z -> string.

(** [new Date(v)] on an arbitrary value. *)
Definition newDate (v : jsval) : option Z :=
  match v with
  | JNull => TimeClip 0
  | JNum z => TimeClip z
  | JStr s => dateParse s
  | JDate tv => tv
  end.

(** [{ label, min, max }] *)
Record rangeDef := { label : string; min : Z; max : Z }.

Definition yardRangeDefs : list rangeDef :=
  [ {| label := "0–30"; min := 0; max := 30 |};
    {| label := "31–90"; min := 31; max := 90 |};
    {| label := "91–180"; min := 91; max := 180 |};
    {| label := "180+"; min := 181; max := 9999 |} ].

(** [toStr = (v) => String(v ?? "")] *)
Definition toStr (v : jsval) : string :=
  match v with
  | JNull => ""
  | JNum z => Z_to_string z
  | JStr s => s
  | JDate tv => dateToString tv
  end.

(** [daysSinceISO], with [Date.now()] as [now]. *)
Definition daysSinceISO (now : Z) (iso : jsval) : Z :=
  if negb (truthy iso) then 0 else
  match newDate iso with
  | None => 0
  | Some d =>
      let diff := now - d in
      Z.max 0 (diff / (1000 * 60 * 60 * 24))
  end.

Definition startOfWeekMonday (d : option Z) : option Z :=
  let date := d in
  let day := getDay tz date in
  let diff := option_map (fun day => (day + 6) mod 7) day in
  let date := setDate tz date (match getDate tz date, diff with
                               | Some g, Some df => Some (g - df)
                               | _, _ => None end) in
  setHours0 tz date.

Definition addDays (d : option Z) (n : Z) : option Z :=
  setDate tz d (option_map (fun g => g + n) (getDate tz d)).

Definition pad2 (n : Z) : string :=
  let s := Z_to_string n in
  if (String.length s <? 2)%nat then "0" ++ s else s.

(** [fmtWeekLabel]: MM/DD *)
Definition fmtWeekLabel (d : option Z) : string :=
  match getMonth tz d, getDate tz d with
  | Some m, Some dd => pad2 (m + 1) ++ "/" ++ pad2 dd
  | _, _ => "NaN/NaN"
  end.

Definition parseDateValue (raw : jsval) : option Z :=
  if negb (truthy raw) then None else newDate raw.

Definition parseHandoverDate (raw : jsval) : option Z := parseDateValue raw.

Definition normalizeType (value : jsval) : string :=
  let t := trim (toLowerCase (toStr value)) in
  if String.eqb t "" then "Customer"
  else if includes t "stock" then "Stock"
  else if includes t "customer" || includes t "retail" then
    (if String.eqb (slice_last 5 t) "stock" then "Stock" else "Customer")
  else "Customer".

(** [d && d >= s && d < e] *)
Definition inWeek (s e : option Z) (d : option Z) : bool :=
  match d, s, e with
  | Some d, Some s, Some e => (s <=? d) && (d <? e)
  | _, _, _ => false
  end.

(** [List.filter(p).length] *)
Definition countIf {A} (p : A -> bool) (l : list A) : Z := Z.of_nat (length (filter p l)).

(** [for (let i = 9; i >= 0; i -= 1)] *)
Definition weekOffsets : list Z := [9; 8; 7; 6; 5; 4; 3; 2; 1; 0].

Fixpoint sumFrom (j : nat) (l : list Z) : Z :=
  match l with
  | [] => 0
  | x :: l' => match j with
               | O => x + sumFrom O l'
               | S j' => sumFrom j' l'
               end
  end.

(** [{ week, level }] *)
Record trendPoint := { week : string; level : Z }.

Record yardEntry := { receivedAt : jsval; type_ : string; daysInYard : Z }.

(** The week starts of [computeStockTrend], oldest first. *)
Definition trendStarts (now : Z) : list (option Z) :=
  let latestStart := startOfWeekMonday (Some now) in
  map (fun i => addDays latestStart (-7 * i)) weekOffsets.

(** [receivedByWeek] / [handoversByWeek]: the entries whose date lies in
    [[s, addDays(s, 7))] for each week start [s]. *)
Definition countByWeek (entries : list jsval) (starts : list (option Z)) : list Z :=
  let nextStarts := map (fun s => addDays s 7) starts in
  map (fun '(s, e) => countIf (fun x => inWeek s e (parseHandoverDate x)) entries)
      (combine starts nextStarts).

Definition netByWeekOf (receivedByWeek handoversByWeek : list Z) : list Z :=
  map (fun '(r, h) => r - h) (combine receivedByWeek handoversByWeek).

(** [computeStockTrend(yardEntries, handoverEntries, currentTotal)], with the
    receiving and handover dates of the entries, and [new Date()] as [now]. *)
Definition computeStockTrend (yardEntries : list jsval) (handoverEntries : list jsval)
    (currentTotal : Z) (now : Z) : list trendPoint :=
  let starts := trendStarts now in
  let receivedByWeek := countByWeek yardEntries starts in
  let handoversByWeek := countByWeek handoverEntries starts in
  let netByWeek := netByWeekOf receivedByWeek handoversByWeek in
  let levels :=
    map (fun i => Z.max 0 (currentTotal - sumFrom (S i) netByWeek)) (seq 0 (length starts)) in
  map (fun '(s, l) => {| week := fmtWeekLabel s; level := l |}) (combine starts levels).

(** A yard record: [receivedAt], [type] and [Type]. *)
Record yardRec := { rec_receivedAt : jsval; rec_type : jsval; rec_Type : jsval }.

Definition mkYardEntry (now : Z) (r : yardRec) : yardEntry :=
  {| receivedAt := rec_receivedAt r;
     type_ := normalizeType (match rec_type r with JNull => rec_Type r | v => v end);
     daysInYard := daysSinceISO now (rec_receivedAt r) |}.

Definition yardRanges (yardEntries : list yardEntry) : list (string * Z) :=
  map (fun r => (label r, countIf (fun x => (min r <=? daysInYard x) && (daysInYard x <=? max r))
                                  yardEntries))
      yardRangeDefs.

(** [Math.round] on a finite double: the nearest integer, halves upwards. *)
Definition jsRound (x : float) : Z :=
  match Prim2SF x with
  | S754_finite s m e =>
      let v := if s then Z.neg m else Z.pos m in
      if 0 <=? e then v * 2 ^ e
      else (2 * v + 2 ^ (- e)) / 2 ^ (1 - e)
  | _ => 0
  end.

(** A count as a double. *)
Definition toDouble (n : Z) : float := of_uint63 (Uint63.of_Z n).

(** [Math.round((part / total) * 100)] in double precision. *)
Definition pct (part total : Z) : Z :=
  jsRound ((toDouble part / toDouble total) * toDouble 100)%float.

Record yardInventory := { stock : Z; customer : Z; total : Z; stockPct : Z; customerPct : Z }.

Definition yardInventoryOf (yardEntries : list yardEntry) : yardInventory :=
  let stock := countIf (fun x => String.eqb (type_ x) "Stock") yardEntries in
  let customer := countIf (fun x => String.eqb (type_ x) "Customer") yardEntries in
  let total := Z.of_nat (length yardEntries) in
  {| stock := stock; customer := customer; total := total;
     stockPct := if total =? 0 then 0 else pct stock total;
     customerPct := if total =? 0 then 0 else pct customer total |}.

End WithEngine.
End Snowy.

(** ** Written forms of a calendar day, and concrete engines

    The four input shapes of one calendar day (ISO [YYYY-MM-DD], day-first
    [DD/MM/YYYY], the number [YYYYMMDD] and the spreadsheet serial, days
    since 1899-12-30), and concrete instances of the engine parameters for
    evaluating the functions above. *)

Module Inputs.
Import JSString.

Definition digit_char (k : Z) : ascii := ascii_of_nat (Z.to_nat (48 + k)).

Definition pad2 (n : Z) : string :=
  String (digit_char (n / 10)) (String (digit_char (n mod 10)) EmptyString).

Definition pad4 (n : Z) : string :=
  String (digit_char (n / 1000)) (String (digit_char (n / 100 mod 10))
    (String (digit_char (n / 10 mod 10)) (String (digit_char (n mod 10)) EmptyString))).

Definition isoString (y m d : Z) : string := pad4 y ++ "-" ++ pad2 m ++ "-" ++ pad2 d.
Definition slashString (y m d : Z) : string := pad2 d ++ "/" ++ pad2 m ++ "/" ++ pad4 y.
Definition compactNumber (y m d : Z) : Z := y * 10000 + m * 100 + d.

(** UTC+10 (Australian Eastern Standard Time), in milliseconds. *)
Definition aest : Z := 36000000.

(** An engine whose free-form parser accepts nothing. *)
Definition noParse (s : string) : option Z := None.

(** An engine that accepts the date-only ISO form [YYYY-MM-DD], read as UTC
    midnight as the language specification fixes it, and nothing else. *)
Definition esDateOnly (s : string) : option Z :=
  if matches iso_pat s then
    let y := digits_value (substring 0 4 s) in
    let m := digits_value (substring 5 2 s) in
    let d := digits_value (substring 8 2 s) in
    if valid_ymd y m d then Some (days_from_civil y m d * msPerDay) else None
  else None.

(** [d !== null] for a parse result. *)
Definition isSome {A} (o : option A) : bool :=
  match o with Some _ => true | None => false end.

(** A [String(date)] that renders every date the same way. *)
Definition blankToString (t : option Z) : string := "".

(** Yard entries of either type, with no receiving date. *)
Definition stockEntry : Snowy.yardEntry :=
  {| Snowy.receivedAt := JNull; Snowy.type_ := "Stock"; Snowy.daysInYard := 0 |}.
Definition customerEntry : Snowy.yardEntry :=
  {| Snowy.receivedAt := JNull; Snowy.type_ := "Customer"; Snowy.daysInYard := 0 |}.

End Inputs.

(** ** String built-ins used by the table and overview pages *)

Module JSText.
Local Open Scope string_scope.
Import JSString.

Definition dquote : ascii := ascii_of_nat 34.
Definition newline : ascii := ascii_of_nat 10.

(** [s.replace(/c/g, r)] for a one-character pattern. *)
Fixpoint replaceChar (c : ascii) (r : string) (s : string) : string :=
  match s with
  | EmptyString => EmptyString
  | String x s' => if Ascii.eqb x c then r ++ replaceChar c r s' else String x (replaceChar c r s')
  end.

Definition upper_char (c : ascii) : ascii :=
  let n := nat_of_ascii c in
  if ((97 <=? n) && (n <=? 122))%nat then ascii_of_nat (n - 32) else c.

(** [toUpperCase] on the ASCII letters; other code units are kept. *)
Fixpoint toUpperCase (s : string) : string :=
  match s with
  | EmptyString => EmptyString
  | String c s' => String (upper_char c) (toUpperCase s')
  end.

(** The class [[a-z0-9]]. *)
Definition is_lower_alnum (c : ascii) : bool :=
  let n := nat_of_ascii c in
  ((97 <=? n) && (n <=? 122))%nat || ((48 <=? n) && (n <=? 57))%nat.

(** [s.replace(/[^a-z0-9]/g, '')] *)
Fixpoint keepLowerAlnum (s : string) : string :=
  match s with
  | EmptyString => EmptyString
  | String c s' => if is_lower_alnum c then String c (keepLowerAlnum s') else keepLowerAlnum s'
  end.

(** [s.replace(/[^a-z0-9]+/g, '-')]: every maximal run of other characters
    becomes one dash; [inRun] is set inside such a run. *)
Fixpoint dashRuns (inRun : bool) (s : string) : string :=
  match s with
  | EmptyString => EmptyString
  | String c s' =>
      if is_lower_alnum c then String c (dashRuns false s')
      else if inRun then dashRuns true s'
      else String "-"%char (dashRuns true s')
  end.

Fixpoint dropDashes (s : string) : string :=
  match s with
  | String c s' => if Ascii.eqb c "-"%char then dropDashes s' else s
  | EmptyString => EmptyString
  end.

(** Drops the longest suffix made of dashes. *)
Fixpoint dropTrailingDashes (s : string) : string :=
  match s with
  | EmptyString => EmptyString
  | String c s' =>
      let r := dropTrailingDashes s' in
      if Ascii.eqb c "-"%char && String.eqb r "" then EmptyString else String c r
  end.

(** [s.replace(/^-+|-+$/g, '')] *)
Definition stripDashes (s : string) : string := dropTrailingDashes (dropDashes s).

(** [String(n).padStart(2, '0')] *)
Definition padStart2 (s : string) : string :=
  match String.length s with
  | O => "00"
  | 1%nat => "0" ++ s
  | _ => s
  end.

(** [a || b] and [a ?? b] on values. *)
Definition jsOr (a b : jsval) : jsval := if truthy a then a else b.
Definition nullish (a b : jsval) : jsval := match a with JNull => b | _ => a end.

End JSText.

(** ** src/pages/CampervanSchedule.jsx: table helpers (second component)

    A table row is a JavaScript object; it is modelled as the function from
    property names to values, [JNull] for a missing property. *)

Module CampervanTable.
Local Open Scope string_scope.
Import JSDate JSString JSText.
Section WithEngine.
Variable tz : Z.
Variable dateParse : string -> option Z.
(** [String(d)] of a [Date]: implementation-defined text. *)
Variable dateToString : option Z -> string.

Definition parseDateValue := Campervan.parseDateValue tz dateParse.
Definition DAY_MS := Campervan.DAY_MS.

(** [formatDate]: [DD/MM/YYYY] of the local calendar date, [''] for no date. *)
Definition formatDate (date : option Z) : string :=
  match date, getFullYear tz date, getMonth tz date, getDate tz date with
  | Some _, Some year, Some month, Some day =>
      let month := padStart2 (Z_to_string (month + 1)) in
      let day := padStart2 (Z_to_string day) in
      day ++ "/" ++ month ++ "/" ++ Z_to_string year
  | _, _, _, _ => ""
  end.

(** [addDays(value, days)] *)
Definition addDays (value : jsval) (days : Z) : string :=
  match parseDateValue value with
  | None => ""
  | Some date => formatDate (TimeClip (date + days * DAY_MS))
  end.

(** [addMonths(date, months)] *)
Definition addMonths (date : option Z) (months : Z) : option Z :=
  match getFullYear tz date, getMonth tz date with
  | Some y, Some m => newDate3 tz (Some y) (Some (m + months)) (Some 1)
  | _, _ => None
  end.

(** [normalizeDateString(value)] *)
Definition normalizeDateString (value : jsval) : string :=
  match parseDateValue value with
  | Some date => formatDate (Some date)
  | None => ""
  end.

(** The loop of [parseCsvLine]: the remaining characters, the fields
    pushed so far, [current] and [inQuotes]. *)
Fixpoint csvLoop (line : string) (result : list string) (current : string) (inQuotes : bool)
    : list string :=
  match line with
  | EmptyString => app result [trim current]
  | String char rest =>
      if Ascii.eqb char dquote then
        match rest with
        | String next rest' =>
            if inQuotes && Ascii.eqb next dquote
            then csvLoop rest' result (current ++ String dquote EmptyString) inQuotes
            else csvLoop rest result current (negb inQuotes)
        | EmptyString => csvLoop rest result current (negb inQuotes)
        end
      else if Ascii.eqb char ","%char && negb inQuotes then
        csvLoop rest (app result [trim current]) EmptyString inQuotes
      else csvLoop rest result (current ++ String char EmptyString) inQuotes
  end.

Definition parseCsvLine (line : string) : list string := csvLoop line [] EmptyString false.

(** [String(value)] *)
Definition jsString (value : jsval) : string :=
  match value with
  | JNull => "undefined"
  | JNum z => Z_to_string z
  | JStr s => s
  | JDate tv => dateToString tv
  end.

(** [escapeValue] of [handleTemplateDownload] *)
Definition escapeValue (value : jsval) : string :=
  match value with
  | JNull => ""
  | _ =>
      let stringValue := jsString value in
      if includes stringValue "," || includes stringValue (String dquote EmptyString)
         || includes stringValue (String newline EmptyString)
      then String dquote (replaceChar dquote (String dquote (String dquote EmptyString)) stringValue
                          ++ String dquote EmptyString)
      else stringValue
  end.

(** [row.map(escapeValue).join(',')] *)
Definition csvRow (row : list jsval) : string := String.concat "," (map escapeValue row).

(** [escapeXml] of [handleExportExcel] *)
Definition escapeXml (value : jsval) : string :=
  let s := match value with JNull => "" | _ => jsString value end in
  replaceChar "'"%char "&apos;" (replaceChar dquote "&quot;" (replaceChar ">"%char "&gt;"
    (replaceChar "<"%char "&lt;" (replaceChar "&"%char "&amp;" s)))).

(** [normalizeHeader] *)
Definition normalizeHeader (value : string) : string := keepLowerAlnum (toLowerCase value).

Record column := { ckey : string; clabel : string; ctype : string }.

Definition columns : list column :=
  [ {| ckey := "forecastProductionDate"; clabel := "Forecast Production Date"; ctype := "date" |};
    {| ckey := "regentProduction"; clabel := "Regent Production"; ctype := "text" |};
    {| ckey := "chassisNumber"; clabel := "Chassis Number"; ctype := "text" |};
    {| ckey := "vinNumber"; clabel := "Vin Number"; ctype := "text" |};
    {| ckey := "vehicle"; clabel := "Vehicle"; ctype := "text" |};
    {| ckey := "model"; clabel := "Model"; ctype := "text" |};
    {| ckey := "dealer"; clabel := "Dealer"; ctype := "text" |};
    {| ckey := "customer"; clabel := "Customer"; ctype := "text" |};
    {| ckey := "latestVehicleOrder";
       clabel := "Lastest Vehicle Order (Forecast Production Date - 180)"; ctype := "date" |};
    {| ckey := "vehicleOrderDate"; clabel := "Vehicle Order Date"; ctype := "date" |};
    {| ckey := "longtreePartsOrderDate"; clabel := "Longtree Parts Order Date"; ctype := "date" |};
    {| ckey := "signedOrderReceived"; clabel := "Signed Order Received"; ctype := "date" |} ].

Definition dateKeys : list string :=
  map ckey (filter (fun c => String.eqb (ctype c) "date") columns).

(** The own properties of [headerMap]'s [mapping] object. *)
Definition setKey (m : string -> option string) (k v : string) : string -> option string :=
  fun k' => if String.eqb k' k then Some v else m k'.

Definition headerMap : string -> option string :=
  fold_left (fun mapping c =>
               setKey (setKey mapping (normalizeHeader (clabel c)) (ckey c))
                      (normalizeHeader (ckey c)) (ckey c))
            columns (fun _ => None).

(** A row object. *)
Definition row := string -> jsval.

(** The value [parseDuration] returns: [''] or a number. *)
Definition durationValue (d : Campervan.duration) : jsval :=
  match d with
  | Campervan.DEmpty => JStr ""
  | Campervan.DDays n => JNum n
  end.

(** [recalcRow(row)]: [{...row, ...normalizedDates, latest..., duration}] *)
Definition recalcRow (r : row) : row :=
  let normalizedDates (k : string) : option jsval :=
    if existsb (String.eqb k) dateKeys then Some (JStr (normalizeDateString (r k))) else None in
  let forecastDate := JStr (normalizeDateString (r "forecastProductionDate")) in
  fun k =>
    if String.eqb k "latestVehicleOrder" then JStr (addDays forecastDate (-180))
    else if String.eqb k "latestEurPartsOrder" then JStr (addDays forecastDate (-60))
    else if String.eqb k "latestLongtreePartsOrder" then JStr (addDays forecastDate (-90))
    else if String.eqb k "duration" then
      durationValue (Campervan.parseDuration tz dateParse (r "productionPlannedStartDate")
                                                        (r "productionPlannedEndDate"))
    else match normalizedDates k with Some v => v | None => r k end.

(** [scheduleStartDate], [scheduleEndDate] *)
Definition scheduleStartDate : option Z := newDate3 tz (Some 2025) (Some 6) (Some 1).
Definition scheduleEndDate : option Z := newDate3 tz (Some 2026) (Some 11) (Some 1).

Definition scheduleMonthSpan : option Z :=
  match getFullYear tz scheduleEndDate, getFullYear tz scheduleStartDate,
        getMonth tz scheduleEndDate, getMonth tz scheduleStartDate with
  | Some ye, Some ys, Some me, Some ms => Some ((ye - ys) * 12 + (me - ms))
  | _, _, _, _ => None
  end.

Definition scheduleStepCount : option Z := option_map (fun s => s * 2) scheduleMonthSpan.

(** A [date] argument: [null], or a [Date] object, whose time value is
    [None] for an Invalid Date (an object, so truthy). *)
Inductive dateArg := DNull | DDate (t : option Z).

(** [scheduleIndexFromDate(date)]; [None] as the result is NaN. *)
Definition scheduleIndexFromDate (date : dateArg) : option Z :=
  match date with
  | DNull => Some 0
  | DDate t =>
      match getFullYear tz t, getFullYear tz scheduleStartDate,
            getMonth tz t, getMonth tz scheduleStartDate, getDate tz t, scheduleStepCount with
      | Some y, Some ys, Some m, Some ms, Some d, Some steps =>
          let diff := (y - ys) * 12 + (m - ms) in
          let half := if (15 <=? d)%Z then 1 else 0 in
          Some (Z.min (Z.max (diff * 2 + half) 0) steps)
      | _, _, _, _, _, _ => None
      end
  end.

(** [scheduleDateFromIndex(index)].  The indices the code passes are
    multiples of 0.5 ([Math.round(rawIndex * 2) / 2] from a drag, whole
    numbers from the point options), so [index2] is twice the index, and
    [None] is NaN.  On a multiple of 0.5, [clamped % 2 === 1] holds exactly
    when [clamped] is whole and odd.  A NaN index reaches
    [addMonths(start, NaN)] and [new Date(NaN, NaN, d)], an Invalid Date. *)
Definition scheduleDateFromIndex (index2 : option Z) : option Z :=
  match scheduleStepCount, index2 with
  | Some steps, Some h =>
      let clamped2 := Z.min (Z.max h 0) (steps * 2) in
      let wholeMonths := clamped2 / 4 in
      let isHalf := Z.even clamped2 && (clamped2 / 2 mod 2 =? 1)%Z in
      let baseDate := addMonths scheduleStartDate wholeMonths in
      newDate3 tz (getFullYear tz baseDate) (getMonth tz baseDate) (Some (if isHalf then 15 else 1))
  | _, _ => None
  end.

(** [String(x || '')] *)
Definition strOr (v : jsval) : string := if truthy v then jsString v else "".

(** [resolveOrderCategory(row)] under [orderBreakdownType]. *)
Definition resolveOrderCategory (orderBreakdownType : string) (r : row) : string :=
  if String.eqb orderBreakdownType "vehicle" then
    let vehicleText := toLowerCase (trim (strOr (r "vehicle"))) in
    if includes vehicleText "ldv" then "LDV"
    else if includes vehicleText "ford" then "Ford"
    else "Other"
  else
    let modelText := toUpperCase (trim (strOr (r "model"))) in
    if includes modelText "SRV19.1" then "SRV19.1"
    else if includes modelText "SRV22.1" then "SRV22.1"
    else if includes modelText "SRV22.2" then "SRV22.2"
    else if includes modelText "SRV22.3" then "SRV22.3"
    else "Other".

(** [filteredOrderRows] under [orderStockFilter]: [{ row, dateValue }]. *)
Definition filteredOrderRows (orderStockFilter : string) (rows : list row) : list (row * Z) :=
  fold_left (fun acc r =>
    let chassisText := trim (strOr (r "chassisNumber")) in
    if String.eqb chassisText "" then acc else
    match parseDateValue (r "signedOrderReceived") with
    | None => acc
    | Some dateValue =>
        let customerText := toLowerCase (trim (strOr (r "customer"))) in
        let isStock := includes customerText "stock" in
        if String.eqb orderStockFilter "stock" && negb isStock then acc
        else if String.eqb orderStockFilter "non-stock" && isStock then acc
        else app acc [(r, dateValue)]
    end) rows [].

Definition orderCategories (orderBreakdownType : string) : list string :=
  if String.eqb orderBreakdownType "vehicle" then ["LDV"; "Ford"]
  else ["SRV19.1"; "SRV22.1"; "SRV22.2"; "SRV22.3"].

(** [summary[category] += 1] when [summary[category] !== undefined]. *)
Definition bump (category : string) (summary : list (string * Z)) : list (string * Z) :=
  map (fun '(k, v) => if String.eqb k category then (k, v + 1) else (k, v)) summary.

Record breakdownSummary := {
  data : list (string * Z); total : Z; missingVehicleCount : Z;
  missingFord : Z; missingLdv : Z; missingOther : Z }.

(** [orderBreakdownSummary] *)
Definition orderBreakdownSummary (orderBreakdownType : string) (filtered : list (row * Z))
    : breakdownSummary :=
  let init := {| data := map (fun c => (c, 0)) (orderCategories orderBreakdownType);
                 total := 0; missingVehicleCount := 0;
                 missingFord := 0; missingLdv := 0; missingOther := 0 |} in
  fold_left (fun acc '(r, _) =>
    let category := resolveOrderCategory orderBreakdownType r in
    let isVehicleMissing :=
      negb (String.eqb (trim (strOr (r "chassisNumber"))) "")
      && String.eqb (trim (strOr (r "vehicleOrderDate"))) "" in
    let vehicleText := toLowerCase (trim (strOr (r "vehicle"))) in
    {| data := bump category (data acc);
       total := total acc + 1;
       missingVehicleCount := missingVehicleCount acc + (if isVehicleMissing then 1 else 0);
       missingLdv := missingLdv acc +
         (if isVehicleMissing && includes vehicleText "ldv" then 1 else 0);
       missingFord := missingFord acc +
         (if isVehicleMissing && negb (includes vehicleText "ldv") && includes vehicleText "ford"
          then 1 else 0);
       missingOther := missingOther acc +
         (if isVehicleMissing && negb (includes vehicleText "ldv") && negb (includes vehicleText "ford")
          then 1 else 0) |}) filtered init.

(** [emptyRow(rowNumber)]; a key it does not set reads as [undefined]. *)
Definition emptyRowKeys : list string :=
  ["forecastProductionDate"; "regentProduction"; "chassisNumber"; "vinNumber"; "vehicle"; "model";
   "dealer"; "customer"; "latestVehicleOrder"; "vehicleOrderDate"; "latestEurPartsOrder";
   "eurPartsOrderDate"; "eurPartsEta"; "latestLongtreePartsOrder"; "longtreePartsOrderDate";
   "longtreePartsEta"; "signedOrderReceived"; "vehiclePlannedEta"; "productionPlannedStartDate";
   "productionPlannedEndDate"; "duration"].

Definition emptyRow (rowNumber : Z) : row :=
  fun k => if String.eqb k "rowNumber" then JNum rowNumber
           else if existsb (String.eqb k) emptyRowKeys then JStr "" else JNull.

(** [row[key] = value] *)
Definition setField (r : row) (key : string) (value : jsval) : row :=
  fun k => if String.eqb k key then value else r k.

(** [values.forEach((value, colIndex) => { const key = headerKeys[colIndex];
    if (key) row[key] = value; })]; a missing [headerKeys] entry is [undefined]. *)
Fixpoint assignValues (r : row) (headerKeys : list (option string)) (values : list string) : row :=
  match values, headerKeys with
  | value :: values', Some key :: keys' => assignValues (setField r key (JStr value)) keys' values'
  | _ :: values', None :: keys' => assignValues r keys' values'
  | _, [] => r
  | [], _ => r
  end.

(** One piece of [text.split(/\r?\n/)]: the [\r] before a [\n] belongs to the separator. *)
Fixpoint dropTrailingCR (s : string) : string :=
  match s with
  | EmptyString => EmptyString
  | String c EmptyString => if Ascii.eqb c (ascii_of_nat 13) then EmptyString else s
  | String c s' => String c (dropTrailingCR s')
  end.

Definition splitLines (text : string) : list string := map dropTrailingCR (split newline text).

(** [headerMap[normalizeHeader(header)] || null] *)
Definition headerKey (header : string) : option string :=
  match headerMap (normalizeHeader header) with
  | Some key => if String.eqb key "" then None else Some key
  | None => None
  end.

(** [lines.slice(1).map((line, index) => ...)] *)
Fixpoint uploadRows (index : Z) (headerKeys : list (option string)) (lines : list string) : list row :=
  match lines with
  | [] => []
  | line :: lines' =>
      recalcRow (assignValues (emptyRow (index + 1)) headerKeys (parseCsvLine line))
        :: uploadRows (index + 1) headerKeys lines'
  end.

(** The [reader.onload] handler of [handleCsvUpload] on the file text: [None]
    when it returns before [setRows], else the rows it sets and saves. *)
Definition csvUploadRows (text : string) : option (list row) :=
  let lines := filter (fun line => negb (String.eqb (trim line) "")) (splitLines text) in
  match lines with
  | [] => None
  | headerLine :: rest =>
      let headerKeys := map headerKey (parseCsvLine headerLine) in
      let nextRows := uploadRows 0 headerKeys rest in
      Some (match nextRows with [] => [emptyRow 1] | _ => nextRows end)
  end.

End WithEngine.
End CampervanTable.

(** ** src/pages/CampervanSchedule.jsx: the first component's date helpers *)

Module CampervanFirst.
Local Open Scope string_scope.
Import JSDate JSString JSText.
Section WithEngine.
Variable tz : Z.
Variable dateParse : string -> option Z.

(** [formatDate]: [YYYY-MM-DD] of the local calendar date. *)
Definition formatDate (date : option Z) : string :=
  match date, getFullYear tz date, getMonth tz date, getDate tz date with
  | Some _, Some year, Some month, Some day =>
      Z_to_string year ++ "-" ++ padStart2 (Z_to_string (month + 1)) ++ "-" ++ padStart2 (Z_to_string day)
  | _, _, _, _ => ""
  end.

(** [addDays(value, days)]: [new Date(value)] on the cell value. *)
Definition addDays (value : jsval) (days : Z) : string :=
  if negb (truthy value) then "" else
  match Snowy.newDate dateParse value with
  | None => ""
  | Some date => formatDate (TimeClip (date + days * Campervan.DAY_MS))
  end.

End WithEngine.
End CampervanFirst.

(** ** src/unnamed/part_000: dealer slugs, waiting counts and dealer lists *)

Module SnowyPage.
Local Open Scope string_scope.
Import JSDate JSString JSText.
Section WithEngine.
Variable dateParse : string -> option Z.
Variable dateToString : option Z -> string.

(** [normalizeDealerSlug(name)] *)
Definition normalizeDealerSlug (name : jsval) : string :=
  stripDashes (dashRuns false (replaceChar "&"%char "and" (toLowerCase (Snowy.toStr dateToString name)))).

(** [parsePgiDate(row)] *)
Definition parsePgiDate (r : string -> jsval) : option Z :=
  Snowy.parseDateValue dateParse
    (nullish (r "pgiAt") (nullish (r "pgiDate") (nullish (r "issuedAt") (nullish (r "createdAt") JNull)))).

(** [isWithinDays(date, days)], with [Date.now()] as [now]. *)
Definition isWithinDays (now : Z) (date : option Z) (days : Z) : bool :=
  match date with
  | None => false
  | Some t => (now - days * 24 * 60 * 60 * 1000 <=? t)%Z
  end.

(** [new Set(entries.map((x) => x.chassis)).has(ch)] *)
Definition memb (ch : string) (set : list string) : bool := existsb (String.eqb ch) set.

(** The chassis of a dealer's yard entries, from the keys of its yard
    object, and of its handover entries. *)
Definition yardChassis (yardKeys : list string) : list string :=
  map toUpperCase (filter (fun k => negb (String.eqb k "dealer-chassis")) yardKeys).
Definition handoverChassis (handoverKeys : list string) : list string := map toUpperCase handoverKeys.

(** [waitingCount] of the dealer with slug [normalizedSlug]. *)
Definition waitingCount (now : Z) (normalizedSlug : string) (yardChassisSet handoverChassisSet : list string)
    (pgiList : list (string -> jsval)) : Z :=
  let pgiRangeDays := 180 in
  Snowy.countIf (fun r =>
    let targetSlug := normalizeDealerSlug (jsOr (r "dealer") (jsOr (r "Dealer") (JStr ""))) in
    let ch := trim (toUpperCase (Snowy.toStr dateToString
                (nullish (r "chassis") (nullish (r "Chassis") (r "CHASSIS"))))) in
    if negb (String.eqb targetSlug normalizedSlug) || String.eqb ch "" then false
    else if negb (isWithinDays now (parsePgiDate r) pgiRangeDays) then false
    else negb (memb ch yardChassisSet) && negb (memb ch handoverChassisSet)) pgiList.

Record dealerSnapshot := {
  slug : string; name : string; snapWaitingCount : Z;
  snapStockTrend : list Snowy.trendPoint; snapYardRanges : list (string * Z);
  snapYardInventory : Snowy.yardInventory }.

(** The final [.filter] of [dealerSnapshots]. *)
Definition dropPseudoDealers (snaps : list dealerSnapshot) : list dealerSnapshot :=
  filter (fun snap => negb (existsb (String.eqb (slug snap)) ["alldealers"; "selfowned"])) snaps.

(** [visibleSnapshots] for the search box text [searchQuery]. *)
Definition visibleSnapshots (searchQuery : string) (dealerSnapshots : list dealerSnapshot)
    : list dealerSnapshot :=
  let query := toLowerCase (trim searchQuery) in
  if String.eqb query "" then dealerSnapshots
  else filter (fun dealer => includes (toLowerCase (name dealer)) query) dealerSnapshots.

Definition selfOwnedSlugs : list string :=
  map (fun n => normalizeDealerSlug (JStr n)) ["Frankston"; "Geelong"; "Launceston"; "ST James"; "Traralgon"].

Definition selfOwnedDealers (visible : list dealerSnapshot) : list dealerSnapshot :=
  filter (fun dealer => memb (slug dealer) selfOwnedSlugs) visible.

Definition otherDealers (visible : list dealerSnapshot) : list dealerSnapshot :=
  filter (fun dealer => negb (memb (slug dealer) selfOwnedSlugs)) visible.

End WithEngine.
End SnowyPage.

(** ** Shapes of the strings the helpers produce *)

Module Shapes.
Local Open Scope string_scope.
Import JSText.

(** [okAfter prevDash s]: [s] consists of [[a-z0-9]] and [-] with no two
    dashes in a row; [prevDash] says a dash comes just before [s]. *)
Fixpoint okAfter (prevDash : bool) (s : string) : bool :=
  match s with
  | EmptyString => true
  | String c s' =>
      if is_lower_alnum c then okAfter false s'
      else if Ascii.eqb c "-"%char then negb prevDash && okAfter true s'
      else false
  end.

(** As [okAfter], and [s] does not end with a dash either. *)
Fixpoint slugAfter (prevDash : bool) (s : string) : bool :=
  match s with
  | EmptyString => negb prevDash
  | String c s' =>
      if is_lower_alnum c then slugAfter false s'
      else if Ascii.eqb c "-"%char then negb prevDash && slugAfter true s'
      else false
  end.

(** [s] is empty or matches [/^[a-z0-9]+(-[a-z0-9]+)*$/]. *)
Definition isSlug (s : string) : bool := String.eqb s "" || slugAfter true s.

(** Reads the five entities [escapeXml] writes back as characters. *)
Fixpoint unescapeXml (s : string) : string :=
  match s with
  | String "&" (String "a" (String "m" (String "p" (String ";" r)))) => String "&" (unescapeXml r)
  | String "&" (String "l" (String "t" (String ";" r))) => String "<" (unescapeXml r)
  | String "&" (String "g" (String "t" (String ";" r))) => String ">" (unescapeXml r)
  | String "&" (String "q" (String "u" (String "o" (String "t" (String ";" r))))) =>
      String dquote (unescapeXml r)
  | String "&" (String "a" (String "p" (String "o" (String "s" (String ";" r))))) =>
      String "'" (unescapeXml r)
  | String c r => String c (unescapeXml r)
  | EmptyString => EmptyString
  end.

End Shapes.

(** * Calendar lemmas *)

Lemma forall_Z_spec (f : Z -> bool) (n : nat) : forall lo,
  forall_Z f lo n = true -> forall z, lo <= z < lo + Z.of_nat n -> f z = true.
Proof.
  induction n as [|n IH]; intros lo H z Hz; simpl in *.
  - lia.
  - apply andb_true_iff in H as [H1 H2].
    destruct (Z.eq_dec z lo) as [->|Hne]; [exact H1|].
    apply (IH (lo + 1)); [exact H2|lia].
Qed.

Lemma days_from_civil_shift (y m d k : Z) :
  days_from_civil (y + k * 400) m d = days_from_civil y m d + k * 146097.
Proof.
  unfold days_from_civil.
  set (y' := if m <=? 2 then y - 1 else y).
  replace (if m <=? 2 then y + k * 400 - 1 else y + k * 400) with (y' + k * 400)
    by (unfold y'; destruct (m <=? 2); ring).
  rewrite Z.div_add by lia.
  replace (y' + k * 400 - (y' / 400 + k) * 400) with (y' - y' / 400 * 400) by ring.
  ring.
Qed.

Lemma civil_from_days_shift (z k : Z) :
  civil_from_days (z + k * 146097) =
  (let '(y, m, d) := civil_from_days z in (y + k * 400, m, d)).
Proof.
  unfold civil_from_days.
  replace (z + k * 146097 + 719468) with ((z + 719468) + k * 146097) by ring.
  rewrite Z.div_add by lia.
  set (A := z + 719468).
  replace (A + k * 146097 - (A / 146097 + k) * 146097) with (A - A / 146097 * 146097) by ring.
  set (doe := A - A / 146097 * 146097).
  f_equal. f_equal. ring.
Qed.

Lemma days_from_civil_day (y m d : Z) :
  days_from_civil y m d = days_from_civil y m 1 + d - 1.
Proof. unfold days_from_civil. lia. Qed.

Ltac bool_facts H :=
  repeat match type of H with
         | (_ && _)%bool = true => let H' := fresh H in apply andb_true_iff in H as [H H']
         | _ => idtac
         end.

Ltac to_Z_props :=
  repeat match goal with
         | H : (_ && _)%bool = true |- _ => apply andb_true_iff in H as [? ?]
         | H : (_ || _)%bool = true |- _ => apply orb_true_iff in H
         | H : (_ =? _) = true |- _ => apply Z.eqb_eq in H
         | H : (_ <=? _) = true |- _ => apply Z.leb_le in H
         | H : (_ <? _) = true |- _ => apply Z.ltb_lt in H
         | H : _ \/ _ |- _ => destruct H
         end.

Lemma div_diff_le a b k : 0 <= a <= b -> 0 < k -> b / k - a / k <= b - a.
Proof.
  intros. pose proof (Z.div_mod a k ltac:(lia)). pose proof (Z.div_mod b k ltac:(lia)).
  pose proof (Z.mod_pos_bound a k ltac:(lia)). pose proof (Z.mod_pos_bound b k ltac:(lia)).
  pose proof (Z.div_le_mono a b k ltac:(lia) ltac:(lia)). nia.
Qed.

Lemma yoe_of_mono a b : 0 <= a <= b -> b <= 146096 -> yoe_of a <= yoe_of b.
Proof.
  intros. unfold yoe_of. apply Z.div_le_mono; [lia|].
  pose proof (div_diff_le a b 1460 ltac:(lia) ltac:(lia)).
  pose proof (Z.div_le_mono a b 36524 ltac:(lia) ltac:(lia)).
  destruct (Z.eq_dec b 146096).
  - subst. destruct (Z.eq_dec a 146096); [subst; lia|].
    assert (a / 146096 = 0) by (apply Z.div_small; lia).
    assert (146096 / 1460 = 100) by reflexivity.
    assert (146096 / 36524 = 4) by reflexivity.
    assert (146096 / 146096 = 1) by reflexivity.
    assert (a / 1460 < 101) by (apply Z.div_lt_upper_bound; lia).
    assert (a / 36524 < 4) by (apply Z.div_lt_upper_bound; lia). lia.
  - assert (a / 146096 = 0) by (apply Z.div_small; lia).
    assert (b / 146096 = 0) by (apply Z.div_small; lia). lia.
Qed.

Lemma ylen_bounds yoe : 365 <= ylen yoe <= 366.
Proof. unfold ylen. destruct (is_leap (yoe + 1)); lia. Qed.

Lemma ystart_nonneg yoe : 0 <= yoe -> 0 <= ystart yoe.
Proof.
  intros. unfold ystart.
  pose proof (Z.div_pos yoe 4 ltac:(lia) ltac:(lia)).
  pose proof (Z.div_le_upper_bound yoe 100 yoe ltac:(lia) ltac:(lia)). lia.
Qed.

(** The 400 years of an era, checked by evaluation. *)
Lemma year_table :
  forall_Z (fun yo => (yoe_of (ystart yo) =? yo) && (yoe_of (ystart yo + ylen yo - 1) =? yo)
                      && ((yo =? 399) || (ystart (yo + 1) =? ystart yo + ylen yo))
                      && (ystart yo + ylen yo <=? 146097))
           0 (Z.to_nat 400) = true.
Proof. vm_compute. reflexivity. Qed.

Lemma year_facts yo : 0 <= yo <= 399 ->
  yoe_of (ystart yo) = yo /\ yoe_of (ystart yo + ylen yo - 1) = yo /\
  (yo = 399 \/ ystart (yo + 1) = ystart yo + ylen yo) /\ ystart yo + ylen yo <= 146097.
Proof.
  intros Hy. pose proof (forall_Z_spec _ _ _ year_table yo) as H.
  rewrite Z2Nat.id in H by lia. specialize (H ltac:(lia)). to_Z_props; tauto.
Qed.

Lemma yoe_of_in yo doe : 0 <= yo <= 399 -> ystart yo <= doe < ystart yo + ylen yo ->
  yoe_of doe = yo.
Proof.
  intros Hy Hd. destruct (year_facts yo Hy) as (H1 & H2 & _ & H4).
  pose proof (ystart_nonneg yo ltac:(lia)).
  pose proof (yoe_of_mono (ystart yo) doe ltac:(lia) ltac:(lia)).
  pose proof (yoe_of_mono doe (ystart yo + ylen yo - 1) ltac:(lia) ltac:(lia)). lia.
Qed.

Lemma yoe_of_range doe : 0 <= doe < 146097 ->
  0 <= yoe_of doe <= 399 /\
  ystart (yoe_of doe) <= doe < ystart (yoe_of doe) + ylen (yoe_of doe).
Proof.
  intros Hd.
  assert (Hb : 0 <= yoe_of doe <= 399).
  { pose proof (yoe_of_mono 0 doe ltac:(lia) ltac:(lia)).
    pose proof (yoe_of_mono doe 146096 ltac:(lia) ltac:(lia)).
    assert (yoe_of 0 = 0) by reflexivity. assert (yoe_of 146096 = 399) by reflexivity. lia. }
  split; [exact Hb|]. set (yo := yoe_of doe) in *.
  split.
  - destruct (Z_lt_le_dec doe (ystart yo)) as [Hlt|]; [exfalso|assumption].
    destruct (Z.eq_dec yo 0) as [E|]; [rewrite E in Hlt; change (ystart 0) with 0 in Hlt; lia|].
    destruct (year_facts (yo - 1) ltac:(lia)) as (_ & H2 & [H3|H3] & H4); [lia|].
    replace (yo - 1 + 1) with yo in H3 by ring.
    pose proof (yoe_of_mono doe (ystart (yo - 1) + ylen (yo - 1) - 1) ltac:(lia) ltac:(lia)).
    lia.
  - destruct (Z_lt_le_dec doe (ystart yo + ylen yo)) as [|Hge]; [assumption|exfalso].
    destruct (Z.eq_dec yo 399) as [E|].
    + rewrite E in Hge. change (ystart 399 + ylen 399) with 146097 in Hge. lia.
    + destruct (year_facts yo ltac:(lia)) as (_ & _ & [H3|H3] & _); [lia|].
      destruct (year_facts (yo + 1) ltac:(lia)) as (H1 & _).
      pose proof (ystart_nonneg (yo + 1) ltac:(lia)).
      pose proof (yoe_of_mono (ystart (yo + 1)) doe ltac:(lia) ltac:(lia)). lia.
Qed.

(** The days of a year, checked by evaluation. *)
Lemma month_table :
  forall_Z (fun doy => let mp := mp_of doy in let d := doy - mstart mp + 1 in
              (0 <=? mp) && (mp <=? 11) && (1 <=? d) &&
              ((d <=? days_in_month 2001 (month_of mp)) ||
               ((doy =? 365) && (month_of mp =? 2) && (d =? 29))))
           0 (Z.to_nat 366) = true.
Proof. vm_compute. reflexivity. Qed.

Lemma month_facts doy : 0 <= doy <= 365 ->
  0 <= mp_of doy <= 11 /\ 1 <= doy - mstart (mp_of doy) + 1 /\
  (doy - mstart (mp_of doy) + 1 <= days_in_month 2001 (month_of (mp_of doy)) \/
   (doy = 365 /\ month_of (mp_of doy) = 2 /\ doy - mstart (mp_of doy) + 1 = 29)).
Proof.
  intros Hd. pose proof (forall_Z_spec _ _ _ month_table doy) as H.
  rewrite Z2Nat.id in H by lia. specialize (H ltac:(lia)). cbv zeta in H.
  to_Z_props; repeat split; try lia; tauto.
Qed.

(** The dates of a leap year, checked by evaluation. *)
Lemma month_inv_table :
  forall_Z (fun m => forall_Z (fun d =>
      negb (d <=? days_in_month 2000 m) ||
      (let mp := (m + 9) mod 12 in let doy := mstart mp + d - 1 in
       (mp_of doy =? mp) && (month_of mp =? m) && (0 <=? doy) && (doy <=? 365) &&
       ((doy <=? 364) || ((m =? 2) && (d =? 29)))))
    1 (Z.to_nat 31)) 1 (Z.to_nat 12) = true.
Proof. vm_compute. reflexivity. Qed.

Lemma days_in_month_le y m : days_in_month y m <= 31.
Proof.
  unfold days_in_month.
  destruct (m =? 2); [destruct (is_leap y)|destruct (_ || _)%bool]; lia.
Qed.

Lemma days_in_month_leap_max y m : days_in_month y m <= days_in_month 2000 m.
Proof.
  unfold days_in_month. change (is_leap 2000) with true.
  destruct (m =? 2); [destruct (is_leap y)|]; lia.
Qed.

Lemma days_in_month_common_min y m : days_in_month 2001 m <= days_in_month y m.
Proof.
  unfold days_in_month. change (is_leap 2001) with false.
  destruct (m =? 2); [destruct (is_leap y)|]; lia.
Qed.

Lemma days_in_month_other y y' m : m <> 2 -> days_in_month y m = days_in_month y' m.
Proof. intros. unfold days_in_month. apply Z.eqb_neq in H. rewrite H. reflexivity. Qed.

Lemma days_in_month_feb y : days_in_month y 2 = if is_leap y then 29 else 28.
Proof. reflexivity. Qed.

Lemma month_inv_facts m d : 1 <= m <= 12 -> 1 <= d <= days_in_month 2000 m ->
  mp_of (mstart ((m + 9) mod 12) + d - 1) = (m + 9) mod 12 /\
  month_of ((m + 9) mod 12) = m /\
  0 <= mstart ((m + 9) mod 12) + d - 1 <= 365 /\
  (mstart ((m + 9) mod 12) + d - 1 <= 364 \/ (m = 2 /\ d = 29)).
Proof.
  intros Hm Hd. pose proof (days_in_month_le 2000 m) as Hle.
  pose proof (forall_Z_spec _ _ _ month_inv_table m) as H.
  rewrite Z2Nat.id in H by lia. specialize (H ltac:(lia)).
  pose proof (forall_Z_spec _ _ _ H d) as H'.
  rewrite Z2Nat.id in H' by lia. specialize (H' ltac:(lia)).
  assert (E : (d <=? days_in_month 2000 m) = true) by (apply Z.leb_le; lia).
  rewrite E in H'. cbn [negb orb] in H'. cbv zeta in H'.
  to_Z_props; repeat split; try lia; tauto.
Qed.

Lemma is_leap_shift y k : is_leap (y + k * 400) = is_leap y.
Proof.
  unfold is_leap.
  replace (y + k * 400) with (y + (k * 100) * 4) at 1 by ring.
  rewrite Z_mod_plus_full.
  replace (y + k * 400) with (y + (k * 4) * 100) at 1 by ring.
  rewrite Z_mod_plus_full, Z_mod_plus_full. reflexivity.
Qed.

Lemma valid_ymd_shift y m d k : valid_ymd (y + k * 400) m d = valid_ymd y m d.
Proof. unfold valid_ymd, days_in_month. rewrite is_leap_shift. reflexivity. Qed.

Lemma civil_from_days_parts z era doe :
  era = (z + 719468) / 146097 -> doe = z + 719468 - era * 146097 ->
  civil_from_days z =
  (yoe_of doe + era * 400 +
     (if month_of (mp_of (doe - ystart (yoe_of doe))) <=? 2 then 1 else 0),
   month_of (mp_of (doe - ystart (yoe_of doe))),
   doe - ystart (yoe_of doe) - mstart (mp_of (doe - ystart (yoe_of doe))) + 1).
Proof. intros -> ->. reflexivity. Qed.

Lemma month_of_range mp : 0 <= mp <= 11 -> 1 <= month_of mp <= 12.
Proof. intros. unfold month_of. destruct (Z.ltb_spec mp 10); lia. Qed.

Lemma days_from_civil_parts era yo mp dd : 0 <= yo <= 399 -> 0 <= mp <= 11 ->
  days_from_civil (yo + era * 400 + (if month_of mp <=? 2 then 1 else 0)) (month_of mp) dd =
  era * 146097 + ystart yo + mstart mp + dd - 1 - 719468.
Proof.
  intros Hy Hmp. unfold days_from_civil, ystart, mstart.
  assert (Hy' : (if month_of mp <=? 2
                 then yo + era * 400 + (if month_of mp <=? 2 then 1 else 0) - 1
                 else yo + era * 400 + (if month_of mp <=? 2 then 1 else 0)) = yo + era * 400)
    by (destruct (month_of mp <=? 2); ring).
  rewrite Hy'.
  assert (He : (yo + era * 400) / 400 = era)
    by (rewrite Z.div_add, Z.div_small by lia; ring).
  rewrite He.
  assert (Hm : (month_of mp + 9) mod 12 = mp).
  { unfold month_of. destruct (Z.ltb_spec mp 10).
    - replace (mp + 3 + 9) with (mp + 1 * 12) by ring.
      rewrite Z_mod_plus_full. apply Z.mod_small. lia.
    - replace (mp - 9 + 9) with mp by ring. apply Z.mod_small. lia. }
  rewrite Hm. replace (yo + era * 400 - era * 400) with yo by ring. ring.
Qed.

Lemma days_civil_roundtrip z : ymd_days (civil_from_days z) = z.
Proof.
  set (era := (z + 719468) / 146097). set (doe := z + 719468 - era * 146097).
  assert (Hd : 0 <= doe < 146097).
  { pose proof (Z.div_mod (z + 719468) 146097 ltac:(lia)).
    pose proof (Z.mod_pos_bound (z + 719468) 146097 ltac:(lia)). unfold doe, era. lia. }
  rewrite (civil_from_days_parts z era doe eq_refl eq_refl).
  destruct (yoe_of_range doe Hd) as [Hy Hs].
  pose proof (ylen_bounds (yoe_of doe)).
  destruct (month_facts (doe - ystart (yoe_of doe)) ltac:(lia)) as [Hmp _].
  unfold ymd_days. rewrite days_from_civil_parts by assumption. unfold doe. lia.
Qed.

Lemma civil_from_days_valid z :
  let '(y, m, d) := civil_from_days z in valid_ymd y m d = true.
Proof.
  set (era := (z + 719468) / 146097). set (doe := z + 719468 - era * 146097).
  assert (Hd : 0 <= doe < 146097).
  { pose proof (Z.div_mod (z + 719468) 146097 ltac:(lia)).
    pose proof (Z.mod_pos_bound (z + 719468) 146097 ltac:(lia)). unfold doe, era. lia. }
  rewrite (civil_from_days_parts z era doe eq_refl eq_refl).
  destruct (yoe_of_range doe Hd) as [Hy Hs].
  set (yo := yoe_of doe) in *. set (doy := doe - ystart yo).
  pose proof (ylen_bounds yo).
  destruct (month_facts doy ltac:(unfold doy; lia)) as (Hmp & Hd1 & Hdm).
  set (mp := mp_of doy) in *. set (d := doy - mstart mp + 1) in *.
  pose proof (month_of_range mp Hmp).
  unfold valid_ymd.
  assert (d <= days_in_month (yo + era * 400 + (if month_of mp <=? 2 then 1 else 0))
                             (month_of mp)).
  { destruct Hdm as [Hdm|(E1 & E2 & E3)].
    - pose proof (days_in_month_common_min
                    (yo + era * 400 + (if month_of mp <=? 2 then 1 else 0)) (month_of mp)).
      lia.
    - rewrite E2, days_in_month_feb.
      replace (if 2 <=? 2 then 1 else 0) with 1 by reflexivity.
      assert (Hl : ylen yo = 366) by (unfold doy in E1; lia).
      unfold ylen in Hl. destruct (is_leap (yo + 1)) eqn:HL; [|discriminate].
      replace (yo + era * 400 + 1) with ((yo + 1) + era * 400) by ring.
      rewrite is_leap_shift, HL. lia. }
  repeat (apply andb_true_iff; split); apply Z.leb_le; lia.
Qed.

Lemma civil_days_roundtrip y m d :
  valid_ymd y m d = true -> civil_from_days (days_from_civil y m d) = (y, m, d).
Proof.
  intros Hv.
  assert (Hm : 1 <= m <= 12 /\ 1 <= d <= days_in_month y m).
  { unfold valid_ymd in Hv. to_Z_props. lia. }
  pose proof (days_in_month_leap_max y m).
  set (y' := if m <=? 2 then y - 1 else y).
  set (era := y' / 400). set (yo := y' - era * 400).
  set (mp := (m + 9) mod 12). set (doy := mstart mp + d - 1).
  assert (Hyo : 0 <= yo < 400).
  { pose proof (Z.div_mod y' 400 ltac:(lia)). pose proof (Z.mod_pos_bound y' 400 ltac:(lia)).
    unfold yo, era. lia. }
  destruct (month_inv_facts m d ltac:(lia) ltac:(lia)) as (E1 & E2 & E3 & E4).
  fold mp doy in E1, E2, E3, E4.
  pose proof (ylen_bounds yo).
  assert (Hlen : doy < ylen yo).
  { destruct E4 as [E4|[-> ->]]; [lia|].
    assert (is_leap y = true).
    { destruct Hm as [_ Hd]. rewrite days_in_month_feb in Hd.
      destruct (is_leap y); [reflexivity|lia]. }
    unfold ylen. replace (yo + 1) with (y + (- era) * 400) by (unfold yo, y'; simpl; ring).
    rewrite is_leap_shift, H1. lia. }
  assert (Hdays : days_from_civil y m d = era * 146097 + (ystart yo + doy) - 719468).
  { unfold days_from_civil, ystart, doy, mstart. fold y' era mp. fold yo. ring. }
  destruct (year_facts yo ltac:(lia)) as (_ & _ & _ & Hend).
  pose proof (ystart_nonneg yo ltac:(lia)).
  rewrite Hdays.
  set (era2 := (era * 146097 + (ystart yo + doy) - 719468 + 719468) / 146097).
  assert (Hera : era2 = era).
  { unfold era2. replace (era * 146097 + (ystart yo + doy) - 719468 + 719468)
      with ((ystart yo + doy) + era * 146097) by ring.
    rewrite Z.div_add, Z.div_small by lia. ring. }
  rewrite (civil_from_days_parts _ era2 (ystart yo + doy) eq_refl)
    by (rewrite Hera; ring).
  rewrite (yoe_of_in yo (ystart yo + doy)) by lia.
  replace (ystart yo + doy - ystart yo) with doy by ring.
  rewrite E1, E2, Hera. unfold doy.
  f_equal; [f_equal|ring].
  unfold yo, y'. destruct (Z.leb_spec m 2); ring.
Qed.

(** * String lemmas *)

Import JSDate JSString Inputs.

Lemma lower_char_digit c : is_digit c = true -> lower_char c = c.
Proof.
  unfold is_digit, lower_char. intros H. apply andb_true_iff in H as [H1 H2].
  apply Nat.leb_le in H1, H2.
  replace ((65 <=? nat_of_ascii c)%nat) with false by (symmetry; apply Nat.leb_gt; lia).
  reflexivity.
Qed.

Lemma toLowerCase_digits s : all_digits_aux s = true -> toLowerCase s = s.
Proof.
  induction s as [|c s IH]; simpl; [reflexivity|].
  intros H. apply andb_true_iff in H as [H1 H2].
  rewrite lower_char_digit, IH by assumption. reflexivity.
Qed.

Lemma all_digits_nonempty s : all_digits s = true -> String.eqb s "" = false.
Proof. unfold all_digits. destruct (String.eqb s ""); [discriminate|reflexivity]. Qed.

Lemma all_digits_not_placeholder s :
  all_digits s = true -> String.eqb (toLowerCase s) "dd/mm/yyyy" = false.
Proof.
  unfold all_digits. intros H. apply andb_true_iff in H as [_ H].
  rewrite toLowerCase_digits by exact H.
  destruct s as [|c s]; [reflexivity|].
  simpl in H. apply andb_true_iff in H as [H _].
  apply String.eqb_neq. intros E. injection E as E1 _. subst c. discriminate H.
Qed.

(** * Campervan lemmas *)


Lemma campervan_parse_digits tz dp s :
  all_digits (trim s) = true ->
  Campervan.parseDateValue tz dp (JStr s) =
  (let timestamp := digits_value (trim s) in
   if (19000101 <=? timestamp) && (timestamp <=? 21001231)
   then Campervan.compactDate tz timestamp
   else if (30000 <=? timestamp) && (timestamp <=? 80000)
   then Campervan.serialDate tz timestamp
   else TimeClip timestamp).
Proof.
  intros H. unfold Campervan.parseDateValue.
  destruct (String.eqb s "") eqn:Es.
  - apply String.eqb_eq in Es. subst s. discriminate H.
  - cbn [truthy negb]. rewrite Es. cbn [negb].
    rewrite all_digits_nonempty, all_digits_not_placeholder, H by exact H. reflexivity.
Qed.

Lemma roundDays_multiple k : Campervan.roundDays (k * Campervan.DAY_MS) = k.
Proof.
  unfold Campervan.roundDays, Campervan.DAY_MS.
  rewrite Z.add_comm, Z.div_add by lia. reflexivity.
Qed.

(** * Snowy lemmas *)

Lemma countIf_inWeek_parsed {A} (p : A -> option Z) s e (l : list A) :
  Snowy.countIf (fun x => Snowy.inWeek s e (p x)) l =
  Snowy.countIf (fun x => Snowy.inWeek s e (p x)) (filter (fun x => isSome (p x)) l).
Proof.
  unfold Snowy.countIf. f_equal.
  induction l as [|x l IH]; [reflexivity|]. cbn [filter].
  destruct (p x) eqn:E; cbn [isSome].
  - cbn [filter]. rewrite E. destruct (Snowy.inWeek s e (Some z)); cbn [length]; congruence.
  - exact IH.
Qed.

Lemma countByWeek_parsed tz dp entries starts :
  Snowy.countByWeek tz dp entries starts =
  Snowy.countByWeek tz dp (filter (fun x => isSome (Snowy.parseHandoverDate dp x)) entries) starts.
Proof.
  unfold Snowy.countByWeek. apply map_ext. intros [s e].
  apply (countIf_inWeek_parsed (Snowy.parseHandoverDate dp)).
Qed.

Lemma normalizeType_cases dts v :
  Snowy.normalizeType dts v = "Stock"%string \/ Snowy.normalizeType dts v = "Customer"%string.
Proof.
  unfold Snowy.normalizeType. cbv zeta.
  repeat match goal with |- context [if ?b then _ else _] => destruct b end; auto.
Qed.

(** * Time-value lemmas *)

Lemma TimeClip_ok t : Z.abs t <= 8640000000000000 -> TimeClip t = Some t.
Proof. intros H. unfold TimeClip. apply Z.leb_le in H. rewrite H. reflexivity. Qed.

Lemma Day_add_days t k : Day (t + k * msPerDay) = Day t + k.
Proof. unfold Day. apply Z.div_add. unfold msPerDay. lia. Qed.

Lemma Day_mul k : Day (k * msPerDay) = k.
Proof. unfold Day. apply Z.div_mul. unfold msPerDay. lia. Qed.

Lemma time_decomp t : Day t * msPerDay + TimeWithinDay t = t.
Proof.
  unfold Day, TimeWithinDay. pose proof (Z.div_mod t msPerDay ltac:(unfold msPerDay; lia)). lia.
Qed.

Lemma TimeWithinDay_bounds t : 0 <= TimeWithinDay t < msPerDay.
Proof. unfold TimeWithinDay. apply Z.mod_pos_bound. unfold msPerDay. lia. Qed.

Lemma TimeWithinDay_mul k : TimeWithinDay (k * msPerDay) = 0.
Proof. unfold TimeWithinDay. apply Z.mod_mul. unfold msPerDay. lia. Qed.

Lemma MakeDay_month y m d : 1 <= m <= 12 -> MakeDay y (m - 1) d = days_from_civil y m 1 + d - 1.
Proof.
  intros Hm. unfold MakeDay.
  rewrite (Z.div_small (m - 1) 12), (Z.mod_small (m - 1) 12) by lia.
  replace (y + 0) with y by ring. replace (m - 1 + 1) with m by ring. reflexivity.
Qed.

Lemma MakeDay_valid y m d : valid_ymd y m d = true -> MakeDay y (m - 1) d = days_from_civil y m d.
Proof.
  intros H. unfold valid_ymd in H. to_Z_props.
  rewrite MakeDay_month by lia. rewrite (days_from_civil_day y m d). ring.
Qed.

Lemma makeday_from_time lt dt :
  MakeDay (YearFromTime lt) (MonthFromTime lt) dt = Day lt - DateFromTime lt + dt.
Proof.
  unfold YearFromTime, MonthFromTime, DateFromTime.
  pose proof (civil_from_days_valid (Day lt)) as Hv.
  pose proof (days_civil_roundtrip (Day lt)) as Hr.
  destruct (civil_from_days (Day lt)) as [[y m] d].
  unfold valid_ymd in Hv. to_Z_props.
  rewrite MakeDay_month by lia. cbn [ymd_days] in Hr.
  rewrite (days_from_civil_day y m d) in Hr. lia.
Qed.

Lemma setDate_eq tz t dt :
  setDate tz (Some t) (Some dt) = TimeClip (t + (dt - DateFromTime (t + tz)) * msPerDay).
Proof.
  unfold setDate, LocalTime, UTC. rewrite makeday_from_time. f_equal.
  pose proof (time_decomp (t + tz)).
  set (D := Day (t + tz)) in *. set (W := TimeWithinDay (t + tz)) in *.
  set (G := DateFromTime (t + tz)). unfold msPerDay in *. lia.
Qed.

Lemma addDays_eq tz t n : Snowy.addDays tz (Some t) n = TimeClip (t + n * msPerDay).
Proof.
  unfold Snowy.addDays, getDate. cbn [option_map]. rewrite setDate_eq. unfold LocalTime.
  f_equal. ring.
Qed.

Lemma weekday_monday D :
  (D - ((D + 4) mod 7 + 6) mod 7 + 4) mod 7 = 1.
Proof. Z.div_mod_to_equations. lia. Qed.

Lemma startOfWeekMonday_eq tz t :
  let lt := t + tz in
  let diff := (WeekDay lt + 6) mod 7 in
  Z.abs (t - diff * msPerDay) <= 8640000000000000 ->
  Z.abs ((Day lt - diff) * msPerDay - tz) <= 8640000000000000 ->
  Snowy.startOfWeekMonday tz (Some t) = Some ((Day lt - diff) * msPerDay - tz).
Proof.
  intros lt diff H1 H2.
  unfold Snowy.startOfWeekMonday, getDay, getDate. cbn [option_map]. unfold LocalTime.
  fold lt. fold diff. rewrite setDate_eq. fold lt.
  replace (t + (DateFromTime lt - diff - DateFromTime lt) * msPerDay) with (t - diff * msPerDay)
    by ring.
  rewrite TimeClip_ok by exact H1.
  unfold setHours0, LocalTime, UTC.
  replace (t - diff * msPerDay + tz) with (lt + (- diff) * msPerDay) by (unfold lt; ring).
  rewrite Day_add_days. replace (Day lt + - diff) with (Day lt - diff) by ring.
  apply TimeClip_ok. exact H2.
Qed.

(** * List lemmas *)

Lemma sumFrom_skipn j l : Snowy.sumFrom j l = fold_right Z.add 0 (skipn j l).
Proof.
  revert j. induction l as [|x l IH]; intros j; destruct j; simpl; try reflexivity.
  - rewrite IH. reflexivity.
  - apply IH.
Qed.

Lemma sumFrom_repeat0 j n : Snowy.sumFrom j (repeat 0 n) = 0.
Proof.
  rewrite sumFrom_skipn. revert j. induction n as [|n IH]; intros [|j]; simpl; auto.
  specialize (IH O). simpl in IH. lia.
Qed.

Lemma map_snd_combine {A B} (l1 : list A) (l2 : list B) :
  length l1 = length l2 -> map snd (combine l1 l2) = l2.
Proof.
  revert l2. induction l1 as [|a l1 IH]; intros [|b l2] H; simpl in *; try discriminate.
  - reflexivity.
  - f_equal. apply IH. lia.
Qed.

Lemma combine_map_same {A B C} (f : A -> B) (g : A -> C) (l : list A) :
  combine (map f l) (map g l) = map (fun x => (f x, g x)) l.
Proof. induction l; simpl; congruence. Qed.

Lemma map_const_repeat {A B} (c : B) (l : list A) : map (fun _ => c) l = repeat c (length l).
Proof. induction l; simpl; congruence. Qed.

Lemma trendStarts_length tz now : length (Snowy.trendStarts tz now) = 10%nat.
Proof. unfold Snowy.trendStarts. rewrite length_map. reflexivity. Qed.

Lemma countByWeek_length tz dp es starts :
  length (Snowy.countByWeek tz dp es starts) = length starts.
Proof.
  unfold Snowy.countByWeek. rewrite length_map, length_combine, length_map. lia.
Qed.

Lemma netByWeekOf_length r h : length (Snowy.netByWeekOf r h) = Nat.min (length r) (length h).
Proof. unfold Snowy.netByWeekOf. rewrite length_map, length_combine. reflexivity. Qed.

Lemma computeStockTrend_levels tz dp yard hand ct now :
  map Snowy.level (Snowy.computeStockTrend tz dp yard hand ct now) =
  map (fun i => Z.max 0 (ct - Snowy.sumFrom (S i)
         (Snowy.netByWeekOf (Snowy.countByWeek tz dp yard (Snowy.trendStarts tz now))
                            (Snowy.countByWeek tz dp hand (Snowy.trendStarts tz now)))))
      (seq 0 10).
Proof.
  unfold Snowy.computeStockTrend. cbv zeta. rewrite map_map.
  rewrite (map_ext _ snd) by (intros [s l]; reflexivity).
  rewrite map_snd_combine by (rewrite length_map, length_seq; reflexivity).
  rewrite trendStarts_length. reflexivity.
Qed.

Lemma computeStockTrend_length tz dp yard hand ct now :
  length (Snowy.computeStockTrend tz dp yard hand ct now) = 10%nat.
Proof.
  rewrite <- (length_map Snowy.level), computeStockTrend_levels, length_map, length_seq.
  reflexivity.
Qed.

Lemma countByWeek_nil tz dp starts :
  Snowy.countByWeek tz dp [] starts = repeat 0 (length starts).
Proof.
  unfold Snowy.countByWeek.
  rewrite (map_ext _ (fun _ => 0)) by (intros [s e]; reflexivity).
  rewrite map_const_repeat, length_combine, length_map. f_equal. lia.
Qed.

(** * The numeric shapes of [parseDateValue] (CampervanSchedule.jsx) *)

(** C1: a number above 1e11 is epoch milliseconds; a number in
    [19000101, 21001231] is YYYYMMDD with year [v / 10000], month
    [(v mod 10000) / 100] and day [v mod 100]; a number in [30000, 80000] is a
    day count added to 1899-12-30; a non-zero number in none of these ranges
    is epoch milliseconds too.  A string of digits (after trimming) goes
    through the same two ranges, in the same order, and is otherwise epoch
    milliseconds. *)
Theorem parseDateValue_numeric_dispatch (tz : Z) (dateParse : string -> option Z) :
  (forall v, 100000000000 < v ->
     Campervan.parseDateValue tz dateParse (JNum v) = TimeClip v) /\
  (forall v, 19000101 <= v <= 21001231 ->
     Campervan.parseDateValue tz dateParse (JNum v) =
     newDate3 tz (Some (v / 10000)) (Some ((v mod 10000) / 100 - 1)) (Some (v mod 100))) /\
  (forall v, 30000 <= v <= 80000 ->
     Campervan.parseDateValue tz dateParse (JNum v) =
     match newDate3 tz (Some 1899) (Some 11) (Some 30) with
     | Some excelEpoch => TimeClip (excelEpoch + v * Campervan.DAY_MS)
     | None => None
     end) /\
  (forall v, v <> 0 -> v <= 100000000000 -> ~ (19000101 <= v <= 21001231) ->
     ~ (30000 <= v <= 80000) ->
     Campervan.parseDateValue tz dateParse (JNum v) = TimeClip v) /\
  (forall s, all_digits (trim s) = true ->
     let v := digits_value (trim s) in
     (19000101 <= v <= 21001231 ->
        Campervan.parseDateValue tz dateParse (JStr s) =
        newDate3 tz (Some (v / 10000)) (Some ((v mod 10000) / 100 - 1)) (Some (v mod 100))) /\
     (30000 <= v <= 80000 ->
        Campervan.parseDateValue tz dateParse (JStr s) =
        match newDate3 tz (Some 1899) (Some 11) (Some 30) with
        | Some excelEpoch => TimeClip (excelEpoch + v * Campervan.DAY_MS)
        | None => None
        end) /\
     (~ (19000101 <= v <= 21001231) -> ~ (30000 <= v <= 80000) ->
        Campervan.parseDateValue tz dateParse (JStr s) = TimeClip v)).
Proof.
  split; [|split; [|split; [|split]]].
  - intros v Hv. unfold Campervan.parseDateValue. cbn [truthy].
    replace (v =? 0) with false by (symmetry; apply Z.eqb_neq; lia).
    replace (100000000000 <? v) with true by (symmetry; apply Z.ltb_lt; lia). reflexivity.
  - intros v Hv. unfold Campervan.parseDateValue. cbn [truthy].
    replace (v =? 0) with false by (symmetry; apply Z.eqb_neq; lia).
    replace (100000000000 <? v) with false by (symmetry; apply Z.ltb_ge; lia).
    replace ((19000101 <=? v) && (v <=? 21001231)) with true
      by (symmetry; apply andb_true_iff; split; apply Z.leb_le; lia). reflexivity.
  - intros v Hv. unfold Campervan.parseDateValue. cbn [truthy].
    replace (v =? 0) with false by (symmetry; apply Z.eqb_neq; lia).
    replace (100000000000 <? v) with false by (symmetry; apply Z.ltb_ge; lia).
    replace ((19000101 <=? v) && (v <=? 21001231)) with false
      by (symmetry; apply andb_false_iff; left; apply Z.leb_gt; lia).
    replace ((30000 <=? v) && (v <=? 80000)) with true
      by (symmetry; apply andb_true_iff; split; apply Z.leb_le; lia). reflexivity.
  - intros v H0 H1 H2 H3. unfold Campervan.parseDateValue. cbn [truthy].
    replace (v =? 0) with false by (symmetry; apply Z.eqb_neq; lia).
    replace (100000000000 <? v) with false by (symmetry; apply Z.ltb_ge; lia).
    replace ((19000101 <=? v) && (v <=? 21001231)) with false
      by (symmetry; apply andb_false_iff; destruct (Z.leb_spec 19000101 v);
          [right; apply Z.leb_gt; lia | left; reflexivity]).
    replace ((30000 <=? v) && (v <=? 80000)) with false
      by (symmetry; apply andb_false_iff; destruct (Z.leb_spec 30000 v);
          [right; apply Z.leb_gt; lia | left; reflexivity]). reflexivity.
  - intros s Hs v. split; [|split].
    all: rewrite campervan_parse_digits by exact Hs; fold v; cbv zeta.
  + intros Hv.
    replace ((19000101 <=? v) && (v <=? 21001231)) with true
      by (symmetry; apply andb_true_iff; split; apply Z.leb_le; lia). reflexivity.
  + intros Hv.
    replace ((19000101 <=? v) && (v <=? 21001231)) with false
      by (symmetry; apply andb_false_iff; left; apply Z.leb_gt; lia).
    replace ((30000 <=? v) && (v <=? 80000)) with true
      by (symmetry; apply andb_true_iff; split; apply Z.leb_le; lia). reflexivity.
  + intros H2 H3.
    replace ((19000101 <=? v) && (v <=? 21001231)) with false
      by (symmetry; apply andb_false_iff; destruct (Z.leb_spec 19000101 v);
          [right; apply Z.leb_gt; lia | left; reflexivity]).
    replace ((30000 <=? v) && (v <=? 80000)) with false
      by (symmetry; apply andb_false_iff; destruct (Z.leb_spec 30000 v);
          [right; apply Z.leb_gt; lia | left; reflexivity]). reflexivity.
Qed.

(** * [parseDuration] (CampervanSchedule.jsx) *)


(** * Placeholders and unparsed records *)

(** C8: the empty string and any string that trims and lower-cases to
    [dd/mm/yyyy] do not parse; and [computeStockTrend] gives the same weeks
    when the entries whose date does not parse are removed, so such entries
    are counted in no week, neither as received nor as handed over. *)
Theorem placeholders_and_unparsed_excluded (tz : Z) (dateParse : string -> option Z) :
  Campervan.parseDateValue tz dateParse (JStr "") = None /\
  (forall s, toLowerCase (trim s) = "dd/mm/yyyy"%string ->
     Campervan.parseDateValue tz dateParse (JStr s) = None) /\
  (forall yard hand currentTotal now,
     Snowy.computeStockTrend tz dateParse yard hand currentTotal now =
     Snowy.computeStockTrend tz dateParse
       (filter (fun x => isSome (Snowy.parseHandoverDate dateParse x)) yard)
       (filter (fun x => isSome (Snowy.parseHandoverDate dateParse x)) hand)
       currentTotal now) /\
  (forall entries starts,
     Snowy.countByWeek tz dateParse entries starts =
     Snowy.countByWeek tz dateParse
       (filter (fun x => isSome (Snowy.parseHandoverDate dateParse x)) entries) starts).
Proof.
  split; [reflexivity|split; [|split]].
  - intros s H. unfold Campervan.parseDateValue.
    destruct (negb (truthy (JStr s))); [reflexivity|]. cbv zeta.
    destruct (String.eqb (trim s) ""); [reflexivity|]. rewrite H. reflexivity.
  - intros yard hand ct now. unfold Snowy.computeStockTrend.
    rewrite (countByWeek_parsed tz dateParse yard), (countByWeek_parsed tz dateParse hand).
    reflexivity.
  - intros. apply countByWeek_parsed.
Qed.

(** * [computeStockTrend] (part_000) *)

(** C2: the trend has 10 weeks (the window is fixed at 10); the level of
    week [i] is [max(0, currentTotal - sum of net[j] for j > i)] with
    [net[j] = received[j] - handedOver[j]]; every level is at least 0; and
    with no entries at all every level is [currentTotal], a count and so at
    least 0. *)
Theorem stock_trend_levels (tz : Z) (dateParse : string -> option Z)
    (yard hand : list jsval) (currentTotal now : Z) :
  let starts := Snowy.trendStarts tz now in
  let received := Snowy.countByWeek tz dateParse yard starts in
  let handed := Snowy.countByWeek tz dateParse hand starts in
  let net := Snowy.netByWeekOf received handed in
  length (Snowy.computeStockTrend tz dateParse yard hand currentTotal now) = 10%nat /\
  length received = 10%nat /\ length handed = 10%nat /\
  net = map (fun '(r, h) => r - h) (combine received handed) /\
  map Snowy.level (Snowy.computeStockTrend tz dateParse yard hand currentTotal now) =
  map (fun i => Z.max 0 (currentTotal - fold_right Z.add 0 (skipn (S i) net))) (seq 0 10) /\
  Forall (fun p => 0 <= Snowy.level p)
    (Snowy.computeStockTrend tz dateParse yard hand currentTotal now) /\
  (0 <= currentTotal ->
     map Snowy.level (Snowy.computeStockTrend tz dateParse [] [] currentTotal now) =
     repeat currentTotal 10).
Proof.
  intros starts received handed net.
  split; [apply computeStockTrend_length|].
  split; [unfold received; rewrite countByWeek_length; apply trendStarts_length|].
  split; [unfold handed; rewrite countByWeek_length; apply trendStarts_length|].
  split; [reflexivity|].
  assert (Hl : map Snowy.level (Snowy.computeStockTrend tz dateParse yard hand currentTotal now) =
    map (fun i => Z.max 0 (currentTotal - fold_right Z.add 0 (skipn (S i) net))) (seq 0 10)).
  { rewrite computeStockTrend_levels. apply map_ext. intros i. rewrite sumFrom_skipn. reflexivity. }
  split; [exact Hl|split].
  - apply Forall_forall. intros p Hp.
    apply (in_map Snowy.level) in Hp. rewrite Hl in Hp.
    apply in_map_iff in Hp as [i [<- _]]. apply Z.le_max_l.
  - intros Hct. rewrite computeStockTrend_levels, !countByWeek_nil, trendStarts_length.
    change (Snowy.netByWeekOf (repeat 0 10) (repeat 0 10)) with (repeat 0 10).
    rewrite (map_ext _ (fun _ => currentTotal))
      by (intros i; rewrite sumFrom_repeat0, Z.sub_0_r; apply Z.max_r; exact Hct).
    rewrite map_const_repeat, length_seq. reflexivity.
Qed.

Lemma weekStart_facts tz now :
  Z.abs tz < msPerDay -> Z.abs now <= 8640000000000000 - 100 * msPerDay ->
  let lt := now + tz in
  let diff := (WeekDay lt + 6) mod 7 in
  let latest := (Day lt - diff) * msPerDay - tz in
  Snowy.startOfWeekMonday tz (Some now) = Some latest /\
  WeekDay (latest + tz) = 1 /\ TimeWithinDay (latest + tz) = 0 /\
  latest <= now < latest + 7 * msPerDay.
Proof.
  intros Htz Hnow lt diff latest.
  assert (Hd : 0 <= diff < 7) by (apply Z.mod_pos_bound; lia).
  pose proof (time_decomp lt) as Hdec. pose proof (TimeWithinDay_bounds lt) as Hw.
  assert (Hb : latest <= now < latest + 7 * msPerDay).
  { unfold latest. unfold lt in *. set (D := Day (now + tz)) in *.
    set (W := TimeWithinDay (now + tz)) in *. unfold msPerDay in *. nia. }
  assert (Hlt : latest + tz = (Day lt - diff) * msPerDay) by (unfold latest; ring).
  split; [|split; [|split]].
  - apply startOfWeekMonday_eq; fold lt diff.
    + unfold msPerDay in *. nia.
    + fold latest. unfold msPerDay in *. lia.
  - rewrite Hlt. unfold WeekDay at 1. rewrite Day_mul. unfold diff, WeekDay.
    apply weekday_monday.
  - rewrite Hlt. apply TimeWithinDay_mul.
  - exact Hb.
Qed.

(** C5: with a constant UTC offset below one day and a current time [now]
    at least 100 days inside the time-value range, the latest week starts
    at a Monday local midnight [latest] with [latest <= now < latest + 7 days];
    the 10 week starts are [latest - (9 - i) * 7 days] for [i = 0 .. 9],
    oldest first and each 7 days after the previous one; and week [i]
    counts exactly the entries whose parsed date [d] satisfies
    [start_i <= d < start_i + 7 days]. *)
Theorem stock_trend_weeks_anchored (tz now : Z)
    (Htz : Z.abs tz < msPerDay)
    (Hnow : Z.abs now <= 8640000000000000 - 100 * msPerDay) :
  exists latest,
    Snowy.startOfWeekMonday tz (Some now) = Some latest /\
    WeekDay (latest + tz) = 1 /\ TimeWithinDay (latest + tz) = 0 /\
    latest <= now < latest + 7 * msPerDay /\
    Snowy.trendStarts tz now =
      map (fun i => Some (latest - (9 - Z.of_nat i) * 7 * msPerDay)) (seq 0 10) /\
    (forall dateParse entries,
       Snowy.countByWeek tz dateParse entries (Snowy.trendStarts tz now) =
       map (fun i =>
              let s := latest - (9 - Z.of_nat i) * 7 * msPerDay in
              Snowy.countIf (fun x => match Snowy.parseHandoverDate dateParse x with
                                      | Some d => (s <=? d) && (d <? s + 7 * msPerDay)
                                      | None => false
                                      end) entries)
           (seq 0 10)).
Proof.
  destruct (weekStart_facts tz now Htz Hnow) as (H1 & H2 & H3 & H4).
  set (latest := (Day (now + tz) - (WeekDay (now + tz) + 6) mod 7) * msPerDay - tz) in *.
  assert (Hstarts : Snowy.trendStarts tz now =
      map (fun i => Some (latest - (9 - Z.of_nat i) * 7 * msPerDay)) (seq 0 10)).
  { unfold Snowy.trendStarts. rewrite H1. unfold Snowy.weekOffsets.
    cbn [map seq Z.of_nat Pos.of_succ_nat Pos.succ].
    rewrite !addDays_eq.
    repeat match goal with
           | |- TimeClip ?a :: _ = Some ?b :: _ =>
               rewrite (TimeClip_ok a) by (unfold msPerDay in *; lia);
               replace a with b by ring; f_equal
           end. }
  exists latest. split; [exact H1|split; [exact H2|split; [exact H3|split; [exact H4|]]]].
  split; [exact Hstarts|].
  intros dp entries. rewrite Hstarts. unfold Snowy.countByWeek.
  rewrite map_map.
  rewrite (map_ext_in (fun x => Snowy.addDays tz (Some (latest - (9 - Z.of_nat x) * 7 * msPerDay)) 7)
                      (fun x => Some (latest - (9 - Z.of_nat x) * 7 * msPerDay + 7 * msPerDay))).
  2:{ intros i Hi. apply in_seq in Hi. rewrite addDays_eq. apply TimeClip_ok.
      unfold msPerDay in *. lia. }
  rewrite combine_map_same, map_map. apply map_ext. intros i. reflexivity.
Qed.

(** The trend weeks for 2025-01-20 10:00 in UTC+10, a Monday. *)
Lemma stock_trend_weeks_anchored_witness :
  Z.abs aest < msPerDay /\ Z.abs 1737331200000 <= 8640000000000000 - 100 * msPerDay /\
  exists latest,
    Snowy.startOfWeekMonday aest (Some 1737331200000) = Some latest /\
    WeekDay (latest + aest) = 1 /\ TimeWithinDay (latest + aest) = 0 /\
    latest <= 1737331200000 < latest + 7 * msPerDay /\
    Snowy.trendStarts aest 1737331200000 =
      map (fun i => Some (latest - (9 - Z.of_nat i) * 7 * msPerDay)) (seq 0 10) /\
    (forall dateParse entries,
       Snowy.countByWeek aest dateParse entries (Snowy.trendStarts aest 1737331200000) =
       map (fun i =>
              let s := latest - (9 - Z.of_nat i) * 7 * msPerDay in
              Snowy.countIf (fun x => match Snowy.parseHandoverDate dateParse x with
                                      | Some d => (s <=? d) && (d <? s + 7 * msPerDay)
                                      | None => false
                                      end) entries)
           (seq 0 10)).
Proof.
  assert (Ht : Z.abs aest < msPerDay) by (vm_compute; reflexivity).
  assert (Hn : Z.abs 1737331200000 <= 8640000000000000 - 100 * msPerDay)
    by (vm_compute; discriminate).
  split; [exact Ht|split; [exact Hn|]].
  exact (stock_trend_weeks_anchored aest 1737331200000 Ht Hn).
Defined.

(** * Dates of the four input shapes *)

Lemma digit_char_facts k : 0 <= k <= 9 ->
  is_digit (digit_char k) = true /\ digit_val (digit_char k) = k.
Proof.
  intros Hk. unfold is_digit, digit_val, digit_char.
  rewrite Ascii.nat_ascii_embedding by lia.
  split; [apply andb_true_iff; split; apply Nat.leb_le; lia | lia].
Qed.

Lemma digit_not_ws c : is_digit c = true -> is_ws c = false.
Proof.
  unfold is_digit, is_ws. intros H. apply andb_true_iff in H as [H1 H2].
  apply Nat.leb_le in H1, H2.
  destruct ((9 <=? nat_of_ascii c)%nat && (nat_of_ascii c <=? 13)%nat) eqn:E.
  - apply andb_true_iff in E as [_ E]. apply Nat.leb_le in E. lia.
  - cbn [orb]. destruct (Nat.eqb_spec (nat_of_ascii c) 32); [lia|].
    destruct (Nat.eqb_spec (nat_of_ascii c) 160); [lia|reflexivity].
Qed.

Lemma digit_eqb_l c k : is_digit c = true -> is_digit k = false -> Ascii.eqb c k = false.
Proof. intros H1 H2. destruct (Ascii.eqb_spec c k); [subst; congruence|reflexivity]. Qed.

Lemma digit_eqb_r c k : is_digit c = true -> is_digit k = false -> Ascii.eqb k c = false.
Proof. intros H1 H2. destruct (Ascii.eqb_spec k c); [subst; congruence|reflexivity]. Qed.

Ltac digit_facts :=
  repeat match goal with
  | H : is_digit ?c = true |- context [is_digit ?c] => rewrite H
  | H : is_digit ?c = true |- context [is_ws ?c] => rewrite (digit_not_ws c H)
  | H : is_digit ?c = true |- context [lower_char ?c] => rewrite (lower_char_digit c H)
  | H : is_digit ?c = true |- context [Ascii.eqb ?c ?k] => rewrite (digit_eqb_l c k H eq_refl)
  | H : is_digit ?c = true |- context [Ascii.eqb ?k ?c] => rewrite (digit_eqb_r c k H eq_refl)
  | H : (0 * 10 + digit_val ?a) * 10 + digit_val ?b = _ |- _ => rewrite H
  | H : (((0 * 10 + digit_val ?a) * 10 + digit_val ?b) * 10 + digit_val ?c) * 10 + digit_val ?d = _
    |- _ => rewrite H
  | |- context [is_digit (Ascii ?b0 ?b1 ?b2 ?b3 ?b4 ?b5 ?b6 ?b7)] =>
      let k := constr:(Ascii b0 b1 b2 b3 b4 b5 b6 b7) in
      let v := eval vm_compute in (is_digit k) in change (is_digit k) with v
  | |- context [Ascii.eqb (Ascii ?b0 ?b1 ?b2 ?b3 ?b4 ?b5 ?b6 ?b7) (Ascii ?c0 ?c1 ?c2 ?c3 ?c4 ?c5 ?c6 ?c7)] =>
      let k := constr:(Ascii b0 b1 b2 b3 b4 b5 b6 b7) in
      let j := constr:(Ascii c0 c1 c2 c3 c4 c5 c6 c7) in
      let v := eval vm_compute in (Ascii.eqb k j) in change (Ascii.eqb k j) with v
  end.

Ltac str_steps :=
  repeat (progress (try unfold JSString.parseInt; cbn [trim rev_str trim_start append toLowerCase all_digits all_digits_aux
            String.eqb matches iso_pat dash_pat dot_pat D4 D2 app JSString.split map parseInt
            digit_prefix substring digits_value digits_acc negb andb orb truthy]; digit_facts)).

Lemma pad2_digits n : 0 <= n <= 99 ->
  exists a b, pad2 n = String a (String b EmptyString) /\
  is_digit a = true /\ is_digit b = true /\ (0 * 10 + digit_val a) * 10 + digit_val b = n.
Proof.
  intros Hn. unfold pad2.
  destruct (digit_char_facts (n / 10) ltac:(Z.div_mod_to_equations; lia)) as [Ha Va].
  destruct (digit_char_facts (n mod 10) ltac:(Z.div_mod_to_equations; lia)) as [Hb Vb].
  do 2 eexists. split; [reflexivity|]. split; [exact Ha|split; [exact Hb|]].
  rewrite Va, Vb. Z.div_mod_to_equations. lia.
Qed.

Lemma pad4_digits n : 0 <= n <= 9999 ->
  exists a b c d, pad4 n = String a (String b (String c (String d EmptyString))) /\
  is_digit a = true /\ is_digit b = true /\ is_digit c = true /\ is_digit d = true /\
  (((0 * 10 + digit_val a) * 10 + digit_val b) * 10 + digit_val c) * 10 + digit_val d = n.
Proof.
  intros Hn. unfold pad4.
  destruct (digit_char_facts (n / 1000) ltac:(Z.div_mod_to_equations; lia)) as [Ha Va].
  destruct (digit_char_facts (n / 100 mod 10) ltac:(Z.div_mod_to_equations; lia)) as [Hb Vb].
  destruct (digit_char_facts (n / 10 mod 10) ltac:(Z.div_mod_to_equations; lia)) as [Hc Vc].
  destruct (digit_char_facts (n mod 10) ltac:(Z.div_mod_to_equations; lia)) as [Hd Vd].
  do 4 eexists. split; [reflexivity|]. do 4 (split; [assumption|]).
  rewrite Va, Vb, Vc, Vd. Z.div_mod_to_equations. lia.
Qed.

Lemma parse_slashString tz dp y m d :
  0 <= y <= 9999 -> 0 <= m <= 99 -> 0 <= d <= 99 ->
  Campervan.parseDateValue tz dp (JStr (slashString y m d)) =
  newDate3 tz (Some y) (Some (m - 1)) (Some d).
Proof.
  intros Hy Hm Hd. unfold slashString.
  destruct (pad4_digits y Hy) as (y0 & y1 & y2 & y3 & -> & Hy0 & Hy1 & Hy2 & Hy3 & Vy).
  destruct (pad2_digits m Hm) as (m0 & m1 & -> & Hm0 & Hm1 & Vm).
  destruct (pad2_digits d Hd) as (d0 & d1 & -> & Hd0 & Hd1 & Vd).
  unfold Campervan.parseDateValue. str_steps.
  rewrite !Z.mul_1_l. reflexivity.
Qed.

Lemma parse_isoString tz dp y m d :
  0 <= y <= 9999 -> 0 <= m <= 99 -> 0 <= d <= 99 ->
  Campervan.parseDateValue tz dp (JStr (isoString y m d)) =
  if valid_ymd y m d then TimeClip (UTC tz (MakeDay y (m - 1) d * msPerDay))
  else dp (isoString y m d ++ "T00:00:00")%string.
Proof.
  intros Hy Hm Hd. unfold isoString.
  destruct (pad4_digits y Hy) as (y0 & y1 & y2 & y3 & -> & Hy0 & Hy1 & Hy2 & Hy3 & Vy).
  destruct (pad2_digits m Hm) as (m0 & m1 & -> & Hm0 & Hm1 & Vm).
  destruct (pad2_digits d Hd) as (d0 & d1 & -> & Hd0 & Hd1 & Vd).
  unfold Campervan.parseDateValue, Campervan.isoLocalMidnight. str_steps.
  reflexivity.
Qed.

Lemma days_from_civil_bound y m d : -20000 <= y <= 20000 -> 1 <= m <= 12 -> 1 <= d <= 99 ->
  Z.abs (days_from_civil y m d) <= 10000000.
Proof.
  intros Hy Hm Hd. unfold days_from_civil.
  set (y' := if m <=? 2 then y - 1 else y).
  assert (Hy' : -20001 <= y' <= 20000) by (unfold y'; destruct (m <=? 2); lia).
  clearbody y'.
  pose proof (Z.div_mod y' 400 ltac:(lia)). pose proof (Z.mod_pos_bound y' 400 ltac:(lia)).
  set (era := y' / 400) in *. set (yoe := y' - era * 400).
  assert (Hyoe : 0 <= yoe <= 399) by (unfold yoe; lia).
  assert (Hera : -51 <= era <= 50) by lia.
  clearbody yoe era.
  pose proof (Z.mod_pos_bound (m + 9) 12 ltac:(lia)).
  set (mp := (m + 9) mod 12) in *. clearbody mp.
  assert (0 <= (153 * mp + 2) / 5 <= 337) by (Z.div_mod_to_equations; lia).
  assert (0 <= yoe / 4 <= 99) by (Z.div_mod_to_equations; lia).
  assert (0 <= yoe / 100 <= 3) by (Z.div_mod_to_equations; lia).
  lia.
Qed.

Lemma MakeDay_bound y m d : -10000 <= y <= 10000 -> -1 <= m <= 98 -> 0 <= d <= 99 ->
  Z.abs (MakeDay y m d) <= 10000100.
Proof.
  intros. unfold MakeDay.
  pose proof (days_from_civil_bound (y + m / 12) (m mod 12 + 1) 1).
  assert (-1 <= m / 12 <= 8) by (Z.div_mod_to_equations; lia).
  assert (0 <= m mod 12 < 12) by (apply Z.mod_pos_bound; lia).
  lia.
Qed.



Lemma parse_num_compact tz dp v : 19000101 <= v <= 21001231 ->
  Campervan.parseDateValue tz dp (JNum v) = Campervan.compactDate tz v.
Proof.
  intros Hv. unfold Campervan.parseDateValue. cbn [truthy].
  replace (v =? 0) with false by (symmetry; apply Z.eqb_neq; lia).
  replace (100000000000 <? v) with false by (symmetry; apply Z.ltb_ge; lia).
  replace ((19000101 <=? v) && (v <=? 21001231)) with true
    by (symmetry; apply andb_true_iff; split; apply Z.leb_le; lia). reflexivity.
Qed.


Lemma newDate3_day tz y m d : 100 <= y -> Z.abs tz <= msPerDay ->
  Z.abs (MakeDay y m d) <= 10000100 ->
  newDate3 tz (Some y) (Some m) (Some d) = Some (MakeDay y m d * msPerDay - tz).
Proof.
  intros Hy Htz HD. unfold newDate3, UTC, MakeFullYear.
  replace ((0 <=? y) && (y <=? 99)) with false
    by (symmetry; apply andb_false_iff; right; apply Z.leb_gt; lia).
  apply TimeClip_ok. unfold msPerDay in *. lia.
Qed.

Lemma calendarOf_day tz D : calendarOf tz (Some (D * msPerDay - tz)) = Some (civil_from_days D).
Proof.
  unfold calendarOf, LocalTime. cbn [option_map].
  replace (D * msPerDay - tz + tz) with (D * msPerDay) by ring.
  rewrite Day_mul. reflexivity.
Qed.

Lemma compact_fields y m d : 0 <= y -> 0 <= m <= 99 -> 0 <= d <= 99 ->
  compactNumber y m d / 10000 = y /\ (compactNumber y m d mod 10000) / 100 = m /\
  compactNumber y m d mod 100 = d.
Proof. intros. unfold compactNumber. Z.div_mod_to_equations. lia. Qed.


Lemma civil_from_days_MakeDay_iff y m d :
  civil_from_days (MakeDay y (m - 1) d) = (y, m, d) <-> valid_ymd y m d = true.
Proof.
  split.
  - intros E. pose proof (civil_from_days_valid (MakeDay y (m - 1) d)) as V.
    rewrite E in V. exact V.
  - intros V. rewrite MakeDay_valid by exact V. apply civil_days_roundtrip. exact V.
Qed.

(** C3: the components of a compact [YYYYMMDD] number or a [DD/MM/YYYY]
    string are passed to [new Date(y, m - 1, d)] without validation, so an
    out-of-range month or day rolls over into the following month or year;
    an ISO [YYYY-MM-DD] string is read as local midnight only when the day
    exists and is otherwise left to the engine.  For the years 1900 to 2100,
    the local calendar of the compact or slash result shows the written
    components exactly when they form a valid day. *)
Theorem compact_and_slash_roll_over (tz : Z) (dateParse : string -> option Z) (y m d : Z)
  (Htz : Z.abs tz <= msPerDay) (Hy : 1900 <= y <= 2100) (Hm : 0 <= m <= 99) (Hd : 0 <= d <= 99) :
  let t := MakeDay y (m - 1) d * msPerDay - tz in
  (19000101 <= compactNumber y m d <= 21001231 ->
     Campervan.parseDateValue tz dateParse (JNum (compactNumber y m d)) = Some t) /\
  Campervan.parseDateValue tz dateParse (JStr (slashString y m d)) = Some t /\
  Campervan.parseDateValue tz dateParse (JStr (isoString y m d)) =
    (if valid_ymd y m d then Some t else dateParse (isoString y m d ++ "T00:00:00")%string) /\
  calendarOf tz (Some t) = Some (civil_from_days (MakeDay y (m - 1) d)) /\
  (civil_from_days (MakeDay y (m - 1) d) = (y, m, d) <-> valid_ymd y m d = true).
Proof.
  intros t.
  assert (HD : Z.abs (MakeDay y (m - 1) d) <= 10000100) by (apply MakeDay_bound; lia).
  split; [|split; [|split; [|split]]].
  - intros Hc. rewrite parse_num_compact by exact Hc. unfold Campervan.compactDate.
    destruct (compact_fields y m d) as (E1 & E2 & E3); [lia|lia|lia|].
    rewrite E1, E2, E3. apply newDate3_day; [lia|exact Htz|exact HD].
  - rewrite parse_slashString by lia. apply newDate3_day; [lia|exact Htz|exact HD].
  - rewrite parse_isoString by lia. destruct (valid_ymd y m d); [|reflexivity].
    unfold UTC. apply TimeClip_ok. unfold t, msPerDay in *. lia.
  - apply calendarOf_day.
  - apply civil_from_days_MakeDay_iff.
Qed.

Lemma valid_ymd_ranges y m d : valid_ymd y m d = true -> 1 <= m <= 12 /\ 1 <= d <= 31.
Proof.
  unfold valid_ymd. intros H. bool_facts H. to_Z_props.
  pose proof (days_in_month_le y m). lia.
Qed.




(** Day 32 of January 2025, written as [20250132] or [32/01/2025], parses
    to 1 February 2025; and [15/02/0050] parses to 15 February 1950, since
    [new Date] reads the year 50 as 1950. *)
Lemma compact_day32_rolls_over :
  Campervan.parseDateValue aest noParse (JNum 20250132) = Some 1738332000000 /\
  Campervan.parseDateValue aest noParse (JStr "32/01/2025") = Some 1738332000000 /\
  calendarOf aest (Some 1738332000000) = Some (2025, 2, 1) /\
  calendarOf aest (Campervan.parseDateValue aest noParse (JStr "15/02/0050")) = Some (1950, 2, 15).
Proof. vm_compute. split; [reflexivity|split; [reflexivity|split; reflexivity]]. Qed.

Lemma compact_and_slash_roll_over_witness :
  let t := MakeDay 2025 (13 - 1) 1 * msPerDay - aest in
  Campervan.parseDateValue aest noParse (JNum (compactNumber 2025 13 1)) = Some t /\
  calendarOf aest (Some t) = Some (2026, 1, 1).
Proof.
  intros t.
  assert (H : Z.abs aest <= msPerDay) by (vm_compute; congruence).
  destruct (compact_and_slash_roll_over aest noParse 2025 13 1 H ltac:(lia) ltac:(lia) ltac:(lia))
    as (Hc & _ & _ & Hcal & _).
  split.
  - apply Hc. unfold compactNumber. lia.
  - unfold t. rewrite Hcal. vm_compute. reflexivity.
Defined.

Lemma daysSinceISO_parse dp now v :
  Snowy.daysSinceISO dp now v =
  match Snowy.parseDateValue dp v with
  | None => 0
  | Some d => Z.max 0 ((now - d) / msPerDay)
  end.
Proof. unfold Snowy.daysSinceISO, Snowy.parseDateValue. destruct (truthy v); reflexivity. Qed.

Lemma countIf_cons {A} (p : A -> bool) x l :
  Snowy.countIf p (x :: l) = (if p x then 1 else 0) + Snowy.countIf p l.
Proof. unfold Snowy.countIf. cbn [filter]. destruct (p x); cbn [length]; lia. Qed.

Lemma range_indicators a : 0 <= a ->
  (if (0 <=? a) && (a <=? 30) then 1 else 0) + ((if (31 <=? a) && (a <=? 90) then 1 else 0) +
  ((if (91 <=? a) && (a <=? 180) then 1 else 0) + ((if (181 <=? a) && (a <=? 9999) then 1 else 0) + 0)))
  = if a <=? 9999 then 1 else 0.
Proof.
  intros Ha.
  destruct (Z.leb_spec a 30); [|destruct (Z.leb_spec a 90); [|destruct (Z.leb_spec a 180);
    [|destruct (Z.leb_spec a 9999)]]];
  repeat match goal with |- context [Z.leb ?x ?y] => destruct (Z.leb_spec x y) end;
  cbn [andb]; lia.
Qed.

Lemma mkYardEntry_nonneg dp dts now r : 0 <= Snowy.daysInYard (Snowy.mkYardEntry dp dts now r).
Proof.
  unfold Snowy.mkYardEntry. cbn [Snowy.daysInYard]. rewrite daysSinceISO_parse.
  destruct (Snowy.parseDateValue dp (Snowy.rec_receivedAt r)); lia.
Qed.

Lemma yardRanges_total l : Forall (fun x => 0 <= Snowy.daysInYard x) l ->
  fold_right Z.add 0 (map snd (Snowy.yardRanges l)) =
  Snowy.countIf (fun x => Snowy.daysInYard x <=? 9999) l.
Proof.
  induction 1 as [|x l Hx _ IH].
  - reflexivity.
  - cbn [Snowy.yardRanges Snowy.yardRangeDefs map fold_right snd Snowy.min Snowy.max] in *.
    rewrite !countIf_cons. rewrite <- IH, <- (range_indicators _ Hx). ring.
Qed.

(** C6: the yard age of an entry is the whole days since its parsed receiving
    date (at least 0), and 0 when the date does not parse; the four ranges
    0–30, 31–90, 91–180 and 181–9999 hold each age from 0 to 9999 exactly
    once and no larger age, so the range counts add up to the entries aged
    at most 9999 days. *)
Theorem yard_age_ranges (dateParse : string -> option Z) (dateToString : option Z -> string)
  (now : Z) :
  (forall r t, Snowy.parseDateValue dateParse (Snowy.rec_receivedAt r) = Some t ->
     Snowy.daysInYard (Snowy.mkYardEntry dateParse dateToString now r) = Z.max 0 ((now - t) / msPerDay)) /\
  (forall r, Snowy.parseDateValue dateParse (Snowy.rec_receivedAt r) = None ->
     Snowy.daysInYard (Snowy.mkYardEntry dateParse dateToString now r) = 0) /\
  (forall a, 0 <= a <= 9999 ->
     length (filter (fun d => (Snowy.min d <=? a) && (a <=? Snowy.max d)) Snowy.yardRangeDefs) = 1%nat) /\
  (forall a, 9999 < a ->
     filter (fun d => (Snowy.min d <=? a) && (a <=? Snowy.max d)) Snowy.yardRangeDefs = []) /\
  map Snowy.label (filter (fun d => (Snowy.min d <=? 30) && (30 <=? Snowy.max d)) Snowy.yardRangeDefs)
    = ["0–30"%string] /\
  map Snowy.label (filter (fun d => (Snowy.min d <=? 31) && (31 <=? Snowy.max d)) Snowy.yardRangeDefs)
    = ["31–90"%string] /\
  (forall recs, let l := map (Snowy.mkYardEntry dateParse dateToString now) recs in
     fold_right Z.add 0 (map snd (Snowy.yardRanges l)) =
     Snowy.countIf (fun x => Snowy.daysInYard x <=? 9999) l).
Proof.
  split; [|split; [|split; [|split; [|split; [|split]]]]].
  - intros r t H. unfold Snowy.mkYardEntry. cbn [Snowy.daysInYard].
    rewrite daysSinceISO_parse, H. reflexivity.
  - intros r H. unfold Snowy.mkYardEntry. cbn [Snowy.daysInYard].
    rewrite daysSinceISO_parse, H. reflexivity.
  - intros a Ha. cbn [Snowy.yardRangeDefs filter Snowy.min Snowy.max].
    destruct (Z.leb_spec a 30); [|destruct (Z.leb_spec a 90); [|destruct (Z.leb_spec a 180)]];
    repeat match goal with |- context [Z.leb ?x ?y] => destruct (Z.leb_spec x y); try lia end;
    reflexivity.
  - intros a Ha. cbn [Snowy.yardRangeDefs filter Snowy.min Snowy.max].
    repeat match goal with |- context [Z.leb ?x ?y] => destruct (Z.leb_spec x y); try lia end;
    reflexivity.
  - reflexivity.
  - reflexivity.
  - intros recs l. apply yardRanges_total. unfold l.
    apply Forall_forall. intros x Hx. apply in_map_iff in Hx as (r & <- & _).
    apply mkYardEntry_nonneg.
Qed.

(** A stock entry received on 1990-01-01, seen on 2025-02-15, is 12829 days
    in the yard and is counted in none of the ranges. *)
Lemma age_above_9999_uncounted :
  let e := Snowy.mkYardEntry esDateOnly blankToString 1739577600000
             {| Snowy.rec_receivedAt := JStr "1990-01-01"; Snowy.rec_type := JNull; Snowy.rec_Type := JNull |} in
  Snowy.parseDateValue esDateOnly (JStr "1990-01-01") = Some 631152000000 /\
  Snowy.daysInYard e = 12829 /\
  map snd (Snowy.yardRanges [e]) = [0; 0; 0; 0].
Proof. vm_compute. split; [reflexivity|split; reflexivity]. Qed.

(** * Double-precision shares *)

Lemma iter_pos_nat {A} (f : A -> A) p : forall x, iter_pos f p x = Nat.iter (Pos.to_nat p) f x.
Proof.
  induction p as [p IH|p IH|]; intros x; cbn [iter_pos].
  - rewrite IH, IH, Pos2Nat.inj_xI, <- Nat.iter_add, Nat.iter_swap. cbn [Nat.iter].
    replace (2 * Pos.to_nat p)%nat with (Pos.to_nat p + Pos.to_nat p)%nat by lia. reflexivity.
  - rewrite IH, IH, Pos2Nat.inj_xO, <- Nat.iter_add.
    f_equal. lia.
  - reflexivity.
Qed.

Lemma shr_1_spec m r s : 0 <= m ->
  shr_m (shr_1 {| shr_m := m; shr_r := r; shr_s := s |}) = m / 2 /\
  shr_r (shr_1 {| shr_m := m; shr_r := r; shr_s := s |}) = (m mod 2 =? 1) /\
  shr_s (shr_1 {| shr_m := m; shr_r := r; shr_s := s |}) = r || s.
Proof.
  intros Hm. destruct m as [|[p|p|]|p].
  - split; [reflexivity|split; reflexivity].
  - cbn [shr_1 shr_m shr_r shr_s]. rewrite Pos2Z.inj_xI.
    split; [|split; [|reflexivity]].
    + Z.div_mod_to_equations. lia.
    + symmetry. apply Z.eqb_eq. Z.div_mod_to_equations. lia.
  - cbn [shr_1 shr_m shr_r shr_s]. rewrite Pos2Z.inj_xO.
    split; [|split; [|reflexivity]].
    + Z.div_mod_to_equations. lia.
    + symmetry. apply Z.eqb_neq. Z.div_mod_to_equations. lia.
  - split; [reflexivity|split; reflexivity].
  - lia.
Qed.

Lemma iter_shr_spec n : forall m r s, 0 <= m ->
  let x := Nat.iter n shr_1 {| shr_m := m; shr_r := r; shr_s := s |} in
  shr_m x = m / 2 ^ Z.of_nat n /\ 0 <= shr_m x /\
  shr_r x || shr_s x = negb (m mod 2 ^ Z.of_nat n =? 0) || r || s.
Proof.
  induction n as [|n IH]; intros m r s Hm x.
  - subst x. cbn [Nat.iter shr_m shr_r shr_s]. rewrite Z.div_1_r, Z.mod_1_r. split; [reflexivity|split; [exact Hm|reflexivity]].
  - subst x. change (Nat.iter (S n) shr_1 ?a) with (shr_1 (Nat.iter n shr_1 a)).
    destruct (IH m r s Hm) as (E1 & E2 & E3).
    destruct (Nat.iter n shr_1 {| shr_m := m; shr_r := r; shr_s := s |}) as [mn rn sn].
    cbn [shr_m shr_r shr_s] in E1, E2, E3.
    destruct (shr_1_spec mn rn sn E2) as (F1 & F2 & F3).
    rewrite F1, F2, F3, E1.
    assert (P : 0 < 2 ^ Z.of_nat n) by (apply Z.pow_pos_nonneg; lia).
    replace (2 ^ Z.of_nat (S n)) with (2 ^ Z.of_nat n * 2) by (rewrite Nat2Z.inj_succ, Z.pow_succ_r; lia).
    rewrite Z.div_div by lia.
    split; [reflexivity|split; [apply Z.div_pos; lia|]].
    rewrite Z.rem_mul_r by lia.
    pose proof (Z.mod_pos_bound m (2 ^ Z.of_nat n) P).
    pose proof (Z.mod_pos_bound (m / 2 ^ Z.of_nat n) 2 ltac:(lia)).
    rewrite E3.
    set (a := m mod 2 ^ Z.of_nat n) in *. set (b := (m / 2 ^ Z.of_nat n) mod 2) in *.
    set (P2 := 2 ^ Z.of_nat n) in *.
    assert (Hb : b = 0 \/ b = 1) by lia.
    destruct Hb as [Hb|Hb]; rewrite Hb.
    + rewrite Z.mul_0_r, Z.add_0_r. reflexivity.
    + replace (a + P2 * 1 =? 0) with false by (symmetry; apply Z.eqb_neq; lia). reflexivity.
Qed.

Lemma rne_bounds x : 0 <= shr_m x ->
  shr_m x <= round_nearest_even (shr_m x) (loc_of_shr_record x) <= shr_m x + 1 /\
  (shr_r x || shr_s x = false -> round_nearest_even (shr_m x) (loc_of_shr_record x) = shr_m x).
Proof.
  destruct x as [m [] []]; cbn [shr_m shr_r shr_s loc_of_shr_record round_nearest_even orb];
    intros H; try (destruct (Z.even m)); split; try lia; discriminate.
Qed.

Lemma record_of_loc_spec m l :
  shr_m (shr_record_of_loc m l) = m /\
  (shr_r (shr_record_of_loc m l) || shr_s (shr_record_of_loc m l) = false <-> l = loc_Exact).
Proof. destruct l as [|[]]; cbn; split; try reflexivity; split; congruence. Qed.

(** [shr] by [n] positions: the mantissa divided by [2 ^ n] and the
    inexact flag raised by the bits shifted out. *)
Lemma shr_spec x e n : 0 <= shr_m x ->
  let '(y, e') := shr x e n in
  (n <= 0 -> y = x /\ e' = e) /\
  (0 < n -> e' = e + n /\ shr_m y = shr_m x / 2 ^ n /\ 0 <= shr_m y /\
            shr_r y || shr_s y = negb (shr_m x mod 2 ^ n =? 0) || shr_r x || shr_s x).
Proof.
  intros Hx. destruct n as [|p|p]; cbn [shr].
  - split; [auto|lia].
  - split; [lia|intros _].
    rewrite iter_pos_nat. destruct x as [m r s]. cbn [shr_m shr_r shr_s] in *.
    destruct (iter_shr_spec (Pos.to_nat p) m r s Hx) as (E1 & E2 & E3).
    rewrite positive_nat_Z in E1, E3. auto.
  - split; [auto|lia].
Qed.

(** Rounding to nearest never goes above a bound [K * 2 ^ ex] that lies
    on the grid of the result. *)
Lemma round_aux_grid mx ex lx K :
  0 < mx -> (mx < K \/ (mx = K /\ lx = loc_Exact)) ->
  (0 < fexp 53 1024 (Zdigits2 mx + ex) - ex -> (2 ^ (fexp 53 1024 (Zdigits2 mx + ex) - ex) | K)) ->
  K < 2 ^ (971 - ex) ->
  binary_round_aux 53 1024 false mx ex lx = S754_zero false \/
  exists m j, binary_round_aux 53 1024 false mx ex lx = S754_finite false m (ex + j) /\
              0 <= j /\ Zpos m * 2 ^ j <= K.
Proof.
  intros Hmx HK Hdiv Hover.
  unfold binary_round_aux, shr_fexp.
  set (T := fexp 53 1024 (Zdigits2 mx + ex) - ex) in *.
  pose proof (record_of_loc_spec mx lx) as [R1 R2].
  pose proof (shr_spec (shr_record_of_loc mx lx) ex T ltac:(rewrite R1; lia)) as S1.
  revert S1. destruct (shr (shr_record_of_loc mx lx) ex T) as [y e'] eqn:E1. intros S1.
  assert (A : exists T1, 0 <= T1 /\ e' = ex + T1 /\
                0 <= round_nearest_even (shr_m y) (loc_of_shr_record y) /\
                round_nearest_even (shr_m y) (loc_of_shr_record y) * 2 ^ T1 <= K).
  { destruct S1 as [S1a S1b]. destruct (Z_le_gt_dec T 0) as [HT|HT].
    - destruct (S1a HT) as [-> ->]. exists 0.
      destruct (rne_bounds (shr_record_of_loc mx lx) ltac:(rewrite R1; lia)) as [B1 B2].
      rewrite R1 in B1, B2 |- *.
      split; [lia|split; [lia|split; [lia|]]]. rewrite Z.pow_0_r, Z.mul_1_r.
      destruct HK as [HK|[HK Hl]]; [lia|]. rewrite B2 by (apply R2; exact Hl). lia.
    - destruct (S1b ltac:(lia)) as (Ee & Em & Ey & Ef). rewrite R1 in Em, Ef. exists T.
      destruct (Hdiv ltac:(lia)) as [c Hc].
      assert (P : 0 < 2 ^ T) by (apply Z.pow_pos_nonneg; lia).
      destruct (rne_bounds y Ey) as [B1 B2].
      split; [lia|split; [exact Ee|split; [lia|]]].
      assert (Hq : mx / 2 ^ T <= c).
      { apply Z.div_le_upper_bound; [lia|]. destruct HK as [HK|[HK _]]; nia. }
      destruct (Z.eq_dec (mx / 2 ^ T) c) as [Eq|Ne].
      + assert (HmK : mx = K).
        { pose proof (Z.mul_div_le mx (2 ^ T) P). destruct HK as [HK|[HK _]]; [|exact HK]. nia. }
        destruct HK as [HK|[_ Hl]]; [lia|].
        assert (Z0m : mx mod 2 ^ T = 0) by (rewrite HmK, Hc; apply Z.mod_mul; lia).
        rewrite B2.
        * rewrite Em, Eq. nia.
        * rewrite Ef, Z0m. cbn [Z.eqb negb orb]. apply R2. exact Hl.
      + rewrite <- Em in Hq, Ne. nia. }
  destruct A as (T1 & HT1 & He' & Hm0 & Hm1).
  set (m1 := round_nearest_even (shr_m y) (loc_of_shr_record y)) in *.
  set (T2 := fexp 53 1024 (Zdigits2 m1 + e') - e').
  pose proof (shr_spec (shr_record_of_loc m1 loc_Exact) e' T2 ltac:(cbn; lia)) as S2.
  revert S2. destruct (shr (shr_record_of_loc m1 loc_Exact) e' T2) as [y2 e''] eqn:E2. intros S2.
  assert (B : exists j, 0 <= j /\ e'' = ex + j /\ 0 <= shr_m y2 /\ shr_m y2 * 2 ^ j <= K).
  { destruct S2 as [S2a S2b]. destruct (Z_le_gt_dec T2 0) as [HT|HT].
    - destruct (S2a HT) as [-> ->]. exists T1. cbn. auto.
    - destruct (S2b ltac:(lia)) as (Ee & Em & Ey & _). cbn [shr_record_of_loc shr_m] in Em.
      exists (T1 + T2). split; [lia|split; [lia|split; [exact Ey|]]].
      rewrite Z.pow_add_r by lia. rewrite Em.
      pose proof (Z.mul_div_le m1 (2 ^ T2) ltac:(apply Z.pow_pos_nonneg; lia)).
      pose proof (Z.pow_pos_nonneg 2 T1 ltac:(lia)). nia. }
  destruct B as (j & Hj & He'' & Hy0 & Hy1).
  destruct (shr_m y2) as [|m|m] eqn:Em2.
  - left. reflexivity.
  - destruct (Z.leb_spec e'' (1024 - 53)) as [Hle|Hgt].
    + right. exists m, j. rewrite He''. auto.
    + exfalso.
      assert (Hp : 2 ^ j < 2 ^ (971 - ex)) by (pose proof (Z.pow_pos_nonneg 2 j ltac:(lia)); nia).
      destruct (Z_lt_le_dec (971 - ex) 0) as [Hn|Hn].
      * rewrite (Z.pow_neg_r 2 _ Hn) in Hover. pose proof (Z.pow_pos_nonneg 2 j ltac:(lia)). nia.
      * apply (Z.pow_lt_mono_r_iff 2 j (971 - ex)) in Hp; lia.
  - lia.
Qed.

Lemma digits2_pos_spec p :
  2 ^ (Zpos (digits2_pos p) - 1) <= Zpos p < 2 ^ Zpos (digits2_pos p).
Proof.
  induction p as [p IH|p IH|]; cbn [digits2_pos];
    [rewrite Pos2Z.inj_succ, (Pos2Z.inj_xI p) | rewrite Pos2Z.inj_succ, (Pos2Z.inj_xO p) | cbn; lia];
    assert (1 <= Z.pos (digits2_pos p)) by lia;
    revert IH H; generalize (Z.pos (digits2_pos p)) as d; intros d IH Hd1;
    replace (Z.succ d - 1) with d by lia;
    assert (E1 : 2 ^ d = 2 * 2 ^ (d - 1)) by (rewrite <- Z.pow_succ_r by lia; f_equal; lia);
    assert (E2 : 2 ^ Z.succ d = 2 * 2 ^ d) by (apply Z.pow_succ_r; lia).
    all: lia.
Qed.

Lemma digits2_unique p k : 1 <= k -> 2 ^ (k - 1) <= Zpos p < 2 ^ k -> Zpos (digits2_pos p) = k.
Proof.
  intros Hk Hp. pose proof (digits2_pos_spec p) as Hd.
  destruct (Z.lt_trichotomy (Zpos (digits2_pos p)) k) as [Lt|[Eq|Gt]]; [|exact Eq|].
  - assert (2 ^ Zpos (digits2_pos p) <= 2 ^ (k - 1)) by (apply Z.pow_le_mono_r; lia). lia.
  - assert (2 ^ k <= 2 ^ (Zpos (digits2_pos p) - 1)) by (apply Z.pow_le_mono_r; lia). lia.
Qed.

Lemma iter_xO_spec p d : Zpos (Pos.iter xO p d) = Zpos p * 2 ^ Zpos d.
Proof.
  induction d as [|d IH] using Pos.peano_ind.
  - cbn. lia.
  - rewrite Pos.iter_succ, (Pos2Z.inj_xO (Pos.iter xO p d)), IH, Pos2Z.inj_succ, Z.pow_succ_r by lia. ring.
Qed.

Lemma fexp_normal e : -1021 <= e -> fexp 53 1024 e = e - 53.
Proof. intros. unfold fexp, emin. lia. Qed.

Lemma round_aux_exact m e : fexp 53 1024 (Zdigits2 (Zpos m) + e) = e -> e <= 971 ->
  binary_round_aux 53 1024 false (Zpos m) e loc_Exact = S754_finite false m e.
Proof.
  intros H He. unfold binary_round_aux, shr_fexp. rewrite H, Z.sub_diag.
  cbn [shr shr_record_of_loc shr_m loc_of_shr_record round_nearest_even].
  rewrite H, Z.sub_diag. cbn [shr shr_record_of_loc shr_m].
  destruct (Z.leb_spec e (1024 - 53)); [reflexivity|lia].
Qed.

Lemma toDouble_spec n : 0 < n < 2 ^ 53 ->
  exists m e, Prim2SF (Snowy.toDouble n) = S754_finite false m e /\
    Zpos m = n * 2 ^ (- e) /\ -52 <= e <= 0 /\ 2 ^ 52 <= Zpos m < 2 ^ 53.
Proof.
  intros Hn. unfold Snowy.toDouble. rewrite of_uint63_spec, Uint63.of_Z_spec.
  rewrite Z.mod_small by (unfold wB, size; cbn [Z.of_nat]; lia).
  destruct n as [|p|p]; try lia.
  pose proof (digits2_pos_spec p) as Hd.
  set (d := Zpos (digits2_pos p)) in *.
  assert (Hd53 : 1 <= d <= 53).
  { split; [unfold d; lia|]. destruct (Z_le_gt_dec d 53); [assumption|].
    assert (2 ^ 53 <= 2 ^ (d - 1)) by (apply Z.pow_le_mono_r; lia). lia. }
  unfold binary_normalize, binary_round, shl_align.
  change prec with 53. change emax with 1024. fold d. rewrite (fexp_normal (d + 0)) by lia. rewrite Z.add_0_r.
  replace (d - 53 - 0) with (d - 53) by ring.
  destruct (d - 53) as [|q|q] eqn:Eq.
  - exists p, 0. rewrite round_aux_exact.
    + split; [reflexivity|].
      replace d with 53 in * by lia. cbn in Hd |- *. lia.
    + cbn [Zdigits2]. fold d. rewrite fexp_normal by lia. lia.
    + lia.
  - lia.
  - exists (Pos.iter xO p q), (Zneg q).
    assert (Hq : Zpos q = 53 - d) by lia.
    rewrite round_aux_exact.
    + split; [reflexivity|]. rewrite iter_xO_spec. cbn [Z.opp].
      split; [reflexivity|]. split; [lia|].
      rewrite Hq. split.
      * replace 52 with (d - 1 + (53 - d)) at 1 by ring. rewrite Z.pow_add_r by lia. nia.
      * replace (2 ^ 53) with (2 ^ d * 2 ^ (53 - d)) by (rewrite <- Z.pow_add_r by lia; f_equal; ring). nia.
    + cbn [Zdigits2]. rewrite (digits2_unique _ 53).
      * rewrite fexp_normal by lia. lia.
      * lia.
      * rewrite iter_xO_spec, Hq. split.
        -- replace (53 - 1) with (d - 1 + (53 - d)) by ring. rewrite Z.pow_add_r by lia. nia.
        -- replace (2 ^ 53) with (2 ^ d * 2 ^ (53 - d)) by (rewrite <- Z.pow_add_r by lia; f_equal; ring). nia.
    + lia.
Qed.

Lemma div_eucl_pair a b : Z.div_eucl a b = (a / b, a mod b).
Proof. unfold Z.div, Z.modulo. destruct (Z.div_eucl a b). reflexivity. Qed.

Lemma toDouble_0 : Prim2SF (Snowy.toDouble 0) = S754_zero false.
Proof. vm_compute. reflexivity. Qed.

Lemma pow2_divide a b : 0 <= a <= b -> (2 ^ a | 2 ^ b).
Proof.
  intros H. exists (2 ^ (b - a)). rewrite <- Z.pow_add_r by lia. f_equal. ring.
Qed.

Lemma new_location_0 n : new_location n 0 = loc_Exact.
Proof. unfold new_location. destruct (Z.even n); reflexivity. Qed.

Lemma Zdigits2_le q K : 0 < q -> q <= 2 ^ K -> 0 <= K -> Zdigits2 q <= K + 1.
Proof.
  intros Hq HK HK0. destruct q as [|qp|qp]; try lia. cbn [Zdigits2].
  pose proof (digits2_pos_spec qp) as Hd.
  destruct (Z_le_gt_dec (Zpos (digits2_pos qp)) (K + 1)) as [|Hgt]; [assumption|].
  assert (2 ^ (K + 1) <= 2 ^ (Zpos (digits2_pos qp) - 1)) by (apply Z.pow_le_mono_r; lia).
  rewrite Z.pow_add_r in H by lia. pose proof (Z.pow_pos_nonneg 2 K ltac:(lia)). lia.
Qed.

Lemma grid_le_pow m j E : 0 <= j -> 0 <= E -> Zpos m * 2 ^ j <= 2 ^ E ->
  j <= E /\ Zpos m <= 2 ^ (E - j).
Proof.
  intros Hj HE H.
  destruct (Z_le_gt_dec j E) as [Hle|Hgt].
  - split; [assumption|].
    replace (2 ^ E) with (2 ^ (E - j) * 2 ^ j) in H by (rewrite <- Z.pow_add_r by lia; f_equal; ring).
    pose proof (Z.pow_pos_nonneg 2 j ltac:(lia)). nia.
  - exfalso. assert (2 ^ E < 2 ^ j) by (apply Z.pow_lt_mono_r; lia). pose proof (Zgt_pos_0 m). nia.
Qed.

(** [p / t] in double precision is at most 1 when [p <= t]. *)
Lemma div_le_one p t : 0 <= p <= t -> 0 < t < 2 ^ 53 ->
  Prim2SF (Snowy.toDouble p / Snowy.toDouble t)%float = S754_zero false \/
  exists m e, Prim2SF (Snowy.toDouble p / Snowy.toDouble t)%float = S754_finite false m e /\
              e <= 0 /\ Zpos m <= 2 ^ (- e).
Proof.
  intros Hp Ht. rewrite FloatAxioms.div_spec.
  destruct (toDouble_spec t Ht) as (mt & et & Et & Vt & Bt & Mt).
  destruct (Z.eq_dec p 0) as [->|Hp0].
  - left. rewrite toDouble_0, Et. reflexivity.
  - destruct (toDouble_spec p ltac:(lia)) as (mp & ep & Ep & Vp & Bp & Mp).
    rewrite Ep, Et. unfold SF64div, SFdiv. change prec with 53. change emax with 1024.
    unfold SFdiv_core_binary. cbn [Zdigits2].
    rewrite (digits2_unique mp 53), (digits2_unique mt 53) by lia.
    replace (53 + ep - (53 + et)) with (ep - et) by ring.
    rewrite fexp_normal by lia. rewrite Z.min_l by lia.
    replace (ep - et - (ep - et - 53)) with 53 by ring.
    cbn [xorb]. rewrite Z.shiftl_mul_pow2 by lia. rewrite div_eucl_pair.
    set (ez := ep - et - 53).
    set (K := 2 ^ (- ez)).
    assert (HK : Zpos mp * 2 ^ 53 <= K * Zpos mt).
    { unfold K, ez. rewrite Vp, Vt.
      replace (- (ep - et - 53)) with ((53 - ep) + et) by ring.
      replace (t * 2 ^ (- et)) with (t * 2 ^ (- et)) by reflexivity.
      assert (E1 : 2 ^ (53 - ep + et) * 2 ^ (- et) = 2 ^ (53 - ep))
        by (rewrite <- Z.pow_add_r by lia; f_equal; ring).
      assert (E2 : 2 ^ (- ep) * 2 ^ 53 = 2 ^ (53 - ep))
        by (rewrite <- Z.pow_add_r by lia; f_equal; ring).
      pose proof (Z.pow_pos_nonneg 2 (53 - ep) ltac:(lia)). nia. }
    set (q := Zpos mp * 2 ^ 53 / Zpos mt).
    set (r := Zpos mp * 2 ^ 53 mod Zpos mt).
    assert (Hdm : Zpos mp * 2 ^ 53 = Zpos mt * q + r) by (apply Z.div_mod; lia).
    assert (Hr : 0 <= r < Zpos mt) by (apply Z.mod_pos_bound; lia).
    assert (HqK : q <= K) by nia.
    assert (Hq0 : 0 < q).
    { assert (2 ^ 52 * 2 ^ 53 <= Zpos mp * 2 ^ 53) by (pose proof (Z.pow_pos_nonneg 2 53 ltac:(lia)); nia).
      assert (2 ^ 52 * 2 ^ 53 = 2 ^ 53 * 2 ^ 52) by ring. nia. }
    assert (Hez : 0 <= - ez) by (unfold ez; lia).
    destruct (round_aux_grid q ez (new_location (Zpos mt) r) K) as [Z0|(m & j & Ef & Hj & Hm)].
    + exact Hq0.
    + destruct (Z.eq_dec q K) as [HeqK|HneK]; [right|left; lia].
      split; [exact HeqK|].
      assert (r = 0) by nia. rewrite H. apply new_location_0.
    + intros HT. apply pow2_divide. split; [lia|].
      pose proof (Zdigits2_le q (- ez) Hq0 HqK Hez).
      unfold fexp, emin. lia.
    + unfold K. apply Z.pow_lt_mono_r; lia.
    + left. exact Z0.
    + right. exists m, (ez + j). split; [exact Ef|].
      destruct (grid_le_pow m j (- ez) Hj Hez Hm) as [Hjz Hmz].
      split; [lia|]. replace (- (ez + j)) with (- ez - j) by ring. exact Hmz.
Qed.

Lemma toDouble_100 : Prim2SF (Snowy.toDouble 100) = S754_finite false 7036874417766400 (-46).
Proof. vm_compute. reflexivity. Qed.

Lemma round_half_up_bound m E : E < 0 -> Zpos m <= 100 * 2 ^ (- E) ->
  0 <= (2 * Zpos m + 2 ^ (- E)) / 2 ^ (1 - E) <= 100.
Proof.
  intros HE Hm. pose proof (Z.pow_pos_nonneg 2 (- E) ltac:(lia)) as Hp.
  assert (E1 : 2 ^ (1 - E) = 2 * 2 ^ (- E)) by (rewrite <- Z.pow_succ_r by lia; f_equal; ring).
  rewrite E1. split.
  - apply Z.div_pos; lia.
  - assert ((2 * Zpos m + 2 ^ (- E)) / (2 * 2 ^ (- E)) < 101); [|lia].
    apply Z.div_lt_upper_bound; lia.
Qed.

(** [(p / t) * 100] rounded as [Math.round] lies in [0, 100] when [p <= t]. *)
Lemma pct_bounds p t : 0 <= p <= t -> 0 < t < 2 ^ 53 -> 0 <= Snowy.pct p t <= 100.
Proof.
  intros Hp Ht. unfold Snowy.pct, Snowy.jsRound. rewrite FloatAxioms.mul_spec, toDouble_100.
  destruct (div_le_one p t Hp Ht) as [Z0|(m & e & Ef & He & Hm)].
  - rewrite Z0. cbn. lia.
  - rewrite Ef. unfold SF64mul, SFmul. change prec with 53. change emax with 1024. cbn [xorb].
    set (K := 100 * 2 ^ (46 - e)).
    assert (HmK : Zpos (m * 7036874417766400) <= K).
    { unfold K. rewrite Pos2Z.inj_mul.
      replace (2 ^ (46 - e)) with (2 ^ 46 * 2 ^ (- e)) by (rewrite <- Z.pow_add_r by lia; f_equal; ring).
      change (Zpos 7036874417766400) with (100 * 2 ^ 46).
      pose proof (Z.pow_pos_nonneg 2 46 ltac:(lia)). nia. }
    assert (HK53 : K < 2 ^ (53 - e)).
    { unfold K. replace (2 ^ (53 - e)) with (2 ^ 7 * 2 ^ (46 - e)) by (rewrite <- Z.pow_add_r by lia; f_equal; ring).
      pose proof (Z.pow_pos_nonneg 2 (46 - e) ltac:(lia)). lia. }
    destruct (round_aux_grid (Zpos (m * 7036874417766400)) (e + -46) loc_Exact K)
      as [Z1|(m' & j & Ef' & Hj & Hm')].
    + lia.
    + destruct (Z_lt_le_dec (Zpos (m * 7036874417766400)) K); [left|right]; [assumption|split; [lia|reflexivity]].
    + intros HT. unfold K. apply Z.divide_mul_r. apply pow2_divide. split; [lia|].
      assert (Zdigits2 (Zpos (m * 7036874417766400)) <= 53 - e + 1)
        by (apply Zdigits2_le; lia).
      unfold fexp, emin. lia.
    + replace (971 - (e + -46)) with (1017 - e) by ring.
      assert (2 ^ (53 - e) <= 2 ^ (1017 - e)) by (apply Z.pow_le_mono_r; lia). lia.
    + rewrite Z1. lia.
    + rewrite Ef'. set (E := e + -46 + j).
      assert (Hj' : j = E + (46 - e)) by (unfold E; ring).
      destruct (Z.leb_spec 0 E) as [HE|HE].
      * unfold K in Hm'. rewrite Hj', Z.pow_add_r in Hm' by lia.
        pose proof (Z.pow_pos_nonneg 2 (46 - e) ltac:(lia)).
        pose proof (Z.pow_pos_nonneg 2 E ltac:(lia)). nia.
      * apply round_half_up_bound; [exact HE|].
        unfold K in Hm'.
        replace (2 ^ (46 - e)) with (2 ^ (- E) * 2 ^ j) in Hm' by (rewrite <- Z.pow_add_r by lia; f_equal; lia).
        pose proof (Z.pow_pos_nonneg 2 j ltac:(lia)). nia.
Qed.

(** * Yard inventory *)

Lemma countIf_le {A} (p : A -> bool) l : 0 <= Snowy.countIf p l <= Z.of_nat (length l).
Proof. unfold Snowy.countIf. pose proof (filter_length_le p l). lia. Qed.

Lemma countIf_two_kinds (l : list Snowy.yardEntry) :
  Forall (fun x => Snowy.type_ x = "Stock"%string \/ Snowy.type_ x = "Customer"%string) l ->
  Snowy.countIf (fun x => String.eqb (Snowy.type_ x) "Stock") l +
  Snowy.countIf (fun x => String.eqb (Snowy.type_ x) "Customer") l = Z.of_nat (length l).
Proof.
  unfold Snowy.countIf. induction 1 as [|x l Hx _ IH]; [reflexivity|].
  cbn [filter length]. destruct Hx as [Hx|Hx]; rewrite Hx; cbn [String.eqb Ascii.eqb Bool.eqb andb];
    cbn [length]; lia.
Qed.

Lemma inventory_pct_bounds l : Z.of_nat (length l) < 2 ^ 53 ->
  0 <= Snowy.stockPct (Snowy.yardInventoryOf l) <= 100 /\
  0 <= Snowy.customerPct (Snowy.yardInventoryOf l) <= 100.
Proof.
  intros Hl. unfold Snowy.yardInventoryOf. cbn [Snowy.stockPct Snowy.customerPct].
  destruct (Z.eqb_spec (Z.of_nat (length l)) 0) as [|Hn]; [lia|].
  split; apply pct_bounds; try lia; apply countIf_le.
Qed.

(** C9: 29 Stock entries out of 200: [(29 / 200) * 100] is 14.5 exactly,
    whose half-up rounding is 15, but the double product is just below 14.5
    and [Math.round] gives 14. *)
Lemma stock_share_29_of_200 :
  let inv := Snowy.yardInventoryOf (repeat stockEntry 29 ++ repeat customerEntry 171) in
  Snowy.stock inv = 29 /\ Snowy.total inv = 200 /\
  (2 * Snowy.stock inv * 100 + Snowy.total inv) / (2 * Snowy.total inv) = 15 /\
  Snowy.stockPct inv = 14.
Proof. vm_compute. repeat split; reflexivity. Qed.

(** C10: [normalizeType] returns Stock or Customer for every value, Customer
    for null, empty and unrecognised text; the Stock and Customer counts of a
    dealer's yard entries add up to the total, and both percentages lie in
    [0, 100]. *)
Theorem yard_types_partition (dateParse : string -> option Z) (dateToString : option Z -> string)
  (now : Z) (recs : list Snowy.yardRec) (Hlen : Z.of_nat (length recs) < 2 ^ 53) :
  (forall v, Snowy.normalizeType dateToString v = "Stock"%string \/
             Snowy.normalizeType dateToString v = "Customer"%string) /\
  Snowy.normalizeType dateToString JNull = "Customer"%string /\
  Snowy.normalizeType dateToString (JStr "") = "Customer"%string /\
  (forall s, let t := trim (toLowerCase s) in
     includes t "stock" = false -> includes t "customer" = false -> includes t "retail" = false ->
     Snowy.normalizeType dateToString (JStr s) = "Customer"%string) /\
  let inv := Snowy.yardInventoryOf (map (Snowy.mkYardEntry dateParse dateToString now) recs) in
  Snowy.stock inv + Snowy.customer inv = Snowy.total inv /\
  0 <= Snowy.stockPct inv <= 100 /\ 0 <= Snowy.customerPct inv <= 100.
Proof.
  split; [intros v; apply normalizeType_cases|].
  split; [reflexivity|]. split; [reflexivity|].
  split.
  - intros s t H1 H2 H3. unfold Snowy.normalizeType, Snowy.toStr. fold t.
    rewrite H1, H2, H3. destruct (String.eqb t ""); reflexivity.
  - cbv zeta. rewrite <- (length_map (Snowy.mkYardEntry dateParse dateToString now)) in Hlen.
    destruct (inventory_pct_bounds _ Hlen) as [B1 B2]. split; [|split; assumption].
    unfold Snowy.yardInventoryOf at 1 2 3. cbn [Snowy.stock Snowy.customer Snowy.total].
    apply countIf_two_kinds. apply Forall_forall. intros x Hx.
    apply in_map_iff in Hx. destruct Hx as (r & <- & _). apply normalizeType_cases.
Qed.

Lemma yard_types_partition_witness :
  Z.of_nat (length [{| Snowy.rec_receivedAt := JStr "2025-01-01"; Snowy.rec_type := JStr "Stock"; Snowy.rec_Type := JNull |}]) < 2 ^ 53 /\
  let inv := Snowy.yardInventoryOf (map (Snowy.mkYardEntry esDateOnly blankToString 1739577600000)
               [{| Snowy.rec_receivedAt := JStr "2025-01-01"; Snowy.rec_type := JStr "Stock"; Snowy.rec_Type := JNull |}]) in
  Snowy.stock inv + Snowy.customer inv = Snowy.total inv /\
  0 <= Snowy.stockPct inv <= 100 /\ 0 <= Snowy.customerPct inv <= 100.
Proof.
  split; [cbn; lia|].
  apply (yard_types_partition esDateOnly blankToString 1739577600000
    [{| Snowy.rec_receivedAt := JStr "2025-01-01"; Snowy.rec_type := JStr "Stock"; Snowy.rec_Type := JNull |}]
    ltac:(cbn; lia)).
Defined.

(** * Further properties: the table page, the first component and the dealer overview *)

Section TableDates.

Lemma Z_to_string_pad4 y : 1000 <= y <= 9999 -> Z_to_string y = pad4 y.
Proof.
  intros Hy.
  assert (H : forall_Z (fun y => String.eqb (Z_to_string y) (pad4 y)) 1000 (Z.to_nat 9000) = true)
    by (vm_compute; reflexivity).
  apply String.eqb_eq. apply (forall_Z_spec _ _ _ H). rewrite Z2Nat.id; lia.
Qed.

Lemma padStart2_pad2 k : 1 <= k <= 99 -> JSText.padStart2 (Z_to_string k) = pad2 k.
Proof.
  intros Hk.
  assert (H : forall_Z (fun k => String.eqb (JSText.padStart2 (Z_to_string k)) (pad2 k)) 1 99 = true)
    by (vm_compute; reflexivity).
  apply String.eqb_eq. apply (forall_Z_spec _ _ _ H). lia.
Qed.

Lemma formatDate_calendar tz t :
  CampervanTable.formatDate tz (Some t) =
  let '(y, m, d) := civil_from_days (Day (t + tz)) in
  (JSText.padStart2 (Z_to_string d) ++ "/" ++ JSText.padStart2 (Z_to_string m) ++ "/" ++ Z_to_string y)%string.
Proof.
  unfold CampervanTable.formatDate, getFullYear, getMonth, getDate, LocalTime. cbn [option_map].
  unfold YearFromTime, MonthFromTime, DateFromTime.
  destruct (civil_from_days (Day (t + tz))) as [[y m] d].
  replace (m - 1 + 1) with m by ring. reflexivity.
Qed.

Lemma formatDate_slash tz t : 1000 <= YearFromTime (t + tz) <= 9999 ->
  CampervanTable.formatDate tz (Some t) =
  let '(y, m, d) := civil_from_days (Day (t + tz)) in slashString y m d.
Proof.
  intros Hy. rewrite formatDate_calendar. unfold YearFromTime in Hy.
  pose proof (civil_from_days_valid (Day (t + tz))) as V.
  destruct (civil_from_days (Day (t + tz))) as [[y m] d].
  cbn zeta iota beta in Hy.
  pose proof (valid_ymd_ranges y m d V).
  unfold slashString. rewrite (Z_to_string_pad4 y), (padStart2_pad2 d), (padStart2_pad2 m) by lia.
  reflexivity.
Qed.

Lemma table_parse tz dp : CampervanTable.parseDateValue tz dp = Campervan.parseDateValue tz dp.
Proof. reflexivity. Qed.

Lemma parse_formatDate tz dp t : Z.abs tz <= msPerDay -> 1000 <= YearFromTime (t + tz) <= 9999 ->
  CampervanTable.parseDateValue tz dp (JStr (CampervanTable.formatDate tz (Some t))) =
  Some (Day (t + tz) * msPerDay - tz).
Proof.
  intros Htz Hy. rewrite formatDate_slash by exact Hy. unfold YearFromTime in Hy.
  pose proof (civil_from_days_valid (Day (t + tz))) as V.
  pose proof (days_civil_roundtrip (Day (t + tz))) as R.
  destruct (civil_from_days (Day (t + tz))) as [[y m] d].
  cbn zeta iota beta in Hy. cbn [ymd_days] in R.
  pose proof (valid_ymd_ranges y m d V).
  unfold CampervanTable.parseDateValue. rewrite parse_slashString by lia.
  rewrite newDate3_day by (try apply MakeDay_bound; lia).
  rewrite MakeDay_valid by exact V. rewrite R. reflexivity.
Qed.

Lemma YearFromTime_day tz t : YearFromTime (Day (t + tz) * msPerDay - tz + tz) = YearFromTime (t + tz).
Proof.
  unfold YearFromTime. replace (Day (t + tz) * msPerDay - tz + tz) with (Day (t + tz) * msPerDay) by ring.
  rewrite Day_mul. reflexivity.
Qed.

Lemma formatDate_day tz t :
  CampervanTable.formatDate tz (Some (Day (t + tz) * msPerDay - tz)) = CampervanTable.formatDate tz (Some t).
Proof.
  rewrite !formatDate_calendar.
  replace (Day (t + tz) * msPerDay - tz + tz) with (Day (t + tz) * msPerDay) by ring.
  rewrite Day_mul. reflexivity.
Qed.

Lemma normalizeDateString_idem tz dp v : Z.abs tz <= msPerDay ->
  (forall t, CampervanTable.parseDateValue tz dp v = Some t -> 1000 <= YearFromTime (t + tz) <= 9999) ->
  CampervanTable.normalizeDateString tz dp (JStr (CampervanTable.normalizeDateString tz dp v)) =
  CampervanTable.normalizeDateString tz dp v.
Proof.
  intros Htz Hy. unfold CampervanTable.normalizeDateString at 2 3.
  destruct (CampervanTable.parseDateValue tz dp v) as [t|] eqn:E.
  - unfold CampervanTable.normalizeDateString. rewrite parse_formatDate by (auto; apply Hy; exact E).
    apply formatDate_day.
  - reflexivity.
Qed.

(** X1: normalizeDateString is idempotent: when the value parses to a date whose local year has four digits and the zone offset is at most a day, normalizing the normalized DD/MM/YYYY string gives the same string back. *)
Theorem normalizeDateString_idempotent (tz : Z) (dp : string -> option Z) (v : jsval) :
  Z.abs tz <= msPerDay ->
  (forall t, CampervanTable.parseDateValue tz dp v = Some t -> 1000 <= YearFromTime (t + tz) <= 9999) ->
  CampervanTable.normalizeDateString tz dp (JStr (CampervanTable.normalizeDateString tz dp v)) =
  CampervanTable.normalizeDateString tz dp v.
Proof. exact (normalizeDateString_idem tz dp v). Qed.

Lemma mp_of_mono a b : a <= b -> mp_of a <= mp_of b.
Proof. intros. unfold mp_of. apply Z.div_le_mono; lia. Qed.

Lemma bit_bounds (b : bool) : 0 <= (if b then 1 else 0) <= 1.
Proof. destruct b; lia. Qed.

Lemma year_mono D1 D2 : D1 <= D2 ->
  fst (fst (civil_from_days D1)) <= fst (fst (civil_from_days D2)).
Proof.
  intros HD.
  set (era1 := (D1 + 719468) / 146097). set (doe1 := D1 + 719468 - era1 * 146097).
  set (era2 := (D2 + 719468) / 146097). set (doe2 := D2 + 719468 - era2 * 146097).
  rewrite (civil_from_days_parts D1 era1 doe1 eq_refl eq_refl).
  rewrite (civil_from_days_parts D2 era2 doe2 eq_refl eq_refl). cbn [fst].
  assert (H1 : 0 <= doe1 < 146097).
  { pose proof (Z.div_mod (D1 + 719468) 146097 ltac:(lia)).
    pose proof (Z.mod_pos_bound (D1 + 719468) 146097 ltac:(lia)). unfold doe1, era1. lia. }
  assert (H2 : 0 <= doe2 < 146097).
  { pose proof (Z.div_mod (D2 + 719468) 146097 ltac:(lia)).
    pose proof (Z.mod_pos_bound (D2 + 719468) 146097 ltac:(lia)). unfold doe2, era2. lia. }
  assert (He : era1 <= era2) by (apply Z.div_le_mono; lia).
  destruct (yoe_of_range doe1 H1) as [Y1 S1]. destruct (yoe_of_range doe2 H2) as [Y2 S2].
  set (b1 := if month_of (mp_of (doe1 - ystart (yoe_of doe1))) <=? 2 then 1 else 0).
  set (b2 := if month_of (mp_of (doe2 - ystart (yoe_of doe2))) <=? 2 then 1 else 0).
  assert (B1 : 0 <= b1 <= 1) by (unfold b1; apply bit_bounds).
  assert (B2 : 0 <= b2 <= 1) by (unfold b2; apply bit_bounds).
  destruct (Z_lt_le_dec era1 era2) as [Hlt|Hge]; [lia|].
  assert (Eq : era1 = era2) by lia. assert (Hdoe : doe1 <= doe2) by (unfold doe1, doe2; lia).
  pose proof (yoe_of_mono doe1 doe2 ltac:(lia) ltac:(lia)) as Hy.
  destruct (Z_lt_le_dec (yoe_of doe1) (yoe_of doe2)) as [Hylt|Hyge]; [lia|].
  assert (Ey : yoe_of doe1 = yoe_of doe2) by lia.
  assert (Hm : mp_of (doe1 - ystart (yoe_of doe1)) <= mp_of (doe2 - ystart (yoe_of doe2)))
    by (apply mp_of_mono; rewrite Ey; lia).
  pose proof (ylen_bounds (yoe_of doe1)). pose proof (ylen_bounds (yoe_of doe2)).
  destruct (month_facts (doe1 - ystart (yoe_of doe1)) ltac:(lia)) as [M1 _].
  destruct (month_facts (doe2 - ystart (yoe_of doe2)) ltac:(lia)) as [M2 _].
  assert (b1 <= b2).
  { unfold b1, b2, month_of.
    set (p1 := mp_of (doe1 - ystart (yoe_of doe1))) in *.
    set (p2 := mp_of (doe2 - ystart (yoe_of doe2))) in *.
    destruct (Z.ltb_spec p1 10), (Z.ltb_spec p2 10);
      repeat match goal with |- context [?a <=? ?b] => destruct (Z.leb_spec a b) end; lia. }
  lia.
Qed.

Lemma year_of_day_range D : days_from_civil 1000 1 1 <= D <= days_from_civil 9999 12 31 ->
  1000 <= fst (fst (civil_from_days D)) <= 9999.
Proof.
  intros HD.
  pose proof (year_mono _ _ (proj1 HD)). pose proof (year_mono _ _ (proj2 HD)).
  change (fst (fst (civil_from_days (days_from_civil 1000 1 1)))) with 1000 in *.
  change (fst (fst (civil_from_days (days_from_civil 9999 12 31)))) with 9999 in *. lia.
Qed.

Lemma YearFromTime_fst t : YearFromTime t = fst (fst (civil_from_days (Day t))).
Proof. unfold YearFromTime. destruct (civil_from_days (Day t)) as [[y m] d]. reflexivity. Qed.


Lemma Day_local tz D : Day (D * msPerDay - tz + tz) = D.
Proof. replace (D * msPerDay - tz + tz) with (D * msPerDay) by ring. apply Day_mul. Qed.

Lemma day_range_year tz D : days_from_civil 1000 1 1 <= D <= days_from_civil 9999 12 31 ->
  1000 <= YearFromTime (D * msPerDay - tz + tz) <= 9999.
Proof. intros H. rewrite YearFromTime_fst, Day_local. apply year_of_day_range. exact H. Qed.

Lemma truthy_formatDate tz t : 1000 <= YearFromTime (t + tz) <= 9999 ->
  truthy (JStr (CampervanTable.formatDate tz (Some t))) = true.
Proof.
  intros Hy. rewrite formatDate_slash by exact Hy.
  destruct (civil_from_days (Day (t + tz))) as [[y m] d]. reflexivity.
Qed.

Lemma addDays_formatDate tz dp t n : Z.abs tz <= msPerDay -> 1000 <= YearFromTime (t + tz) <= 9999 ->
  Z.abs (Day (t + tz) + n) <= 10000000 ->
  CampervanTable.addDays tz dp (JStr (CampervanTable.formatDate tz (Some t))) n =
  CampervanTable.formatDate tz (Some ((Day (t + tz) + n) * msPerDay - tz)).
Proof.
  intros Htz Hy Hn. unfold CampervanTable.addDays. rewrite parse_formatDate by assumption.
  rewrite TimeClip_ok.
  - f_equal. f_equal. unfold CampervanTable.DAY_MS, Campervan.DAY_MS, msPerDay. ring.
  - unfold CampervanTable.DAY_MS, Campervan.DAY_MS, msPerDay in *. lia.
Qed.

Lemma dfc_1000 : days_from_civil 1000 1 1 = -354285.
Proof. reflexivity. Qed.
Lemma dfc_9999 : days_from_civil 9999 12 31 = 2932896.
Proof. reflexivity. Qed.

Lemma recalc_offset tz dp t k : Z.abs tz <= msPerDay -> 0 <= k <= 180 ->
  days_from_civil 1000 1 1 + 180 <= Day (t + tz) <= days_from_civil 9999 12 31 ->
  Campervan.parseDuration tz dp
    (JStr (CampervanTable.addDays tz dp (JStr (CampervanTable.formatDate tz (Some t))) (- k)))
    (JStr (CampervanTable.formatDate tz (Some t))) = Campervan.DDays k.
Proof.
  intros Htz Hk HD. rewrite dfc_1000, dfc_9999 in HD.
  assert (Hy : 1000 <= YearFromTime (t + tz) <= 9999).
  { rewrite YearFromTime_fst. apply year_of_day_range. rewrite dfc_1000, dfc_9999. lia. }
  assert (Hy' : 1000 <= YearFromTime ((Day (t + tz) + - k) * msPerDay - tz + tz) <= 9999)
    by (apply day_range_year; rewrite dfc_1000, dfc_9999; lia).
  rewrite addDays_formatDate by (auto; lia).
  unfold Campervan.parseDuration. rewrite !truthy_formatDate by assumption. cbn [negb orb].
  rewrite <- !table_parse.
  rewrite !parse_formatDate by assumption. rewrite Day_local.
  replace (Day (t + tz) * msPerDay - tz - ((Day (t + tz) + - k) * msPerDay - tz))
    with (k * Campervan.DAY_MS) by (unfold Campervan.DAY_MS, msPerDay; ring).
  rewrite roundDays_multiple. replace (0 <=? k) with true by (symmetry; apply Z.leb_le; lia).
  reflexivity.
Qed.

Lemma recalcRow_forecast tz dp r :
  CampervanTable.recalcRow tz dp r "forecastProductionDate"%string =
  JStr (CampervanTable.normalizeDateString tz dp (r "forecastProductionDate"%string)).
Proof. reflexivity. Qed.

Lemma recalcRow_latestVehicleOrder tz dp r :
  CampervanTable.recalcRow tz dp r "latestVehicleOrder"%string =
  JStr (CampervanTable.addDays tz dp
    (JStr (CampervanTable.normalizeDateString tz dp (r "forecastProductionDate"%string))) (- 180)).
Proof. reflexivity. Qed.

Lemma recalcRow_latestEurPartsOrder tz dp r :
  CampervanTable.recalcRow tz dp r "latestEurPartsOrder"%string =
  JStr (CampervanTable.addDays tz dp
    (JStr (CampervanTable.normalizeDateString tz dp (r "forecastProductionDate"%string))) (- 60)).
Proof. reflexivity. Qed.

Lemma recalcRow_latestLongtreePartsOrder tz dp r :
  CampervanTable.recalcRow tz dp r "latestLongtreePartsOrder"%string =
  JStr (CampervanTable.addDays tz dp
    (JStr (CampervanTable.normalizeDateString tz dp (r "forecastProductionDate"%string))) (- 90)).
Proof. reflexivity. Qed.

Lemma normalize_parsed tz dp v t : CampervanTable.parseDateValue tz dp v = Some t ->
  CampervanTable.normalizeDateString tz dp v = CampervanTable.formatDate tz (Some t).
Proof. intros H. unfold CampervanTable.normalizeDateString. rewrite H. reflexivity. Qed.

(** X2: in a time zone with a fixed UTC offset (no daylight saving), after recalcRow the three order deadlines lie exactly 180, 60 and 90 whole days before the normalized forecast production date, as parseDuration measures them, when that date parses and stays in the years 1000 to 9999 after going back 180 days. *)
Theorem recalcRow_order_offsets (tz : Z) (dp : string -> option Z) (r : CampervanTable.row) (t : Z) :
  Z.abs tz <= msPerDay ->
  CampervanTable.parseDateValue tz dp (r "forecastProductionDate"%string) = Some t ->
  days_from_civil 1000 1 1 + 180 <= Day (t + tz) <= days_from_civil 9999 12 31 ->
  let r' := CampervanTable.recalcRow tz dp r in
  Campervan.parseDuration tz dp (r' "latestVehicleOrder"%string) (r' "forecastProductionDate"%string)
    = Campervan.DDays 180 /\
  Campervan.parseDuration tz dp (r' "latestEurPartsOrder"%string) (r' "forecastProductionDate"%string)
    = Campervan.DDays 60 /\
  Campervan.parseDuration tz dp (r' "latestLongtreePartsOrder"%string) (r' "forecastProductionDate"%string)
    = Campervan.DDays 90.
Proof.
  intros Htz Hp HD r'. unfold r'.
  rewrite recalcRow_forecast, recalcRow_latestVehicleOrder, recalcRow_latestEurPartsOrder,
    recalcRow_latestLongtreePartsOrder, (normalize_parsed _ _ _ _ Hp).
  split; [|split].
  - exact (recalc_offset tz dp t 180 Htz ltac:(lia) HD).
  - exact (recalc_offset tz dp t 60 Htz ltac:(lia) HD).
  - exact (recalc_offset tz dp t 90 Htz ltac:(lia) HD).
Qed.

Lemma recalcRow_duration tz dp r :
  CampervanTable.recalcRow tz dp r "duration"%string =
  CampervanTable.durationValue (Campervan.parseDuration tz dp (r "productionPlannedStartDate"%string)
                                                        (r "productionPlannedEndDate"%string)).
Proof. reflexivity. Qed.

Lemma recalcRow_start tz dp r :
  CampervanTable.recalcRow tz dp r "productionPlannedStartDate"%string = r "productionPlannedStartDate"%string.
Proof. reflexivity. Qed.

Lemma recalcRow_end tz dp r :
  CampervanTable.recalcRow tz dp r "productionPlannedEndDate"%string = r "productionPlannedEndDate"%string.
Proof. reflexivity. Qed.

Lemma recalcRow_date tz dp r k :
  String.eqb k "latestVehicleOrder" = false -> String.eqb k "latestEurPartsOrder" = false ->
  String.eqb k "latestLongtreePartsOrder" = false -> String.eqb k "duration" = false ->
  existsb (String.eqb k) CampervanTable.dateKeys = true ->
  CampervanTable.recalcRow tz dp r k = JStr (CampervanTable.normalizeDateString tz dp (r k)).
Proof. intros E1 E2 E3 E4 E5. unfold CampervanTable.recalcRow. rewrite E1, E2, E3, E4, E5. reflexivity. Qed.

Lemma recalcRow_other tz dp r k :
  String.eqb k "latestVehicleOrder" = false -> String.eqb k "latestEurPartsOrder" = false ->
  String.eqb k "latestLongtreePartsOrder" = false -> String.eqb k "duration" = false ->
  existsb (String.eqb k) CampervanTable.dateKeys = false ->
  CampervanTable.recalcRow tz dp r k = r k.
Proof. intros E1 E2 E3 E4 E5. unfold CampervanTable.recalcRow. rewrite E1, E2, E3, E4, E5. reflexivity. Qed.

Lemma In_dateKeys k : existsb (String.eqb k) CampervanTable.dateKeys = true -> In k CampervanTable.dateKeys.
Proof.
  intros H. apply existsb_exists in H as [x [Hx Ex]]. apply String.eqb_eq in Ex. subst. exact Hx.
Qed.

(** X3: recalcRow is idempotent: applied to its own output it changes no field, when every date column that parses has a four-digit local year. *)
Theorem recalcRow_idempotent (tz : Z) (dp : string -> option Z) (r : CampervanTable.row) :
  Z.abs tz <= msPerDay ->
  (forall k t, In k CampervanTable.dateKeys -> CampervanTable.parseDateValue tz dp (r k) = Some t ->
     1000 <= YearFromTime (t + tz) <= 9999) ->
  forall k, CampervanTable.recalcRow tz dp (CampervanTable.recalcRow tz dp r) k =
            CampervanTable.recalcRow tz dp r k.
Proof.
  intros Htz Hy k.
  assert (HF : CampervanTable.normalizeDateString tz dp
                 (JStr (CampervanTable.normalizeDateString tz dp (r "forecastProductionDate"%string))) =
               CampervanTable.normalizeDateString tz dp (r "forecastProductionDate"%string))
    by (apply normalizeDateString_idem; [exact Htz|intros t; apply Hy; left; reflexivity]).
  destruct (String.eqb k "latestVehicleOrder") eqn:E1;
    [apply String.eqb_eq in E1; subst; rewrite !recalcRow_latestVehicleOrder, recalcRow_forecast, HF;
     reflexivity|].
  destruct (String.eqb k "latestEurPartsOrder") eqn:E2;
    [apply String.eqb_eq in E2; subst; rewrite !recalcRow_latestEurPartsOrder, recalcRow_forecast, HF;
     reflexivity|].
  destruct (String.eqb k "latestLongtreePartsOrder") eqn:E3;
    [apply String.eqb_eq in E3; subst; rewrite !recalcRow_latestLongtreePartsOrder, recalcRow_forecast, HF;
     reflexivity|].
  destruct (String.eqb k "duration") eqn:E4;
    [apply String.eqb_eq in E4; subst; rewrite !recalcRow_duration, recalcRow_start, recalcRow_end;
     reflexivity|].
  destruct (existsb (String.eqb k) CampervanTable.dateKeys) eqn:E5.
  - rewrite !(recalcRow_date tz dp _ k E1 E2 E3 E4 E5).
    f_equal. apply normalizeDateString_idem; [exact Htz|].
    intros t. apply Hy. apply In_dateKeys. exact E5.
  - rewrite !(recalcRow_other tz dp _ k E1 E2 E3 E4 E5). reflexivity.
Qed.

Lemma getters_day tz D :
  getFullYear tz (Some (D * msPerDay - tz)) = Some (fst (fst (civil_from_days D))) /\
  getMonth tz (Some (D * msPerDay - tz)) = Some (snd (fst (civil_from_days D)) - 1) /\
  getDate tz (Some (D * msPerDay - tz)) = Some (snd (civil_from_days D)).
Proof.
  unfold getFullYear, getMonth, getDate, LocalTime. cbn [option_map].
  unfold YearFromTime, MonthFromTime, DateFromTime. rewrite Day_local.
  destruct (civil_from_days D) as [[y m] d]. repeat split.
Qed.

Lemma MakeDay_bound2 y m d : -10000 <= y <= 10000 -> -1000 <= m <= 1000 -> 0 <= d <= 99 ->
  Z.abs (MakeDay y m d) <= 10000100.
Proof.
  intros. unfold MakeDay.
  assert (-84 <= m / 12 <= 83) by (Z.div_mod_to_equations; lia).
  assert (0 <= m mod 12 < 12) by (apply Z.mod_pos_bound; lia).
  pose proof (days_from_civil_bound (y + m / 12) (m mod 12 + 1) 1 ltac:(lia) ltac:(lia) ltac:(lia)).
  lia.
Qed.

Lemma addMonths_day tz D a : Z.abs tz <= msPerDay ->
  100 <= fst (fst (civil_from_days D)) <= 9999 -> -900 <= a <= 900 ->
  CampervanTable.addMonths tz (Some (D * msPerDay - tz)) a =
  Some (MakeDay (fst (fst (civil_from_days D))) (snd (fst (civil_from_days D)) - 1 + a) 1 * msPerDay - tz).
Proof.
  intros Htz Hy Ha. unfold CampervanTable.addMonths.
  destruct (getters_day tz D) as (E1 & E2 & _). rewrite E1, E2.
  pose proof (civil_from_days_valid D) as V.
  destruct (civil_from_days D) as [[y m] d]. cbn [fst snd] in *.
  pose proof (valid_ymd_ranges y m d V).
  apply newDate3_day; [lia|exact Htz|apply MakeDay_bound2; lia].
Qed.

Lemma civil_MakeDay_first y M : civil_from_days (MakeDay y M 1) = (y + M / 12, M mod 12 + 1, 1).
Proof.
  unfold MakeDay. replace (days_from_civil (y + M / 12) (M mod 12 + 1) 1 + 1 - 1)
    with (days_from_civil (y + M / 12) (M mod 12 + 1) 1) by ring.
  apply civil_days_roundtrip.
  pose proof (Z.mod_pos_bound M 12 ltac:(lia)).
  unfold valid_ymd. pose proof (days_in_month_common_min (y + M / 12) (M mod 12 + 1)).
  assert (1 <= days_in_month 2001 (M mod 12 + 1)) by (unfold days_in_month; cbn;
    destruct (_ =? 2); [|destruct (_ || _)%bool]; lia).
  repeat (apply andb_true_iff; split); apply Z.leb_le; lia.
Qed.

Lemma getters_local tz t :
  getFullYear tz (Some t) = getFullYear tz (Some (Day (t + tz) * msPerDay - tz)) /\
  getMonth tz (Some t) = getMonth tz (Some (Day (t + tz) * msPerDay - tz)) /\
  getDate tz (Some t) = getDate tz (Some (Day (t + tz) * msPerDay - tz)).
Proof.
  unfold getFullYear, getMonth, getDate, LocalTime. cbn [option_map].
  unfold YearFromTime, MonthFromTime, DateFromTime. rewrite Day_local. repeat split.
Qed.


Lemma sched_start tz : Z.abs tz <= msPerDay ->
  CampervanTable.scheduleStartDate tz = Some (MakeDay 2025 6 1 * msPerDay - tz).
Proof.
  intros Htz. unfold CampervanTable.scheduleStartDate.
  apply newDate3_day; [lia|exact Htz|apply Z.leb_le; vm_compute; reflexivity].
Qed.

Lemma sched_end tz : Z.abs tz <= msPerDay ->
  CampervanTable.scheduleEndDate tz = Some (MakeDay 2026 11 1 * msPerDay - tz).
Proof.
  intros Htz. unfold CampervanTable.scheduleEndDate.
  apply newDate3_day; [lia|exact Htz|apply Z.leb_le; vm_compute; reflexivity].
Qed.

Lemma civil_sched_start : civil_from_days (MakeDay 2025 6 1) = (2025, 7, 1).
Proof. vm_compute. reflexivity. Qed.

Lemma sched_steps tz : Z.abs tz <= msPerDay -> CampervanTable.scheduleStepCount tz = Some 34.
Proof.
  intros Htz. unfold CampervanTable.scheduleStepCount, CampervanTable.scheduleMonthSpan.
  rewrite sched_start, sched_end by exact Htz.
  destruct (getters_day tz (MakeDay 2025 6 1)) as (S1 & S2 & _).
  destruct (getters_day tz (MakeDay 2026 11 1)) as (E1 & E2 & _).
  rewrite S1, S2, E1, E2. vm_compute. reflexivity.
Qed.

Lemma sched_index_day tz D : Z.abs tz <= msPerDay ->
  CampervanTable.scheduleIndexFromDate tz (CampervanTable.DDate (Some (D * msPerDay - tz))) =
  Some (Z.min (Z.max (((fst (fst (civil_from_days D)) - 2025) * 12 + (snd (fst (civil_from_days D)) - 1 - 6)) * 2
                      + (if (15 <=? snd (civil_from_days D))%Z then 1 else 0)) 0) 34).
Proof.
  intros Htz. unfold CampervanTable.scheduleIndexFromDate.
  rewrite sched_steps, sched_start by exact Htz.
  destruct (getters_day tz (MakeDay 2025 6 1)) as (S1 & S2 & _).
  destruct (getters_day tz D) as (D1 & D2 & D3).
  rewrite S1, S2, D1, D2, D3, civil_sched_start. reflexivity.
Qed.

Lemma sched_from_index tz h : Z.abs tz <= msPerDay ->
  CampervanTable.scheduleDateFromIndex tz (Some h) =
  Some (MakeDay (2025 + (6 + Z.min (Z.max h 0) 68 / 4) / 12) ((6 + Z.min (Z.max h 0) 68 / 4) mod 12)
          (if Z.even (Z.min (Z.max h 0) 68) && (Z.min (Z.max h 0) 68 / 2 mod 2 =? 1)%Z
           then 15 else 1) * msPerDay - tz).
Proof.
  intros Htz. unfold CampervanTable.scheduleDateFromIndex.
  rewrite sched_steps, sched_start by exact Htz.
  replace (34 * 2) with 68 by reflexivity.
  set (c := Z.min (Z.max h 0) 68).
  assert (Hc : 0 <= c <= 68) by lia. clearbody c.
  assert (Hw : 0 <= c / 4 <= 17) by (Z.div_mod_to_equations; lia).
  rewrite addMonths_day; rewrite ?civil_sched_start; cbn [fst snd]; try lia.
  destruct (getters_day tz (MakeDay 2025 (7 - 1 + c / 4) 1)) as (B1 & B2 & _).
  rewrite B1, B2, civil_MakeDay_first. cbn [fst snd].
  replace (7 - 1 + c / 4) with (6 + c / 4) by ring.
  replace ((6 + c / 4) mod 12 + 1 - 1) with ((6 + c / 4) mod 12) by ring.
  assert (0 <= (6 + c / 4) / 12 <= 1) by (Z.div_mod_to_equations; lia).
  pose proof (Z.mod_pos_bound (6 + c / 4) 12 ltac:(lia)).
  destruct (Z.even c && (c / 2 mod 2 =? 1))%Z;
    (apply newDate3_day; [lia|exact Htz|apply MakeDay_bound2; lia]).
Qed.

Lemma sched_table : forall_Z (fun c =>
  let D := MakeDay (2025 + (6 + c / 4) / 12) ((6 + c / 4) mod 12)
             (if Z.even c && (c / 2 mod 2 =? 1)%Z then 15 else 1) in
  (Z.min (Z.max (((fst (fst (civil_from_days D)) - 2025) * 12 + (snd (fst (civil_from_days D)) - 1 - 6)) * 2
                 + (if (15 <=? snd (civil_from_days D))%Z then 1 else 0)) 0) 34 =?
   if Z.even c then c / 2 else 2 * (c / 4))%Z) 0 69 = true.
Proof. vm_compute. reflexivity. Qed.

Lemma sched_index_local tz t :
  CampervanTable.scheduleIndexFromDate tz (CampervanTable.DDate (Some t)) =
  CampervanTable.scheduleIndexFromDate tz (CampervanTable.DDate (Some (Day (t + tz) * msPerDay - tz))).
Proof.
  unfold CampervanTable.scheduleIndexFromDate. destruct (getters_local tz t) as (E1 & E2 & E3).
  rewrite E1, E2, E3. reflexivity.
Qed.

(** X6: for twice the index [h], scheduleIndexFromDate(scheduleDateFromIndex(h / 2)) is the clamped
    index [c / 2], [c = min(max(h, 0), 68)], when it is whole, and the whole index of the 1st of the
    month, [2 * floor(c / 4)], when it is a half step (7.5 gives 6); a NaN index gives an Invalid Date
    and NaN.  [null] maps to 0, a valid date to an index in [0, 34], an Invalid Date to NaN. *)
Theorem schedule_index_roundtrip tz h : Z.abs tz <= msPerDay ->
  let c := Z.min (Z.max h 0) 68 in
  CampervanTable.scheduleIndexFromDate tz
    (CampervanTable.DDate (CampervanTable.scheduleDateFromIndex tz (Some h))) =
  Some (if Z.even c then c / 2 else 2 * (c / 4)) /\
  CampervanTable.scheduleDateFromIndex tz None = None /\
  CampervanTable.scheduleIndexFromDate tz CampervanTable.DNull = Some 0 /\
  CampervanTable.scheduleIndexFromDate tz (CampervanTable.DDate None) = None /\
  (forall t, exists k,
     CampervanTable.scheduleIndexFromDate tz (CampervanTable.DDate (Some t)) = Some k /\ 0 <= k <= 34).
Proof.
  intros Htz c. split; [|split; [|split; [|split]]].
  - rewrite sched_from_index, sched_index_day by exact Htz. fold c. f_equal.
    apply Z.eqb_eq. exact (forall_Z_spec _ 69 0 sched_table c ltac:(cbn; lia)).
  - unfold CampervanTable.scheduleDateFromIndex. rewrite sched_steps by exact Htz. reflexivity.
  - reflexivity.
  - reflexivity.
  - intros t. rewrite sched_index_local, sched_index_day by exact Htz. eexists. split; [reflexivity|lia].
Qed.




Lemma addDays_parsed tz dp v t n : Z.abs tz <= msPerDay -> CampervanTable.parseDateValue tz dp v = Some t ->
  days_from_civil 1000 1 1 <= Day (t + tz) + n <= days_from_civil 9999 12 31 ->
  CampervanTable.addDays tz dp v n = CampervanTable.formatDate tz (Some ((Day (t + tz) + n) * msPerDay - tz)).
Proof.
  intros Htz Hp HD. rewrite dfc_1000, dfc_9999 in HD. unfold CampervanTable.addDays. rewrite Hp.
  pose proof (time_decomp (t + tz)) as Ht. pose proof (Z.mod_pos_bound (t + tz) msPerDay ltac:(unfold msPerDay; lia)).
  unfold TimeWithinDay in Ht.
  rewrite TimeClip_ok by (unfold CampervanTable.DAY_MS, Campervan.DAY_MS, msPerDay in *; lia).
  rewrite <- (formatDate_day tz (t + n * CampervanTable.DAY_MS)).
  replace (t + n * CampervanTable.DAY_MS + tz) with ((t + tz) + n * msPerDay)
    by (unfold CampervanTable.DAY_MS, Campervan.DAY_MS, msPerDay; ring).
  rewrite Day_add_days. reflexivity.
Qed.

(** X4: in a time zone with a fixed UTC offset (no daylight saving), addDays composes: shifting a parseable date by a days and the DD/MM/YYYY result by b days gives the same string as shifting by a + b days, while both results stay in the years 1000 to 9999. *)
Theorem addDays_compose tz dp v t a b : Z.abs tz <= msPerDay ->
  CampervanTable.parseDateValue tz dp v = Some t ->
  days_from_civil 1000 1 1 <= Day (t + tz) + a <= days_from_civil 9999 12 31 ->
  days_from_civil 1000 1 1 <= Day (t + tz) + a + b <= days_from_civil 9999 12 31 ->
  CampervanTable.addDays tz dp (JStr (CampervanTable.addDays tz dp v a)) b =
  CampervanTable.addDays tz dp v (a + b).
Proof.
  intros Htz Hp H1 H2.
  rewrite (addDays_parsed tz dp v t a Htz Hp H1), (addDays_parsed tz dp v t (a + b) Htz Hp ltac:(lia)).
  rewrite addDays_formatDate.
  - rewrite Day_local. f_equal. f_equal. f_equal. ring.
  - exact Htz.
  - apply day_range_year. exact H1.
  - rewrite Day_local. rewrite dfc_1000, dfc_9999 in H2. lia.
Qed.


Lemma normalizeDateString_idempotent_witness :
  Z.abs aest <= msPerDay /\
  (forall t, CampervanTable.parseDateValue aest noParse (JStr "15/02/2025") = Some t ->
     1000 <= YearFromTime (t + aest) <= 9999) /\
  CampervanTable.normalizeDateString aest noParse
    (JStr (CampervanTable.normalizeDateString aest noParse (JStr "15/02/2025"))) =
  CampervanTable.normalizeDateString aest noParse (JStr "15/02/2025").
Proof.
  assert (H1 : Z.abs aest <= msPerDay) by (vm_compute; discriminate).
  assert (H2 : forall t, CampervanTable.parseDateValue aest noParse (JStr "15/02/2025") = Some t ->
     1000 <= YearFromTime (t + aest) <= 9999).
  { intros t Hp. vm_compute in Hp. injection Hp as <-. split; apply Z.leb_le; vm_compute; reflexivity. }
  split; [exact H1|split; [exact H2|]].
  apply (normalizeDateString_idempotent aest noParse (JStr "15/02/2025") H1 H2).
Defined.

Lemma recalcRow_order_offsets_witness :
  let r := fun k => if String.eqb k "forecastProductionDate" then JStr "15/02/2025" else JStr "" in
  Z.abs aest <= msPerDay /\
  CampervanTable.parseDateValue aest noParse (r "forecastProductionDate"%string) = Some 1739541600000 /\
  days_from_civil 1000 1 1 + 180 <= Day (1739541600000 + aest) <= days_from_civil 9999 12 31 /\
  let r' := CampervanTable.recalcRow aest noParse r in
  Campervan.parseDuration aest noParse (r' "latestVehicleOrder"%string) (r' "forecastProductionDate"%string)
    = Campervan.DDays 180 /\
  Campervan.parseDuration aest noParse (r' "latestEurPartsOrder"%string) (r' "forecastProductionDate"%string)
    = Campervan.DDays 60 /\
  Campervan.parseDuration aest noParse (r' "latestLongtreePartsOrder"%string) (r' "forecastProductionDate"%string)
    = Campervan.DDays 90.
Proof.
  intros r.
  assert (H1 : Z.abs aest <= msPerDay) by (vm_compute; discriminate).
  assert (H2 : CampervanTable.parseDateValue aest noParse (r "forecastProductionDate"%string) = Some 1739541600000)
    by (vm_compute; reflexivity).
  assert (H3 : days_from_civil 1000 1 1 + 180 <= Day (1739541600000 + aest) <= days_from_civil 9999 12 31)
    by (split; apply Z.leb_le; vm_compute; reflexivity).
  split; [exact H1|split; [exact H2|split; [exact H3|]]].
  exact (recalcRow_order_offsets aest noParse r 1739541600000 H1 H2 H3).
Defined.

Lemma recalcRow_idempotent_witness :
  let r := fun k => if String.eqb k "forecastProductionDate" then JStr "15/02/2025" else JStr "" in
  Z.abs aest <= msPerDay /\
  (forall k t, In k CampervanTable.dateKeys -> CampervanTable.parseDateValue aest noParse (r k) = Some t ->
     1000 <= YearFromTime (t + aest) <= 9999) /\
  forall k, CampervanTable.recalcRow aest noParse (CampervanTable.recalcRow aest noParse r) k =
            CampervanTable.recalcRow aest noParse r k.
Proof.
  intros r.
  assert (H1 : Z.abs aest <= msPerDay) by (vm_compute; discriminate).
  assert (H2 : forall k t, In k CampervanTable.dateKeys -> CampervanTable.parseDateValue aest noParse (r k) = Some t ->
     1000 <= YearFromTime (t + aest) <= 9999).
  { intros k t Hk Hp. vm_compute in Hk.
    repeat (destruct Hk as [<-|Hk]; [vm_compute in Hp; first [discriminate Hp|injection Hp as <-;
      split; apply Z.leb_le; vm_compute; reflexivity]|]). destruct Hk. }
  split; [exact H1|split; [exact H2|]].
  exact (recalcRow_idempotent aest noParse r H1 H2).
Defined.


Lemma schedule_index_roundtrip_witness :
  Z.abs aest <= msPerDay /\
  CampervanTable.scheduleIndexFromDate aest
    (CampervanTable.DDate (CampervanTable.scheduleDateFromIndex aest (Some 15))) = Some 6 /\
  CampervanTable.scheduleIndexFromDate aest
    (CampervanTable.DDate (CampervanTable.scheduleDateFromIndex aest (Some 14))) = Some 7.
Proof.
  assert (H1 : Z.abs aest <= msPerDay) by (vm_compute; discriminate).
  split; [exact H1|split].
  - exact (proj1 (schedule_index_roundtrip aest 15 H1)).
  - exact (proj1 (schedule_index_roundtrip aest 14 H1)).
Defined.


Lemma addDays_compose_witness :
  Z.abs aest <= msPerDay /\
  CampervanTable.parseDateValue aest noParse (JStr "15/02/2025") = Some 1739541600000 /\
  days_from_civil 1000 1 1 <= Day (1739541600000 + aest) + -180 <= days_from_civil 9999 12 31 /\
  days_from_civil 1000 1 1 <= Day (1739541600000 + aest) + -180 + 180 <= days_from_civil 9999 12 31 /\
  CampervanTable.addDays aest noParse (JStr (CampervanTable.addDays aest noParse (JStr "15/02/2025") (-180))) 180 =
  CampervanTable.addDays aest noParse (JStr "15/02/2025") (-180 + 180).
Proof.
  assert (H1 : Z.abs aest <= msPerDay) by (vm_compute; discriminate).
  assert (H2 : CampervanTable.parseDateValue aest noParse (JStr "15/02/2025") = Some 1739541600000)
    by (vm_compute; reflexivity).
  assert (H3 : days_from_civil 1000 1 1 <= Day (1739541600000 + aest) + -180 <= days_from_civil 9999 12 31)
    by (split; apply Z.leb_le; vm_compute; reflexivity).
  assert (H4 : days_from_civil 1000 1 1 <= Day (1739541600000 + aest) + -180 + 180 <= days_from_civil 9999 12 31)
    by (split; apply Z.leb_le; vm_compute; reflexivity).
  refine (conj H1 (conj H2 (conj H3 (conj H4 _)))).
  exact (addDays_compose aest noParse (JStr "15/02/2025") 1739541600000 (-180) 180 H1 H2 H3 H4).
Defined.

End TableDates.

Section PageLists.
Import JSText.

Section Breakdown.
Local Open Scope string_scope.

Lemma bump_keys c s : map fst (CampervanTable.bump c s) = map fst s.
Proof.
  unfold CampervanTable.bump. induction s as [|[k v] s IH]; cbn [map]; [reflexivity|].
  destruct (String.eqb k c); cbn [fst]; f_equal; exact IH.
Qed.

Lemma bump_sum c s : fold_right Z.add 0 (map snd (CampervanTable.bump c s)) =
  fold_right Z.add 0 (map snd s) + Z.of_nat (length (filter (fun k => String.eqb k c) (map fst s))).
Proof.
  unfold CampervanTable.bump in *.
  induction s as [|[k v] s IH]; cbn [map fold_right fst snd filter length]; [reflexivity|].
  destruct (String.eqb k c); cbn [fold_right snd length]; rewrite IH; lia.
Qed.

Lemma category_hits dts ty r :
  Z.of_nat (length (filter (fun k => String.eqb k (CampervanTable.resolveOrderCategory dts ty r))
                     (CampervanTable.orderCategories ty)))
  + (if String.eqb (CampervanTable.resolveOrderCategory dts ty r) "Other" then 1 else 0) = 1.
Proof.
  unfold CampervanTable.resolveOrderCategory, CampervanTable.orderCategories.
  destruct (String.eqb ty "vehicle").
  - destruct (includes _ "ldv"); [reflexivity|]. destruct (includes _ "ford"); reflexivity.
  - destruct (includes _ "SRV19.1"); [reflexivity|]. destruct (includes _ "SRV22.1"); [reflexivity|].
    destruct (includes _ "SRV22.2"); [reflexivity|]. destruct (includes _ "SRV22.3"); reflexivity.
Qed.

(** X14: orderBreakdownSummary counts every filtered row once in total, splits the rows missing a vehicle order into LDV, Ford and other, and its category counts plus the rows of category Other add up to the total. *)
Theorem orderBreakdownSummary_counts dts ty (filtered : list (CampervanTable.row * Z)) :
  let s := CampervanTable.orderBreakdownSummary dts ty filtered in
  CampervanTable.total s = Z.of_nat (length filtered) /\
  CampervanTable.missingLdv s + CampervanTable.missingFord s + CampervanTable.missingOther s =
    CampervanTable.missingVehicleCount s /\
  0 <= CampervanTable.missingVehicleCount s <= CampervanTable.total s /\
  map fst (CampervanTable.data s) = CampervanTable.orderCategories ty /\
  fold_right Z.add 0 (map snd (CampervanTable.data s)) +
    Z.of_nat (length (filter (fun '(r, _) => String.eqb (CampervanTable.resolveOrderCategory dts ty r) "Other") filtered))
  = CampervanTable.total s.
Proof.
  unfold CampervanTable.orderBreakdownSummary.
  match goal with |- context [fold_left ?F filtered ?init] => set (G := F); set (i0 := init) end.
  assert (Hgen : forall l acc, map fst (CampervanTable.data acc) = CampervanTable.orderCategories ty ->
    let s := fold_left G l acc in
    CampervanTable.total s = CampervanTable.total acc + Z.of_nat (length l) /\
    CampervanTable.missingLdv s + CampervanTable.missingFord s + CampervanTable.missingOther s
      - CampervanTable.missingVehicleCount s =
    CampervanTable.missingLdv acc + CampervanTable.missingFord acc + CampervanTable.missingOther acc
      - CampervanTable.missingVehicleCount acc /\
    CampervanTable.missingVehicleCount acc <= CampervanTable.missingVehicleCount s /\
    CampervanTable.missingVehicleCount s - CampervanTable.missingVehicleCount acc
      <= CampervanTable.total s - CampervanTable.total acc /\
    map fst (CampervanTable.data s) = CampervanTable.orderCategories ty /\
    fold_right Z.add 0 (map snd (CampervanTable.data s)) +
      Z.of_nat (length (filter (fun '(r, _) => String.eqb (CampervanTable.resolveOrderCategory dts ty r) "Other") l))
    = fold_right Z.add 0 (map snd (CampervanTable.data acc)) + Z.of_nat (length l)).
  { induction l as [|[r dv] l IH]; intros acc Hk.
    - cbn [fold_left length filter]. rewrite Z.add_0_r. repeat split; try lia; exact Hk.
    - cbn [fold_left]. cbn zeta.
      assert (Hk' : map fst (CampervanTable.data (G acc (r, dv))) = CampervanTable.orderCategories ty)
        by (unfold G; cbn [CampervanTable.data]; rewrite bump_keys; exact Hk).
      destruct (IH _ Hk') as (T & M & M1 & M2 & K & S). clear IH.
      set (fl := fold_left G l (G acc (r, dv))) in *.
      unfold G in T, M, M1, M2, S.
      cbn [CampervanTable.data CampervanTable.total CampervanTable.missingVehicleCount
        CampervanTable.missingLdv CampervanTable.missingFord CampervanTable.missingOther] in T, M, M1, M2, S.
      rewrite bump_sum, Hk in S. pose proof (category_hits dts ty r) as Hc.
      cbn [length filter]. fold G.
      set (b := negb (String.eqb (trim (CampervanTable.strOr dts (r "chassisNumber"))) "")
                && String.eqb (trim (CampervanTable.strOr dts (r "vehicleOrderDate"))) "") in *.
      set (lv := includes (toLowerCase (trim (CampervanTable.strOr dts (r "vehicle")))) "ldv") in *.
      set (fv := includes (toLowerCase (trim (CampervanTable.strOr dts (r "vehicle")))) "ford") in *.
      refine (conj _ (conj _ (conj _ (conj _ (conj K _)))));
        destruct (String.eqb (CampervanTable.resolveOrderCategory dts ty r) "Other");
        destruct b, lv, fv; cbn [andb negb length] in *; rewrite ?Nat2Z.inj_succ in *; lia. }
  assert (K0 : map fst (CampervanTable.data i0) = CampervanTable.orderCategories ty)
    by (subst i0; cbn [CampervanTable.data]; unfold CampervanTable.orderCategories;
        destruct (String.eqb ty "vehicle"); reflexivity).
  cbn zeta. destruct (Hgen filtered i0 K0) as (T & M & M1 & M2 & K & S).
  subst i0. cbn [CampervanTable.data CampervanTable.total CampervanTable.missingVehicleCount
          CampervanTable.missingLdv CampervanTable.missingFord CampervanTable.missingOther] in *.
  assert (Hz : fold_right Z.add 0 (map snd (map (fun c => (c, 0)) (CampervanTable.orderCategories ty))) = 0)
    by (unfold CampervanTable.orderCategories; destruct (String.eqb ty "vehicle"); reflexivity).
  rewrite Hz in S. refine (conj _ (conj _ (conj _ (conj K _)))); lia.
Qed.
End Breakdown.

Section Filtered.
Local Open Scope string_scope.

Lemma fold_push {A B} (F : list B -> A -> list B) :
  (forall acc x, F acc x = app acc (F [] x)) ->
  forall l acc, fold_left F l acc = app acc (fold_left F l []).
Proof.
  intros HF l. induction l as [|x l IH]; intros acc; cbn [fold_left].
  - rewrite app_nil_r. reflexivity.
  - rewrite IH, (IH (F [] x)), HF, app_assoc. reflexivity.
Qed.

Lemma filtered_cons tz dp dts f r rows :
  CampervanTable.filteredOrderRows tz dp dts f (r :: rows) =
  app (CampervanTable.filteredOrderRows tz dp dts f [r]) (CampervanTable.filteredOrderRows tz dp dts f rows).
Proof.
  unfold CampervanTable.filteredOrderRows. cbn [fold_left].
  match goal with |- fold_left ?F _ _ = _ => set (G := F) end.
  apply fold_push. intros acc x. unfold G.
  repeat (match goal with |- context [match ?e with _ => _ end] => destruct e end);
    rewrite ?app_nil_r; reflexivity.
Qed.

Lemma filtered_one tz dp dts f r :
  CampervanTable.filteredOrderRows tz dp dts f [r] =
  if String.eqb (trim (CampervanTable.strOr dts (r "chassisNumber"))) "" then [] else
  match CampervanTable.parseDateValue tz dp (r "signedOrderReceived") with
  | None => []
  | Some dv =>
      let isStock := includes (toLowerCase (trim (CampervanTable.strOr dts (r "customer")))) "stock" in
      if String.eqb f "stock" && negb isStock then []
      else if String.eqb f "non-stock" && isStock then []
      else [(r, dv)]
  end.
Proof. reflexivity. Qed.

(** X15: the stock and non-stock filters keep exactly the stock and the non-stock rows of the unfiltered list, any other filter value keeps all of them, and every kept row has a chassis number and a parsed signing date. *)
Theorem filteredOrderRows_stock_split tz dp dts (rows : list CampervanTable.row) :
  let all := CampervanTable.filteredOrderRows tz dp dts "all" rows in
  let isStock := fun (p : CampervanTable.row * Z) =>
    includes (toLowerCase (trim (CampervanTable.strOr dts (fst p "customer")))) "stock" in
  CampervanTable.filteredOrderRows tz dp dts "stock" rows = filter isStock all /\
  CampervanTable.filteredOrderRows tz dp dts "non-stock" rows = filter (fun p => negb (isStock p)) all /\
  (forall f, f <> "stock" -> f <> "non-stock" -> CampervanTable.filteredOrderRows tz dp dts f rows = all) /\
  (forall r dv, In (r, dv) all ->
     In r rows /\ trim (CampervanTable.strOr dts (r "chassisNumber")) <> "" /\
     CampervanTable.parseDateValue tz dp (r "signedOrderReceived") = Some dv).
Proof.
  cbn zeta. induction rows as [|r rows IH].
  - repeat split; intros; try reflexivity; contradiction.
  - destruct IH as (IS & IN & IO & IM).
    rewrite (filtered_cons tz dp dts "all" r rows), (filtered_cons tz dp dts "stock" r rows),
      (filtered_cons tz dp dts "non-stock" r rows), !filtered_one, !filter_app, IS, IN.
    cbn zeta.
    set (S := includes (toLowerCase (trim (CampervanTable.strOr dts (r "customer")))) "stock").
    replace (String.eqb "all" "stock") with false by reflexivity.
    replace (String.eqb "all" "non-stock") with false by reflexivity.
    replace (String.eqb "stock" "stock") with true by reflexivity.
    replace (String.eqb "stock" "non-stock") with false by reflexivity.
    replace (String.eqb "non-stock" "stock") with false by reflexivity.
    replace (String.eqb "non-stock" "non-stock") with true by reflexivity.
    cbn [andb].
    destruct (String.eqb_spec (trim (CampervanTable.strOr dts (r "chassisNumber"))) "") as [Hc|Hc].
    { refine (conj eq_refl (conj eq_refl (conj _ _))).
      - intros f H1 H2. rewrite (filtered_cons tz dp dts f r rows), filtered_one, IO by assumption.
        rewrite Hc. reflexivity.
      - intros r' dv Hin. destruct (IM r' dv Hin) as (A & B & C). repeat split; auto. right. exact A. }
    destruct (CampervanTable.parseDateValue tz dp (r "signedOrderReceived")) as [dv|] eqn:Hp.
    2: { refine (conj eq_refl (conj eq_refl (conj _ _))).
      - intros f H1 H2. rewrite (filtered_cons tz dp dts f r rows), filtered_one, IO by assumption.
        destruct (String.eqb_spec (trim (CampervanTable.strOr dts (r "chassisNumber"))) ""); [contradiction|].
        rewrite Hp. reflexivity.
      - intros r' dv Hin. destruct (IM r' dv Hin) as (A & B & C). repeat split; auto. right. exact A. }
    assert (HIn : forall r' dv', In (r', dv') (app [(r, dv)] (CampervanTable.filteredOrderRows tz dp dts "all" rows)) ->
      In r' (r :: rows) /\ trim (CampervanTable.strOr dts (r' "chassisNumber")) <> "" /\
      CampervanTable.parseDateValue tz dp (r' "signedOrderReceived") = Some dv').
    { intros r' dv' [Hin|Hin].
      - injection Hin as <- <-. repeat split; auto. left. reflexivity.
      - destruct (IM r' dv' Hin) as (A & B & C). repeat split; auto. right. exact A. }
    assert (HO : forall f, f <> "stock" -> f <> "non-stock" ->
      CampervanTable.filteredOrderRows tz dp dts f (r :: rows) =
      app [(r, dv)] (CampervanTable.filteredOrderRows tz dp dts "all" rows)).
    { intros f H1 H2. rewrite (filtered_cons tz dp dts f r rows), filtered_one, IO by assumption.
      destruct (String.eqb_spec (trim (CampervanTable.strOr dts (r "chassisNumber"))) ""); [contradiction|].
      rewrite Hp. apply String.eqb_neq in H1, H2. rewrite H1, H2. reflexivity. }
    cbn [filter fst]. fold S.
    destruct S; cbn [negb]; exact (conj eq_refl (conj eq_refl (conj HO HIn))).
Qed.
End Filtered.

Section Dealers.
Local Open Scope string_scope.

Lemma filter_length_mono {A} (p q : A -> bool) (l : list A) :
  (forall x, p x = true -> q x = true) -> (length (filter p l) <= length (filter q l))%nat.
Proof.
  intros H. induction l as [|x l IH]; cbn [filter length]; [lia|].
  destruct (p x) eqn:E; [rewrite (H x E); cbn [length]; lia|].
  destruct (q x); cbn [length]; lia.
Qed.

Lemma filter_length_bound {A} (p : A -> bool) (l : list A) : (length (filter p l) <= length l)%nat.
Proof. induction l as [|x l IH]; cbn [filter length]; [lia|]. destruct (p x); cbn [length]; lia. Qed.

Lemma memb_incl ch (A B : list string) : incl A B -> SnowyPage.memb ch A = true -> SnowyPage.memb ch B = true.
Proof.
  unfold SnowyPage.memb. intros H HA. apply existsb_exists in HA as (x & Hx & Hq).
  apply existsb_exists. exists x. split; [apply H; exact Hx|exact Hq].
Qed.

(** X18: waitingCount never grows when the yard or handover chassis sets grow, and it is between 0 and the number of PGI records. *)
Theorem waitingCount_antitone dp dts now nslug (yard1 yard2 hand1 hand2 : list string)
    (pgiList : list (string -> jsval)) :
  incl yard1 yard2 -> incl hand1 hand2 ->
  0 <= SnowyPage.waitingCount dp dts now nslug yard2 hand2 pgiList
    <= SnowyPage.waitingCount dp dts now nslug yard1 hand1 pgiList /\
  SnowyPage.waitingCount dp dts now nslug yard1 hand1 pgiList <= Z.of_nat (length pgiList).
Proof.
  intros HY HH. unfold SnowyPage.waitingCount, Snowy.countIf. split; [split|].
  - lia.
  - apply Nat2Z.inj_le, filter_length_mono. intros r.
    destruct (_ || _)%bool; [discriminate|]. destruct (negb _); [discriminate|].
    intros Hb. apply andb_true_iff in Hb as [B1 B2]. apply andb_true_iff. split.
    + destruct (SnowyPage.memb _ yard1) eqn:E; [|reflexivity].
      rewrite (memb_incl _ _ _ HY E) in B1. discriminate.
    + destruct (SnowyPage.memb _ hand1) eqn:E; [|reflexivity].
      rewrite (memb_incl _ _ _ HH E) in B2. discriminate.
  - apply Nat2Z.inj_le, filter_length_bound.
Qed.
Lemma selfOwnedSlugs_eq dts :
  SnowyPage.selfOwnedSlugs dts = ["frankston"; "geelong"; "launceston"; "st-james"; "traralgon"].
Proof. reflexivity. Qed.

Lemma memb_In ch set : SnowyPage.memb ch set = true <-> In ch set.
Proof.
  unfold SnowyPage.memb. rewrite existsb_exists. split.
  - intros (x & Hx & E). apply String.eqb_eq in E. subst. exact Hx.
  - intros H. exists ch. split; [exact H|apply String.eqb_refl].
Qed.

Lemma filter_perm {A} (p : A -> bool) (l : list A) :
  Permutation (app (filter p l) (filter (fun x => negb (p x)) l)) l.
Proof.
  induction l as [|x l IH]; cbn [filter]; [constructor|].
  destruct (p x); cbn [negb app].
  - constructor. exact IH.
  - apply Permutation_sym, Permutation_cons_app, Permutation_sym, IH.
Qed.

(** X19: the self-owned and other dealer lists split the visible dealers, the self-owned ones are those with slugs frankston, geelong, launceston, st-james and traralgon, and the visible dealers are those whose lowercased name contains the trimmed lowercased query, or all when it is empty. *)
Theorem dealer_lists_partition dts searchQuery (ds : list SnowyPage.dealerSnapshot) :
  let visible := SnowyPage.visibleSnapshots searchQuery ds in
  Permutation (app (SnowyPage.selfOwnedDealers dts visible) (SnowyPage.otherDealers dts visible)) visible /\
  (forall d, In d (SnowyPage.selfOwnedDealers dts visible) <->
     In d visible /\ In (SnowyPage.slug d) ["frankston"; "geelong"; "launceston"; "st-james"; "traralgon"]) /\
  (forall d, In d visible <->
     In d ds /\ (String.eqb (toLowerCase (trim searchQuery)) "" = true \/
                 includes (toLowerCase (SnowyPage.name d)) (toLowerCase (trim searchQuery)) = true)).
Proof.
  cbn zeta. split; [|split].
  - apply filter_perm.
  - intros d. unfold SnowyPage.selfOwnedDealers. rewrite filter_In, memb_In, selfOwnedSlugs_eq. reflexivity.
  - intros d. unfold SnowyPage.visibleSnapshots. cbn zeta.
    destruct (String.eqb (toLowerCase (trim searchQuery)) "") eqn:E.
    + tauto.
    + rewrite filter_In. split; [tauto|]. intros [H [H'|H']]; [discriminate|tauto].
Qed.
End Dealers.

Section Upload.
Local Open Scope string_scope.

Lemma headerMap_values (P : string -> Prop) :
  (forall c, In c CampervanTable.columns -> P (CampervanTable.ckey c)) ->
  forall h k, CampervanTable.headerMap h = Some k -> P k.
Proof.
  intros HP. unfold CampervanTable.headerMap.
  assert (G : forall l (m : string -> option string), (forall h k, m h = Some k -> P k) ->
    (forall c, In c l -> P (CampervanTable.ckey c)) ->
    forall h k, fold_left (fun mapping c =>
               CampervanTable.setKey (CampervanTable.setKey mapping (CampervanTable.normalizeHeader (CampervanTable.clabel c)) (CampervanTable.ckey c))
                      (CampervanTable.normalizeHeader (CampervanTable.ckey c)) (CampervanTable.ckey c)) l m h = Some k -> P k).
  { induction l as [|c l IH]; intros m Hm Hl; cbn [fold_left]; [exact Hm|].
    apply IH; [|intros c' Hc'; apply Hl; right; exact Hc'].
    intros h k. unfold CampervanTable.setKey.
    destruct (String.eqb h _); [intros E; injection E as <-; apply Hl; left; reflexivity|].
    destruct (String.eqb h _); [intros E; injection E as <-; apply Hl; left; reflexivity|].
    apply Hm. }
  apply G; [discriminate|exact HP].
Qed.

Lemma headerKey_not_rowNumber h k : CampervanTable.headerKey h = Some k -> k <> "rowNumber".
Proof.
  unfold CampervanTable.headerKey. destruct (CampervanTable.headerMap _) as [k'|] eqn:E; [|discriminate].
  destruct (String.eqb k' ""); [discriminate|]. intros H; injection H as <-.
  refine (headerMap_values (fun k => k <> "rowNumber") _ _ _ E).
  intros c Hc. unfold CampervanTable.columns in Hc. cbn [In] in Hc.
  repeat (destruct Hc as [<-|Hc]; [cbn; discriminate|]). destruct Hc.
Qed.

Lemma assignValues_other r keys values k :
  (forall key, In (Some key) keys -> key <> k) ->
  CampervanTable.assignValues r keys values k = r k.
Proof.
  revert r keys. induction values as [|v values IH]; intros r keys Hk; [destruct keys; reflexivity|].
  destruct keys as [|[key|] keys]; cbn [CampervanTable.assignValues]; [reflexivity| |].
  - rewrite IH by (intros key' H; apply Hk; right; exact H).
    unfold CampervanTable.setField. destruct (String.eqb_spec k key) as [->|]; [|reflexivity].
    exfalso. apply (Hk key); [left; reflexivity|reflexivity].
  - apply IH. intros key' H. apply Hk. right. exact H.
Qed.

Lemma recalcRow_rowNumber tz dp r : CampervanTable.recalcRow tz dp r "rowNumber" = r "rowNumber".
Proof. reflexivity. Qed.

Lemma uploadRows_facts tz dp keys : (forall key, In (Some key) keys -> key <> "rowNumber") ->
  forall lines index, length (CampervanTable.uploadRows tz dp index keys lines) = length lines /\
  forall i, (i < length lines)%nat ->
    nth i (CampervanTable.uploadRows tz dp index keys lines) (CampervanTable.emptyRow 0) "rowNumber" =
    JNum (index + Z.of_nat i + 1).
Proof.
  intros Hk lines. induction lines as [|line lines IH]; intros index.
  - split; [reflexivity|]. cbn. lia.
  - destruct (IH (index + 1)) as [L N]. cbn [CampervanTable.uploadRows length]. split; [f_equal; exact L|].
    intros [|i] Hi; cbn [nth].
    + rewrite recalcRow_rowNumber, assignValues_other by exact Hk.
      unfold CampervanTable.emptyRow. rewrite String.eqb_refl. f_equal. cbn [Z.of_nat]. lia.
    + rewrite N by lia. f_equal. lia.
Qed.

(** X13: the CSV upload handler stops exactly when the text has no nonblank line; otherwise it sets max(1, lines - 1) rows and row i carries rowNumber i + 1. *)
Theorem csvUploadRows_shape tz dp text :
  let lines := filter (fun line => negb (String.eqb (trim line) "")) (CampervanTable.splitLines text) in
  (CampervanTable.csvUploadRows tz dp text = None <-> lines = []) /\
  (forall rows, CampervanTable.csvUploadRows tz dp text = Some rows ->
     length rows = Nat.max 1 (length lines - 1) /\
     forall i, (i < length rows)%nat ->
       nth i rows (CampervanTable.emptyRow 0) "rowNumber" = JNum (Z.of_nat i + 1)).
Proof.
  cbn zeta. unfold CampervanTable.csvUploadRows.
  destruct (filter _ (CampervanTable.splitLines text)) as [|headerLine rest].
  - split; [tauto|discriminate].
  - cbn zeta. split; [split; [discriminate|discriminate]|].
    intros rows Hr. injection Hr as <-.
    assert (Hk : forall key, In (Some key) (map CampervanTable.headerKey (CampervanTable.parseCsvLine headerLine)) ->
                 key <> "rowNumber").
    { intros key H. apply in_map_iff in H as (h & Hh & _). exact (headerKey_not_rowNumber h key Hh). }
    destruct (uploadRows_facts tz dp _ Hk rest 0) as [L N].
    assert (Hl : (length (headerLine :: rest) - 1 = length rest)%nat) by (cbn [length]; lia). rewrite Hl.
    destruct (CampervanTable.uploadRows tz dp 0 _ rest) as [|r0 rs] eqn:E.
    + cbn [length] in L |- *. rewrite <- L. split; [reflexivity|].
      intros [|i] Hi; [reflexivity|cbn in Hi; lia].
    + split; [rewrite L; cbn [length] in L; lia|].
      intros i Hi. rewrite N by lia. f_equal; lia.
Qed.
End Upload.

Lemma waitingCount_antitone_witness :
  incl [] ["CH1"%string] /\ incl (@nil string) [] /\
  0 <= SnowyPage.waitingCount noParse blankToString 0 "x" ["CH1"%string] [] []
    <= SnowyPage.waitingCount noParse blankToString 0 "x" [] [] [] /\
  SnowyPage.waitingCount noParse blankToString 0 "x" [] [] [] <= Z.of_nat (length (@nil (string -> jsval))).
Proof.
  assert (H1 : incl [] ["CH1"%string]) by (intros a Ha; destruct Ha).
  assert (H2 : incl (@nil string) []) by (intros a Ha; destruct Ha).
  refine (conj H1 (conj H2 _)).
  exact (waitingCount_antitone noParse blankToString 0 "x" [] ["CH1"%string] [] [] [] H1 H2).
Defined.

End PageLists.

Section TableText.
Import JSText Shapes.
Local Open Scope string_scope.

Lemma okAfter_dashRuns b s : okAfter b (dashRuns b s) = true.
Proof.
  revert b. induction s as [|c s IH]; intros b; [reflexivity|].
  cbn [dashRuns]. destruct (is_lower_alnum c) eqn:Ea.
  - cbn [okAfter]. rewrite Ea. apply IH.
  - destruct b.
    + apply IH.
    + cbn [okAfter]. change (is_lower_alnum "-") with false. cbn. apply IH.
Qed.

Lemma okAfter_dropDashes b s : okAfter b s = true -> okAfter true (dropDashes s) = true.
Proof.
  revert b. induction s as [|c s IH]; intros b H; [reflexivity|].
  cbn [dropDashes]. destruct (Ascii.eqb_spec c "-") as [->|Hne].
  - cbn in H. apply andb_true_iff in H as [_ H].
    destruct s as [|c' s']; [reflexivity|].
    cbn [dropDashes]. destruct (Ascii.eqb_spec c' "-") as [->|Hne'].
    + cbn in H. discriminate.
    + exact H.
  - cbn [okAfter] in *. destruct (is_lower_alnum c) eqn:Ea; [exact H|].
    apply Ascii.eqb_neq in Hne. rewrite Hne in H. discriminate.
Qed.

Lemma dropTrailingDashes_head c s s' : dropTrailingDashes s = String c s' ->
  exists s'', s = String c s''.
Proof.
  destruct s as [|c0 s0]; cbn; [discriminate|].
  destruct (Ascii.eqb c0 "-" && String.eqb (dropTrailingDashes s0) "")%bool; [discriminate|].
  intros H. injection H as -> _. eexists. reflexivity.
Qed.

Lemma slugAfter_dropTrailing b s : okAfter b s = true ->
  dropTrailingDashes s = "" \/ slugAfter b (dropTrailingDashes s) = true.
Proof.
  revert b. induction s as [|c s IH]; intros b H; [left; reflexivity|].
  cbn [dropTrailingDashes]. cbn [okAfter] in H.
  destruct (is_lower_alnum c) eqn:Ea.
  - assert (Ec : Ascii.eqb c "-" = false)
      by (destruct (Ascii.eqb_spec c "-"); [subst; discriminate|reflexivity]).
    rewrite Ec. cbn [andb]. right. cbn [slugAfter]. rewrite Ea.
    destruct (IH false H) as [E|E]; [rewrite E; reflexivity|exact E].
  - destruct (Ascii.eqb_spec c "-") as [->|Hne]; [|discriminate].
    apply andb_true_iff in H as [Hb H]. cbn [andb].
    destruct (String.eqb_spec (dropTrailingDashes s) "") as [E|E]; [left; reflexivity|].
    right. cbn [slugAfter]. change (is_lower_alnum "-") with false. cbn [Ascii.eqb].
    rewrite Hb. cbn [andb].
    destruct (IH true H) as [E'|E']; [contradiction|exact E'].
Qed.

Lemma isSlug_strip s : okAfter false s = true -> isSlug (stripDashes s) = true.
Proof.
  intros H. unfold stripDashes, isSlug. apply okAfter_dropDashes in H.
  destruct (slugAfter_dropTrailing true _ H) as [E|E]; rewrite E; [reflexivity|].
  apply orb_true_r.
Qed.

(** X16: normalizeDealerSlug always yields a slug: empty, or lowercase letters and digits in runs joined by single dashes, with no dash at either end. *)
Theorem normalizeDealerSlug_shape (dateToString : option Z -> string) (name : jsval) :
  isSlug (SnowyPage.normalizeDealerSlug dateToString name) = true.
Proof. unfold SnowyPage.normalizeDealerSlug. apply isSlug_strip, okAfter_dashRuns. Qed.

Lemma lower_alnum_bounds c : is_lower_alnum c = true ->
  (97 <= nat_of_ascii c <= 122 \/ 48 <= nat_of_ascii c <= 57)%nat.
Proof.
  unfold is_lower_alnum. intros H. apply orb_true_iff in H as [H|H];
    apply andb_true_iff in H as [H1 H2]; apply Nat.leb_le in H1, H2; lia.
Qed.

Lemma lower_char_alnum c : is_lower_alnum c = true -> lower_char c = c.
Proof.
  intros H. apply lower_alnum_bounds in H. unfold lower_char.
  destruct ((65 <=? nat_of_ascii c)%nat && (nat_of_ascii c <=? 90)%nat) eqn:E; [|reflexivity].
  apply andb_true_iff in E as [E1 E2]. apply Nat.leb_le in E1, E2. lia.
Qed.

Lemma alnum_neq c k : is_lower_alnum c = true -> is_lower_alnum k = false -> Ascii.eqb c k = false.
Proof. intros H1 H2. destruct (Ascii.eqb_spec c k); [subst; congruence|reflexivity]. Qed.

Lemma slugAfter_fixed b s : slugAfter b s = true ->
  toLowerCase s = s /\ replaceChar "&" "and" s = s /\ dashRuns b s = s /\ dropTrailingDashes s = s.
Proof.
  revert b. induction s as [|c s IH]; intros b H; [repeat split|].
  cbn [slugAfter] in H. destruct (is_lower_alnum c) eqn:Ea.
  - destruct (IH false H) as (E1 & E2 & E3 & E4).
    cbn [toLowerCase replaceChar dashRuns dropTrailingDashes].
    rewrite lower_char_alnum, E1, (alnum_neq c "&"), E2, Ea, E3, (alnum_neq c "-"), E4 by (auto; reflexivity).
    repeat split.
  - destruct (Ascii.eqb_spec c "-") as [->|]; [|discriminate].
    apply andb_true_iff in H as [Hb H]. destruct (IH true H) as (E1 & E2 & E3 & E4).
    destruct b; [discriminate|].
    cbn [toLowerCase replaceChar dashRuns dropTrailingDashes]. rewrite E1, E2, E3, E4.
    destruct s as [|c' s']; [discriminate|]. repeat split.
Qed.

Lemma slugAfter_true_start c s : slugAfter true (String c s) = true -> is_lower_alnum c = true.
Proof.
  cbn. destruct (is_lower_alnum c); [reflexivity|]. destruct (Ascii.eqb c "-"); discriminate.
Qed.

Lemma normalizeDealerSlug_fixed dts x : isSlug x = true -> SnowyPage.normalizeDealerSlug dts (JStr x) = x.
Proof.
  intros H. unfold isSlug in H. destruct (String.eqb_spec x "") as [E|Hne]; [rewrite E; reflexivity|].
  cbn [orb] in H. unfold SnowyPage.normalizeDealerSlug. cbn [Snowy.toStr].
  destruct x as [|c s]; [contradiction|].
  pose proof (slugAfter_true_start c s H) as Hc.
  destruct (slugAfter_fixed true _ H) as (E1 & E2 & E3 & E4). rewrite E1, E2.
  replace (dashRuns false (String c s)) with (dashRuns true (String c s)) by (cbn; rewrite Hc; reflexivity).
  rewrite E3. unfold stripDashes. cbn [dropDashes].
  rewrite (alnum_neq c "-") by (auto; reflexivity). exact E4.
Qed.

(** X17: normalizeDealerSlug is idempotent on its own output. *)
Theorem normalizeDealerSlug_idempotent (dateToString : option Z -> string) (name : jsval) :
  let slug := SnowyPage.normalizeDealerSlug dateToString name in
  SnowyPage.normalizeDealerSlug dateToString (JStr slug) = slug.
Proof.
  intros slug. apply normalizeDealerSlug_fixed. unfold slug, SnowyPage.normalizeDealerSlug.
  apply isSlug_strip, okAfter_dashRuns.
Qed.

Lemma keepLowerAlnum_get s : forall i c, String.get i (keepLowerAlnum s) = Some c -> is_lower_alnum c = true.
Proof.
  induction s as [|c0 s IH]; intros i c H; [destruct i; discriminate|].
  cbn [keepLowerAlnum] in H. destruct (is_lower_alnum c0) eqn:Ea; [|eauto].
  destruct i; cbn in H; [injection H as <-; exact Ea|eauto].
Qed.

Lemma keepLowerAlnum_fixed s : toLowerCase (keepLowerAlnum s) = keepLowerAlnum s /\
  keepLowerAlnum (keepLowerAlnum s) = keepLowerAlnum s.
Proof.
  induction s as [|c s [IH1 IH2]]; [split; reflexivity|].
  cbn [keepLowerAlnum]. destruct (is_lower_alnum c) eqn:Ea; [|split; assumption].
  cbn [toLowerCase keepLowerAlnum]. rewrite Ea, lower_char_alnum, IH1, IH2 by exact Ea. split; reflexivity.
Qed.

(** X8: normalizeHeader keeps only lowercase ASCII letters and digits, and it is idempotent. *)
Theorem normalizeHeader_shape (h : string) :
  (forall i c, String.get i (CampervanTable.normalizeHeader h) = Some c -> is_lower_alnum c = true) /\
  CampervanTable.normalizeHeader (CampervanTable.normalizeHeader h) = CampervanTable.normalizeHeader h.
Proof.
  unfold CampervanTable.normalizeHeader. split; [apply keepLowerAlnum_get|].
  destruct (keepLowerAlnum_fixed (toLowerCase h)) as [E1 E2]. rewrite E1. exact E2.
Qed.

Lemma headerMap_table :
  forallb (fun c =>
    match CampervanTable.headerMap (CampervanTable.normalizeHeader (CampervanTable.clabel c)),
          CampervanTable.headerMap (CampervanTable.normalizeHeader (CampervanTable.ckey c)) with
    | Some a, Some b => String.eqb a (CampervanTable.ckey c) && String.eqb b (CampervanTable.ckey c)
    | _, _ => false
    end) CampervanTable.columns = true.
Proof. vm_compute. reflexivity. Qed.

(** X9: a header that normalizes like a column's label or like its key is mapped by headerMap to that column's key. *)
Theorem headerMap_resolves (c : CampervanTable.column) (header : string) :
  In c CampervanTable.columns ->
  CampervanTable.normalizeHeader header = CampervanTable.normalizeHeader (CampervanTable.clabel c) \/
  CampervanTable.normalizeHeader header = CampervanTable.normalizeHeader (CampervanTable.ckey c) ->
  CampervanTable.headerMap (CampervanTable.normalizeHeader header) = Some (CampervanTable.ckey c).
Proof.
  intros Hin Hh. pose proof headerMap_table as T. rewrite forallb_forall in T.
  specialize (T c Hin).
  destruct (CampervanTable.headerMap (CampervanTable.normalizeHeader (CampervanTable.clabel c))) as [a|] eqn:Ea;
    [|discriminate].
  destruct (CampervanTable.headerMap (CampervanTable.normalizeHeader (CampervanTable.ckey c))) as [b|] eqn:Eb;
    [|discriminate].
  apply andb_true_iff in T as [Ta Tb]. apply String.eqb_eq in Ta, Tb. subst a b.
  destruct Hh as [-> | ->]; assumption.
Qed.

Lemma headerMap_resolves_witness :
  In (nth 8 CampervanTable.columns {| CampervanTable.ckey := ""; CampervanTable.clabel := ""; CampervanTable.ctype := "" |})
     CampervanTable.columns /\
  CampervanTable.headerMap (CampervanTable.normalizeHeader "LASTEST vehicle order (forecast production date - 180)") =
  Some "latestVehicleOrder".
Proof.
  split; [cbn; tauto|].
  apply (headerMap_resolves (nth 8 CampervanTable.columns {| CampervanTable.ckey := ""; CampervanTable.clabel := ""; CampervanTable.ctype := "" |})).
  - cbn; tauto.
  - left. vm_compute. reflexivity.
Defined.

Lemma str_app_assoc (a b c : string) : (a ++ b) ++ c = a ++ (b ++ c).
Proof. induction a as [|x a IH]; cbn; [reflexivity|rewrite IH; reflexivity]. Qed.

Lemma str_app_nil (a : string) : a ++ "" = a.
Proof. induction a as [|x a IH]; cbn; [reflexivity|rewrite IH; reflexivity]. Qed.

Lemma replaceChar_app c r a b : replaceChar c r (a ++ b) = replaceChar c r a ++ replaceChar c r b.
Proof.
  induction a as [|x a IH]; [reflexivity|]. cbn [append replaceChar].
  destruct (Ascii.eqb x c); rewrite IH; [apply eq_sym, str_app_assoc|reflexivity].
Qed.

Lemma escapeXml_str dts s :
  CampervanTable.escapeXml dts (JStr s) =
  replaceChar "'" "&apos;" (replaceChar dquote "&quot;" (replaceChar ">" "&gt;"
    (replaceChar "<" "&lt;" (replaceChar "&" "&amp;" s)))).
Proof. reflexivity. Qed.

Lemma escapeXml_cons dts c s :
  CampervanTable.escapeXml dts (JStr (String c s)) =
  CampervanTable.escapeXml dts (JStr (String c "")) ++ CampervanTable.escapeXml dts (JStr s).
Proof.
  rewrite !escapeXml_str. change (String c s) with (String c "" ++ s). rewrite !replaceChar_app. reflexivity.
Qed.

Lemma escapeXml_char dts c X :
  unescapeXml (CampervanTable.escapeXml dts (JStr (String c "")) ++ X) = String c (unescapeXml X).
Proof. destruct c as [[] [] [] [] [] [] [] []]; reflexivity. Qed.

Lemma unescape_escapeXml dts s : unescapeXml (CampervanTable.escapeXml dts (JStr s)) = s.
Proof.
  induction s as [|c s IH]; [reflexivity|].
  rewrite escapeXml_cons, escapeXml_char, IH. reflexivity.
Qed.

Lemma includes_app_char a b x :
  includes (a ++ b) (String x "") = includes a (String x "") || includes b (String x "").
Proof.
  induction a as [|c a IH]; cbn [append].
  - destruct b; reflexivity.
  - change (includes (String c (a ++ b)) (String x "")) with
      (includes_prefix (String x "") (String c (a ++ b)) || includes (a ++ b) (String x "")).
    change (includes (String c a) (String x "")) with
      (includes_prefix (String x "") (String c a) || includes a (String x "")).
    rewrite IH. cbn [includes_prefix]. rewrite !andb_true_r. apply orb_assoc.
Qed.

Lemma escapeXml_char_clean dts c :
  includes (CampervanTable.escapeXml dts (JStr (String c ""))) "<" = false /\
  includes (CampervanTable.escapeXml dts (JStr (String c ""))) ">" = false /\
  includes (CampervanTable.escapeXml dts (JStr (String c ""))) (String dquote "") = false /\
  includes (CampervanTable.escapeXml dts (JStr (String c ""))) "'" = false.
Proof. destruct c as [[] [] [] [] [] [] [] []]; refine (conj _ (conj _ (conj _ _))); reflexivity. Qed.

Lemma escapeXml_value dts v :
  CampervanTable.escapeXml dts v =
  CampervanTable.escapeXml dts (JStr (match v with JNull => "" | _ => CampervanTable.jsString dts v end)).
Proof. destruct v; reflexivity. Qed.

(** X10: escapeXml output never contains <, >, a double quote or an apostrophe, and distinct strings escape to distinct strings. *)
Theorem escapeXml_safe_and_injective (dts : option Z -> string) :
  (forall v, includes (CampervanTable.escapeXml dts v) "<" = false /\
             includes (CampervanTable.escapeXml dts v) ">" = false /\
             includes (CampervanTable.escapeXml dts v) (String dquote "") = false /\
             includes (CampervanTable.escapeXml dts v) "'" = false) /\
  (forall s1 s2, CampervanTable.escapeXml dts (JStr s1) = CampervanTable.escapeXml dts (JStr s2) -> s1 = s2).
Proof.
  split.
  - intros v. rewrite escapeXml_value.
    induction (match v with JNull => "" | _ => CampervanTable.jsString dts v end) as [|c s IH];
      [repeat split; reflexivity|].
    rewrite escapeXml_cons, !includes_app_char.
    destruct (escapeXml_char_clean dts c) as (A1 & A2 & A3 & A4).
    destruct IH as (B1 & B2 & B3 & B4).
    rewrite A1, A2, A3, A4, B1, B2, B3, B4. repeat split; reflexivity.
  - intros s1 s2 E. rewrite <- (unescape_escapeXml dts s1), <- (unescape_escapeXml dts s2), E. reflexivity.
Qed.

Lemma includes_cons_char c f x :
  includes (String c f) (String x "") = false -> Ascii.eqb x c = false /\ includes f (String x "") = false.
Proof.
  intros H. change (includes (String c f) (String x "")) with
    (includes_prefix (String x "") (String c f) || includes f (String x "")) in H.
  cbn [includes_prefix] in H. rewrite andb_true_r in H. apply orb_false_iff in H. exact H.
Qed.

Lemma csvLoop_plain f : forall rest result cur,
  includes f "," = false -> includes f (String dquote "") = false ->
  CampervanTable.csvLoop (f ++ rest) result cur false = CampervanTable.csvLoop rest result (cur ++ f) false.
Proof.
  induction f as [|c f IH]; intros rest result cur H1 H2.
  - rewrite str_app_nil. reflexivity.
  - apply includes_cons_char in H1 as [C1 H1]. apply includes_cons_char in H2 as [C2 H2].
    cbn [append CampervanTable.csvLoop].
    rewrite Ascii.eqb_sym, C2, Ascii.eqb_sym, C1. cbn [andb].
    rewrite IH by assumption. rewrite str_app_assoc. reflexivity.
Qed.

Lemma csvLoop_quoted f : forall rest result cur,
  match rest with String next _ => Ascii.eqb next dquote = false | EmptyString => True end ->
  CampervanTable.csvLoop (replaceChar dquote (String dquote (String dquote "")) f ++ String dquote rest)
    result cur true = CampervanTable.csvLoop rest result (cur ++ f) false.
Proof.
  induction f as [|c f IH]; intros rest result cur Hr.
  - cbn [replaceChar append CampervanTable.csvLoop]. rewrite Ascii.eqb_refl, str_app_nil.
    destruct rest as [|next rest']; [reflexivity|]. rewrite Hr. reflexivity.
  - cbn [replaceChar]. destruct (Ascii.eqb_spec c dquote) as [->|Hne].
    + cbn [append CampervanTable.csvLoop]. rewrite Ascii.eqb_refl. cbn [andb].
      rewrite IH by exact Hr. rewrite str_app_assoc. reflexivity.
    + cbn [append CampervanTable.csvLoop].
      replace (Ascii.eqb c dquote) with false by (symmetry; apply Ascii.eqb_neq; exact Hne).
      rewrite andb_false_r. rewrite IH by exact Hr. rewrite str_app_assoc. reflexivity.
Qed.

Lemma csvLoop_field dts f rest result :
  match rest with String next _ => Ascii.eqb next "," = true | EmptyString => True end ->
  CampervanTable.csvLoop (CampervanTable.escapeValue dts (JStr f) ++ rest) result "" false =
  CampervanTable.csvLoop rest result f false.
Proof.
  intros Hr. unfold CampervanTable.escapeValue. cbn [CampervanTable.jsString].
  destruct (includes f "," || includes f (String dquote "") || includes f (String newline "")) eqn:E.
  - cbn [append CampervanTable.csvLoop]. rewrite Ascii.eqb_refl.
    rewrite str_app_assoc. cbn [append].
    destruct (replaceChar dquote (String dquote (String dquote "")) f ++ String dquote rest) as [|n r] eqn:Ex;
      [destruct (replaceChar dquote (String dquote (String dquote "")) f); discriminate|].
    cbn [andb negb]. rewrite <- Ex. rewrite csvLoop_quoted; [reflexivity|].
    destruct rest as [|next rest']; [exact I|]. apply Ascii.eqb_eq in Hr. subst. reflexivity.
  - apply orb_false_iff in E as [E _]. apply orb_false_iff in E as [E1 E2].
    rewrite csvLoop_plain by assumption. reflexivity.
Qed.

Lemma csvLoop_fields dts fs : fs <> [] -> forall result,
  CampervanTable.csvLoop (String.concat "," (map (CampervanTable.escapeValue dts) (map JStr fs))) result "" false =
  app result (map trim fs).
Proof.
  induction fs as [|f fs IH]; intros Hne result; [contradiction|].
  destruct fs as [|f2 fs'].
  - cbn [map String.concat]. rewrite <- (str_app_nil (CampervanTable.escapeValue dts (JStr f))).
    rewrite csvLoop_field by exact I. reflexivity.
  - change (String.concat "," (map (CampervanTable.escapeValue dts) (map JStr (f :: f2 :: fs')))) with
      (CampervanTable.escapeValue dts (JStr f) ++ "," ++
       String.concat "," (map (CampervanTable.escapeValue dts) (map JStr (f2 :: fs')))).
    rewrite csvLoop_field by reflexivity. cbn [append CampervanTable.csvLoop Ascii.eqb negb andb].
    change (CampervanTable.csvLoop (String.concat "," (map (CampervanTable.escapeValue dts) (map JStr (f2 :: fs'))))
      (app result [trim f]) "" false = app result (map trim (f :: f2 :: fs'))).
    rewrite IH by discriminate. rewrite <- app_assoc. reflexivity.
Qed.

(** X11: parseCsvLine reads back a row written with escapeValue and the comma join as its fields, each trimmed. *)
Theorem csv_row_roundtrip (dts : option Z -> string) (fields : list string) :
  fields <> [] ->
  CampervanTable.parseCsvLine (CampervanTable.csvRow dts (map JStr fields)) = map trim fields.
Proof.
  intros Hne. unfold CampervanTable.parseCsvLine, CampervanTable.csvRow.
  rewrite csvLoop_fields by exact Hne. reflexivity.
Qed.

Lemma split_cons sep s : exists w ws, split sep s = w :: ws.
Proof.
  destruct s as [|c s]; cbn; [eauto|].
  destruct (Ascii.eqb c sep); [eauto|]. destruct (split sep s); eauto.
Qed.

Lemma csvLoop_unquoted line : forall result cur,
  includes line (String dquote "") = false ->
  CampervanTable.csvLoop line result cur false =
  app result (map trim (match split "," line with [] => [cur] | w :: ws => (cur ++ w) :: ws end)).
Proof.
  induction line as [|c l IH]; intros result cur H.
  - cbn. rewrite str_app_nil. reflexivity.
  - apply includes_cons_char in H as [C H]. cbn [CampervanTable.csvLoop split].
    rewrite Ascii.eqb_sym, C.
    destruct (Ascii.eqb_spec c ",") as [->|Hc].
    + cbn [negb andb]. rewrite IH by exact H. rewrite <- app_assoc. cbn [app map].
      rewrite str_app_nil. destruct (split_cons "," l) as (w & ws & ->). reflexivity.
    + cbn [andb]. rewrite IH by exact H.
      destruct (split "," l) as [|w ws]; cbn [map]; try rewrite str_app_assoc; reflexivity.
Qed.

(** X12: a line without a double quote is split by parseCsvLine at every comma, each field trimmed. *)
Theorem parseCsvLine_unquoted (line : string) :
  includes line (String dquote "") = false ->
  CampervanTable.parseCsvLine line = map trim (split "," line).
Proof.
  intros H. unfold CampervanTable.parseCsvLine. rewrite csvLoop_unquoted by exact H.
  destruct (split_cons "," line) as (w & ws & ->). reflexivity.
Qed.

Lemma parseCsvLine_unquoted_witness :
  includes "a, b ,,c" (String dquote "") = false /\
  CampervanTable.parseCsvLine "a, b ,,c" = map trim (split "," "a, b ,,c").
Proof. split; [reflexivity|]. apply parseCsvLine_unquoted. reflexivity. Defined.

Lemma csv_row_roundtrip_witness :
  ["x,y"; " q"; ""] <> [] /\
  CampervanTable.parseCsvLine (CampervanTable.csvRow Inputs.blankToString (map JStr ["x,y"; " q"; ""])) =
  map trim ["x,y"; " q"; ""].
Proof. split; [discriminate|]. apply csv_row_roundtrip. discriminate. Defined.

End TableText.
